(** * MathML normalizer: a shallow embedding of [normalize_mathml.py]

    The tree-rewriting pass of [Normalizer.normalize] is embedded as pure
    functions over an immutable tree.  The library objects the source
    manipulates (BeautifulSoup [Tag] and [NavigableString]) are mutable and
    carry parent pointers; the embedding threads the part of that state the
    rules read and write:

    - a node's child sequence ([t.children], [t.contents]);
    - whether the node is still attached to a parent ([t.parent]);
    - what stands at the node's position in the parent's child sequence
      once the node has been detached ([extract]) or replaced by its
      children ([replace_with_children]).

    Exceptions are results of type [result].

    What the embedding takes from the tree library:

    - [t.children] iterates over the live child sequence of [t], and
      [list(t.children)] is a copy of it;
    - [t.extract()] on an element that has no parent does nothing, and
      [t.replace_with_children()] on such an element raises [ValueError];
    - a text leaf has the name [None] and no attribute [children];
    - a text leaf is the text the tree holds for it.  Assigning
      [t.string] on a leaf sets an attribute of the leaf object and leaves
      that text as it was (the tree library up to its version 4.12; later
      versions refuse the assignment); reading [t.string] on a leaf gives
      the attribute once it has been assigned, and the text before;
    - [t.string] of an element is its only child when that is a leaf, that
      is the text of the leaf (looked up through elements that have a
      single child), or [None]; assigning it replaces the children by one
      text leaf;
    - the calls are nested less deeply than the recursion limit of the
      interpreter allows;
    - an element is never equal to a string, so that it is never found
      among the keys of [POSITIONAL_TAGS]. *)

From Stdlib Require Import List String Ascii ZArith Bool Arith Lia.
Import ListNotations.

Local Open Scope Z_scope.

(** ** Python strings *)

(** A Python [str] is a sequence of Unicode code points. *)
Definition codepoint := Z.
Definition text := list codepoint.

Module Py.

(** [str.isspace] on one code point: the characters [str.strip()]
    removes when called without argument. *)
Definition isspace (c : codepoint) : bool :=
  ((9 <=? c) && (c <=? 13)) || ((28 <=? c) && (c <=? 32))
  || (c =? 133) || (c =? 160) || (c =? 5760)
  || ((8192 <=? c) && (c <=? 8202))
  || (c =? 8232) || (c =? 8233) || (c =? 8239) || (c =? 8287)
  || (c =? 12288).

Fixpoint lstrip (s : text) : text :=
  match s with
  | [] => []
  | c :: s' => if isspace c then lstrip s' else s
  end.

Definition rstrip (s : text) : text := rev (lstrip (rev s)).

(** [s.strip()] *)
Definition strip (s : text) : text := rstrip (lstrip s).

Definition text_eqb (a b : text) : bool :=
  if list_eq_dec Z.eq_dec a b then true else false.

Fixpoint startswith (s prefix : text) {struct prefix} : bool :=
  match prefix, s with
  | [], _ => true
  | p :: prefix', c :: s' => (c =? p) && startswith s' prefix'
  | _ :: _, [] => false
  end.

(** [s.replace(old, new)] for a non-empty [old]: the occurrences of [old]
    are found from left to right and do not overlap.  [skip] counts the
    characters of a matched occurrence that are still to be passed over. *)
Fixpoint replace_from (old new : text) (skip : nat) (s : text) : text :=
  match s with
  | [] => []
  | c :: s' =>
      match skip with
      | S k => replace_from old new k s'
      | O =>
          if startswith s old
          then new ++ replace_from old new (Nat.pred (List.length old)) s'
          else c :: replace_from old new 0 s'
      end
  end.

Definition replace (old new s : text) : text := replace_from old new 0 s.

End Py.

(** ** Constants of the module *)

(** The first literal of [normalize_characters], code point by code point as
    it stands in the source file: U+00E2, U+02C6, U+2019. *)
Definition MINUS_LOOKALIKE : text := [226; 710; 8217].
Definition HYPHEN_MINUS : text := [45].
Definition THIN_SPACE : text := [8201].
Definition SPACE : text := [32].
Definition FUNCTION_APPLICATION : text := [8289].

Definition normalize_characters (s : text) : text :=
  let s := Py.replace MINUS_LOOKALIKE HYPHEN_MINUS s in
  let s := Py.replace THIN_SPACE SPACE s in
  s.

(** The [else] branch of [dfs] on a leaf object whose attribute [string]
    reads [s]: the value the two assignments leave in that attribute. *)
Definition dfs_string (s : text) : text :=
  let s := normalize_characters (Py.strip s) in
  if Py.text_eqb s FUNCTION_APPLICATION then [] else s.

(** ** Trees, exceptions *)

Local Open Scope string_scope.
Local Open Scope nat_scope.

(** A parsed document: elements ([Tag]) with an ordered child sequence, and
    text leaves.  A text leaf is represented by its text. *)
#[local] Unset Elimination Schemes.
Inductive node : Type :=
| NavigableString (s : text)
| Tag (name : string) (children : list node).
#[local] Set Elimination Schemes.

(** Where a [ValueError] comes from: [max] of an empty sequence, or
    [replace_with_children] on an element that has no parent. *)
Inductive value_error : Type := MaxOfEmpty | NotInTree.

Inductive exn : Type :=
| RuntimeError (msg : string)
| ValueError (why : value_error)
| TypeError
| AttributeError
| IndexError.

Inductive result (A : Type) : Type :=
| Ok (a : A)
| Raise (e : exn).
Arguments Ok {A} a.
Arguments Raise {A} e.

Definition bind {A B : Type} (m : result A) (k : A -> result B) : result B :=
  match m with
  | Ok a => k a
  | Raise e => Raise e
  end.

Notation "x <- m ;; k" := (bind m (fun x => k))
  (at level 61, m at next level, right associativity).

Definition is_ok {A : Type} (m : result A) : bool :=
  match m with Ok _ => true | Raise _ => false end.

Fixpoint mapM {A B : Type} (f : A -> result B) (l : list A) : result (list B) :=
  match l with
  | [] => Ok []
  | a :: l' => b <- f a ;; bs <- mapM f l' ;; Ok (b :: bs)
  end.

(** ** Module constants *)

Definition EMPTY_TAGS : list string := ["mtd"; "mprescripts"; "none"].

Definition POSITIONAL_TAGS : list (string * option nat) :=
  [ ("msub", Some 2); ("msup", Some 2); ("msubsup", Some 3);
    ("mover", Some 2); ("munder", Some 2); ("munderover", Some 3);
    ("mmultiscripts", None); ("mfrac", Some 2) ].

(** The objects the source tests for membership in [POSITIONAL_TAGS]:
    a string ([t.name]) or an element ([t.parent]). *)
Inductive pyobj : Type :=
| PyStr (s : string)
| PyTag (name : string).

(** [key == obj] for a string key of a dict: an element is never equal to
    a string. *)
Definition key_eq (key : string) (obj : pyobj) : bool :=
  match obj with
  | PyStr s => String.eqb key s
  | PyTag _ => false
  end.

(** [obj in d] *)
Definition dict_in {V : Type} (obj : pyobj) (d : list (string * V)) : bool :=
  existsb (fun kv => key_eq (fst kv) obj) d.

(** [d.get(k, None)] where the values of [d] are themselves integers or
    [None]. *)
Definition dict_get (d : list (string * option nat)) (k : string) : option nat :=
  match find (fun kv => String.eqb (fst kv) k) d with
  | Some (_, v) => v
  | None => None
  end.

(** [name in l] for a list of strings *)
Definition list_in (name : string) (l : list string) : bool :=
  existsb (String.eqb name) l.

(** ** Accessors of the tree library *)

(** [t.name]: [None] on a text leaf. *)
Definition name_of (t : node) : option string :=
  match t with
  | Tag n _ => Some n
  | NavigableString _ => None
  end.

Definition name_is (t : node) (n : string) : bool :=
  match name_of t with
  | Some m => String.eqb m n
  | None => false
  end.

(** [t.children]: a text leaf has no such attribute. *)
Definition children_of (t : node) : result (list node) :=
  match t with
  | Tag _ cs => Ok cs
  | NavigableString _ => Raise AttributeError
  end.

(** [t.string] (read) of an element: its only child when that is a leaf,
    that is the text of the leaf, else the [string] of its only child, and
    [None] when it has no child or several.  (On a leaf: its text, as long
    as the attribute has not been assigned.) *)
Fixpoint get_string (t : node) : option text :=
  match t with
  | NavigableString s => Some s
  | Tag _ [c] => get_string c
  | Tag _ _ => None
  end.

(** [t.string = s] on an element: its children are cleared and one text
    leaf is appended.  (On a leaf the assignment sets an attribute of the
    object and the text stays.) *)
Definition set_string (t : node) (s : text) : node :=
  match t with
  | Tag n _ => Tag n [NavigableString s]
  | NavigableString s0 => NavigableString s0
  end.

Definition is_empty_mtd (t : node) : bool :=
  match t with
  | Tag n cs => String.eqb n "mtd" && (List.length cs =? 0)
  | NavigableString _ => false
  end.

(** ** The element being processed

    [parent] is [t.parent] (the parent's tag name, [None] once [t] is
    detached or when [t] is the root); [kids] is [t.children]; [slot] is
    what stands where [t] stood in its former parent's child sequence, once
    [t] has been detached. *)
Record tstate : Type := mkState {
  parent : option string;
  slot : list node;
  kids : list node
}.

Definition set_kids (st : tstate) (cs : list node) : tstate :=
  mkState (parent st) (slot st) cs.

(** [t.extract()] *)
Definition extract (st : tstate) : tstate :=
  match parent st with
  | Some _ => mkState None [] (kids st)
  | None => st
  end.

(** [t.replace_with_children()] *)
Definition replace_with_children (st : tstate) : result tstate :=
  match parent st with
  | Some _ => Ok (mkState None (kids st) [])
  | None => Raise (ValueError NotInTree)
  end.

(** What stands at [t]'s position in its parent when [dfs t] returns. *)
Definition in_parent (name : string) (st : tstate) : list node :=
  match parent st with
  | Some _ => [Tag name (kids st)]
  | None => slot st
  end.

(** ** The rules *)

Definition opt_list {A : Type} (o : option A) : list A :=
  match o with
  | Some a => [a]
  | None => []
  end.

(** The loop of [merge_mi] over [list(t.children)].  [last_c] is the
    previous child, which is still among the children of [t]; it leaves
    them when the current child absorbs its text. *)
Fixpoint merge_mi_loop (last_c : option node) (cs : list node)
  : result (list node) :=
  match cs with
  | [] => Ok (opt_list last_c)
  | c :: cs' =>
      match last_c with
      | Some l =>
          if name_is c "mi" && name_is l "mi" then
            match get_string l, get_string c with
            | Some a, Some b =>
                merge_mi_loop (Some (set_string c (a ++ b)%list)) cs'
            | _, _ => Raise TypeError
            end
          else rest <- merge_mi_loop (Some c) cs' ;; Ok (l :: rest)
      | None => merge_mi_loop (Some c) cs'
      end
  end.

Definition merge_mi (name : string) (st : tstate) : result tstate :=
  if negb (dict_in (PyStr name) POSITIONAL_TAGS)
  then cs <- merge_mi_loop None (kids st) ;; Ok (set_kids st cs)
  else Ok st.

(** [_check_single_name] *)
Definition check_single_name (tag : node) (name : string) : bool :=
  match tag with
  | Tag n cs => String.eqb n name && (List.length cs =? 1)
  | NavigableString _ => false
  end.

(** One round of the loop of [remove_single_table]: what replaces the
    child [c] among the children of [t]. *)
Definition unwrap_single_table (c : node) : list node :=
  if check_single_name c "mtable" then
    match c with
    | Tag _ (gc :: _) =>
        if check_single_name gc "mtr" then
          match gc with
          | Tag _ (Tag n ggcs :: _) =>
              if String.eqb n "mtd" then ggcs else [c]
          | _ => [c]
          end
        else [c]
    | _ => [c]
    end
  else [c].

Definition remove_single_table (st : tstate) : tstate :=
  set_kids st (flat_map unwrap_single_table (kids st)).

Definition remove_empty_tag (name : string) (st : tstate) : tstate :=
  if (List.length (kids st) =? 0) && negb (list_in name EMPTY_TAGS) then
    match parent st with
    | Some p =>
        if negb (dict_in (PyTag p) POSITIONAL_TAGS) then extract st else st
    | None => st
    end
  else st.

Definition remove_empty_row (name : string) (st : tstate) : tstate :=
  if String.eqb name "mtr" && forallb is_empty_mtd (kids st)
  then extract st
  else st.

(** [max(...)] *)
Definition py_max (l : list nat) : result nat :=
  match l with
  | [] => Raise (ValueError MaxOfEmpty)
  | x :: l' => Ok (fold_left Nat.max l' x)
  end.

(** [l[j] = v] *)
Fixpoint list_set {A : Type} (l : list A) (j : nat) (v : A) : list A :=
  match l, j with
  | [], _ => []
  | _ :: l', O => v :: l'
  | a :: l', S j' => a :: list_set l' j' v
  end.

(** [del l[i]] *)
Fixpoint list_del {A : Type} (l : list A) (i : nat) : list A :=
  match l, i with
  | [], _ => []
  | _ :: l', O => l'
  | a :: l', S i' => a :: list_del l' i'
  end.

(** First pair of loops of [remove_empty_columns]: the inner loop over
    [enumerate(row.children)], from column [j] on. *)
Fixpoint mark_cells (is_empty : list bool) (j : nat) (cells : list node)
  : result (list bool) :=
  match cells with
  | [] => Ok is_empty
  | cell :: cells' =>
      match nth_error is_empty j with
      | Some b =>
          mark_cells (list_set is_empty j (b && is_empty_mtd cell)) (S j) cells'
      | None => Raise IndexError
      end
  end.

Fixpoint mark_rows (is_empty : list bool) (rows : list node)
  : result (list bool) :=
  match rows with
  | [] => Ok is_empty
  | row :: rows' =>
      cells <- children_of row ;;
      e <- mark_cells is_empty 0 cells ;;
      mark_rows e rows'
  end.

(** Second pair of loops: the inner loop iterates over the live child
    sequence of the row while cells are extracted from it.  [i] is the
    position of the iterator in [contents], [j] the counter of
    [enumerate]; the loop ends when the iterator is past the end. *)
Fixpoint extract_cells (fuel : nat) (is_empty : list bool) (i j : nat)
  (contents : list node) : result (list node) :=
  match fuel with
  | O => Ok contents
  | S fuel' =>
      match nth_error contents i with
      | None => Ok contents
      | Some cell =>
          match nth_error is_empty j with
          | Some b =>
              extract_cells fuel' is_empty (S i) (S j)
                (if b then list_del contents i else contents)
          | None => Raise IndexError
          end
      end
  end.

Definition with_children (t : node) (cs : list node) : node :=
  match t with
  | Tag n _ => Tag n cs
  | NavigableString s => NavigableString s
  end.

Definition extract_row (is_empty : list bool) (row : node) : result node :=
  cells <- children_of row ;;
  cells' <- extract_cells (S (List.length cells)) is_empty 0 0 cells ;;
  Ok (with_children row cells').

Definition row_width (c : node) : result nat :=
  cs <- children_of c ;; Ok (List.length cs).

Definition prune_columns (rows : list node) : result (list node) :=
  widths <- mapM row_width rows ;;
  n_columns <- py_max widths ;;
  is_empty <- mark_rows (repeat true n_columns) rows ;;
  mapM (extract_row is_empty) rows.

Definition remove_empty_columns (name : string) (st : tstate) : result tstate :=
  if String.eqb name "mtable"
  then rows <- prune_columns (kids st) ;; Ok (set_kids st rows)
  else Ok st.

Definition invalid_children (name : string) : string :=
  name ++ " has an invalid number of children".

Definition validate (name : string) (st : tstate) : result tstate :=
  match dict_get POSITIONAL_TAGS name with
  | Some n_children =>
      if negb (n_children =? List.length (kids st))
      then Raise (RuntimeError (invalid_children name))
      else Ok st
  | None => Ok st
  end.

(** The rules [dfs] applies to an element after the first [if], up to
    the call of [validate]. *)
Definition restructure (name : string) (st : tstate) : result tstate :=
  st <- merge_mi name st ;;
  st <- (if String.eqb name "mrow" && (List.length (kids st) =? 1)
         then replace_with_children st
         else Ok st) ;;
  let st := remove_empty_tag name st in
  let st := remove_empty_row name st in
  st <- remove_empty_columns name st ;;
  Ok (remove_single_table st).

Definition rules (name : string) (st : tstate) : result tstate :=
  st <- restructure name st ;; validate name st.

(** ** The traversal *)

Section Children.

(** The recursive call on one child: the child when the call returns,
    and what stands at its position among its parent's children. *)
Variable visit : node -> result (node * list node).

(** [for c in list(t.children): self.dfs(c)]: the children of [t] when
    the loop is over. *)
Fixpoint dfs_children (cs : list node) : result (list node) :=
  match cs with
  | [] => Ok []
  | c :: cs' =>
      r <- visit c ;;
      rs <- dfs_children cs' ;;
      Ok (snd r ++ rs)%list
  end.

(** The first [if] of [dfs] on an element. *)
Definition enter (p : option string) (name : string) (children : list node)
  : result tstate :=
  let st := mkState p [] children in
  if String.eqb name "annotation" then Ok (extract st)
  else if String.eqb name "semantics" && (List.length children =? 1)
  then replace_with_children st
  else cs <- dfs_children children ;; Ok (set_kids st cs).

End Children.

(** [dfs p t], for [t] whose parent is [p]: the object [t] when the call
    returns, and what stands at its position in the parent. *)
Fixpoint dfs (p : option string) (t : node) : result (node * list node) :=
  match t with
  | NavigableString s =>
      (* the branch assigns [dfs_string] of what [t.string] reads to the
         attribute [string] of the leaf object; the text of the leaf is
         not changed *)
      Ok (t, [t])
  | Tag name children =>
      st <- enter (dfs (Some name)) p name children ;;
      st <- rules name st ;;
      Ok (Tag name (kids st), in_parent name st)
  end.

(** [Normalizer.normalize]: the argument is the root, it has no parent. *)
Definition normalize (soup : node) : result node :=
  r <- dfs None soup ;; Ok (fst r).

(** The root object the parser builds. *)
Definition document (children : list node) : node :=
  Tag "[document]" children.

(** ** Observations on trees *)

Fixpoint text_of (s : string) : text :=
  match s with
  | EmptyString => []
  | String a s' => Z.of_nat (nat_of_ascii a) :: text_of s'
  end.

(** Builders for the trees of the examples. *)
Definition str (s : string) : node := NavigableString (text_of s).
Definition mi (s : string) : node := Tag "mi" [str s].
Definition mrow (cs : list node) : node := Tag "mrow" cs.
Definition msub (cs : list node) : node := Tag "msub" cs.
Definition mtd (cs : list node) : node := Tag "mtd" cs.
Definition mtr (cs : list node) : node := Tag "mtr" cs.
Definition mtable (cs : list node) : node := Tag "mtable" cs.
Definition semantics (cs : list node) : node := Tag "semantics" cs.
Definition annotation (cs : list node) : node := Tag "annotation" cs.

(** Some element of the tree has the tag [n]. *)
Fixpoint has_tag (n : string) (t : node) : bool :=
  match t with
  | NavigableString _ => false
  | Tag m cs => String.eqb m n || existsb (has_tag n) cs
  end.

(** The texts of the leaves, from left to right. *)
Fixpoint leaf_texts (t : node) : list text :=
  match t with
  | NavigableString s => [s]
  | Tag _ cs => flat_map leaf_texts cs
  end.

(** Every element whose tag has a required number of children has that
    many. *)
Fixpoint arity_ok (t : node) : bool :=
  match t with
  | NavigableString _ => true
  | Tag n cs =>
      match dict_get POSITIONAL_TAGS n with
      | Some k => List.length cs =? k
      | None => true
      end && forallb arity_ok cs
  end.

(** [calls p0 root p t]: the call [dfs p0 root] comes to call [dfs p t] on
    the subtree [t], provided the calls on the nodes before [t] return.
    The children of an [annotation], and the child of a [semantics] element
    that has exactly one, are not called upon. *)
Inductive calls : option string -> node -> option string -> node -> Prop :=
| calls_here (p : option string) (t : node) : calls p t p t
| calls_child (p : option string) (name : string)
    (pre : list node) (c : node) (post done : list node)
    (q : option string) (t : node) :
    String.eqb name "annotation" = false ->
    String.eqb name "semantics"
      && (List.length (pre ++ c :: post)%list =? 1) = false ->
    dfs_children (dfs (Some name)) pre = Ok done ->
    calls (Some name) c q t ->
    calls p (Tag name (pre ++ c :: post)%list) q t.

(** ** Character substitution, as a specification

    [substituted s r]: [r] is [s] with each minus-sign look-alike replaced
    by a hyphen-minus and each thin space by a space, reading [s] once from
    left to right. *)
Inductive substituted : text -> text -> Prop :=
| substituted_nil : substituted [] []
| substituted_minus (s r : text) :
    substituted s r ->
    substituted (MINUS_LOOKALIKE ++ s)%list (HYPHEN_MINUS ++ r)%list
| substituted_thin (s r : text) :
    substituted s r ->
    substituted (THIN_SPACE ++ s)%list (SPACE ++ r)%list
| substituted_other (c : codepoint) (s r : text) :
    c <> 8201%Z ->
    Py.startswith (c :: s) MINUS_LOOKALIKE = false ->
    substituted s r ->
    substituted (c :: s) (c :: r).

(** The function-application marker, when it is the whole text, gives way
    to the empty string. *)
Definition erase_function_application (s : text) : text :=
  if Py.text_eqb s FUNCTION_APPLICATION then [] else s.

(** [replace(THIN_SPACE, SPACE)] on one code point. *)
Definition thin_to_space (c : codepoint) : codepoint :=
  if (c =? 8201)%Z then 32%Z else c.

(** A text that does not end with white space. *)
Definition rtrimmed (s : text) : Prop := Py.isspace (last s 45%Z) = false.

(** ** The traversal, with the order of the visits

    The same traversal, recording each node when [dfs] gets to it: a text
    leaf when the leaf branch runs on it, an element when the first [if] is
    over and its own rules start.  A node is recorded as the subtree it was
    when [dfs] was called on it. *)
Definition traced (A : Type) : Type := (list node * result A)%type.

Definition ret {A : Type} (a : A) : traced A := ([], Ok a).

Definition lift {A : Type} (r : result A) : traced A := ([], r).

Definition record (t : node) : traced unit := ([t], Ok tt).

Definition bind_traced {A B : Type} (m : traced A) (k : A -> traced B)
  : traced B :=
  match m with
  | (l, Ok a) => let (l', r) := k a in ((l ++ l')%list, r)
  | (l, Raise e) => (l, Raise e)
  end.

Section ChildrenTraced.

Variable visit : node -> traced (node * list node).

Fixpoint dfs_children_traced (cs : list node) : traced (list node) :=
  match cs with
  | [] => ret []
  | c :: cs' =>
      bind_traced (visit c) (fun r =>
      bind_traced (dfs_children_traced cs') (fun rs =>
      ret (snd r ++ rs)%list))
  end.

Definition enter_traced (p : option string) (name : string)
  (children : list node) : traced tstate :=
  let st := mkState p [] children in
  if String.eqb name "annotation" then ret (extract st)
  else if String.eqb name "semantics" && (List.length children =? 1)
  then lift (replace_with_children st)
  else bind_traced (dfs_children_traced children) (fun cs =>
       ret (set_kids st cs)).

End ChildrenTraced.

Fixpoint dfs_traced (p : option string) (t : node)
  : traced (node * list node) :=
  match t with
  | NavigableString s =>
      bind_traced (record t) (fun _ => ret (t, [t]))
  | Tag name children =>
      bind_traced (enter_traced (dfs_traced (Some name)) p name children)
        (fun st =>
      bind_traced (record t) (fun _ =>
      bind_traced (lift (rules name st)) (fun st =>
      ret (Tag name (kids st), in_parent name st))))
  end.

(** The nodes [normalize] gets to, in order. *)
Definition visits (soup : node) : list node := fst (dfs_traced None soup).

(** The nodes of a tree, children before their parent and from left to
    right, without what lies below an [annotation]. *)
Fixpoint post_order (t : node) : list node :=
  match t with
  | NavigableString _ => [t]
  | Tag name children =>
      if String.eqb name "annotation" then [t]
      else (flat_map post_order children ++ [t])%list
  end.

(** No [semantics] element that [dfs] would get to has exactly one child. *)
Fixpoint no_single_child_semantics (t : node) : bool :=
  match t with
  | NavigableString _ => true
  | Tag name children =>
      String.eqb name "annotation"
      || (negb (String.eqb name "semantics" && (List.length children =? 1))
          && forallb no_single_child_semantics children)
  end.

(** ** Induction on trees *)

Section NodeInd.

Variable P : node -> Prop.
Hypothesis P_leaf : forall s, P (NavigableString s).
Hypothesis P_tag : forall name children, Forall P children -> P (Tag name children).

Fixpoint node_ind (t : node) : P t :=
  match t with
  | NavigableString s => P_leaf s
  | Tag name children =>
      P_tag name children
        ((fix all (cs : list node) : Forall P cs :=
            match cs with
            | [] => Forall_nil P
            | c :: cs' => Forall_cons c (node_ind c) (all cs')
            end) children)
  end.

End NodeInd.

(** ** Trees on which no rule applies *)

(** No two neighbours are both [mi] elements. *)
Fixpoint no_mi_pair (cs : list node) : bool :=
  match cs with
  | [] => true
  | a :: cs' =>
      match cs' with
      | [] => true
      | b :: _ => negb (name_is a "mi" && name_is b "mi")
      end && no_mi_pair cs'
  end.

Definition required_arity_met (name : string) (cs : list node) : bool :=
  match dict_get POSITIONAL_TAGS name with
  | Some k => k =? List.length cs
  | None => true
  end.

(** An element that is detached by [remove_empty_tag] or by
    [remove_empty_row] when it has a parent. *)
Definition goes (name : string) (cs : list node) : bool :=
  ((List.length cs =? 0) && negb (list_in name EMPTY_TAGS))
  || (String.eqb name "mtr" && forallb is_empty_mtd cs).

(** [settled t]: [t] has no [semantics] and no [mtable] element and, below
    some parent, no rule of [dfs] has anything to do on [t] or below it. *)
Fixpoint settled (t : node) : bool :=
  match t with
  | NavigableString _ => true
  | Tag name cs =>
      negb (String.eqb name "annotation")
      && negb (String.eqb name "semantics")
      && negb (String.eqb name "mtable")
      && negb (String.eqb name "mrow" && (List.length cs =? 1))
      && negb (goes name cs)
      && required_arity_met name cs
      && (dict_in (PyStr name) POSITIONAL_TAGS || no_mi_pair cs)
      && forallb settled cs
  end.

(** A tree that has no [semantics] and no [mtable] element. *)
Fixpoint regular (t : node) : bool :=
  match t with
  | NavigableString _ => true
  | Tag name cs =>
      negb (String.eqb name "semantics")
      && negb (String.eqb name "mtable")
      && forallb regular cs
  end.

(** The children after [merge_mi]. *)
Definition merged (name : string) (cs : list node) : result (list node) :=
  if dict_in (PyStr name) POSITIONAL_TAGS then Ok cs
  else merge_mi_loop None cs.

(** A text that does not start with white space. *)
Definition ltrimmed (s : text) : Prop := Py.isspace (hd 45%Z s) = false.

(** An element that [remove_single_table] passes over. *)
Definition not_mtable (c : node) : bool := negb (name_is c "mtable").

(** The [j]-th cell of a row is an empty table cell, a row that has no
    [j]-th cell counting as if it had an empty one. *)
Definition cell_is_empty (j : nat) (row : node) : bool :=
  match row with
  | Tag _ cs =>
      match nth_error cs j with
      | Some cell => is_empty_mtd cell
      | None => true
      end
  | NavigableString _ => true
  end.

Definition is_tag (t : node) : bool :=
  match t with
  | Tag _ _ => true
  | NavigableString _ => false
  end.

Definition width (t : node) : nat :=
  match t with
  | Tag _ cs => List.length cs
  | NavigableString _ => 0
  end.

(** ** Further observations *)

(** [sub] occurs in [s]. *)
Definition occurs (sub s : text) : Prop :=
  exists pre post, s = (pre ++ sub ++ post)%list.

(** An [mi] element that holds one text leaf. *)
Definition mi_text (s : text) : node := Tag "mi" [NavigableString s].

Definition is_mi (c : node) : bool := name_is c "mi".

(** [l] is [l'] with some elements left out, the others in their order. *)
Inductive subseq {A : Type} : list A -> list A -> Prop :=
| subseq_nil : subseq [] []
| subseq_skip (a : A) (l l' : list A) : subseq l l' -> subseq l (a :: l')
| subseq_keep (a : A) (l l' : list A) : subseq l l' -> subseq (a :: l) (a :: l').

(** The cells of a row. *)
Definition cells (row : node) : list node :=
  match row with
  | Tag _ cs => cs
  | NavigableString _ => []
  end.

(** A row without its [j]-th cell. *)
Definition without_cell (j : nat) (row : node) : node :=
  with_children row (list_del (cells row) j).


(** ** The namespace declaration *)

(** The four literals of [add_namespace]; code point 34 is the double
    quote. *)
Definition MML_MATH_OPEN : text := text_of "<mml:math>".

Definition MML_MATH_DECLARED : text :=
  (text_of "<mml:math xmlns:mml=" ++ [34%Z]
   ++ text_of "http://www.w3.org/1998/Math/MathML" ++ [34%Z]
   ++ text_of ">")%list.

Definition MATH_OPEN : text := text_of "<math".

Definition MATH_DECLARED : text :=
  (text_of "<math xmlns:mml=" ++ [34%Z]
   ++ text_of "http://www.w3.org/1998/Math/MathML" ++ [34%Z])%list.

Definition add_namespace (xml : text) : text :=
  let xml := Py.replace MML_MATH_OPEN MML_MATH_DECLARED xml in
  let xml := Py.replace MATH_OPEN MATH_DECLARED xml in
  xml.

(** [sub in s] *)
Fixpoint str_contains (sub s : text) : bool :=
  Py.startswith s sub
  || match s with
     | [] => false
     | _ :: s' => str_contains sub s'
     end.

(** What the second literal of each call adds to the first. *)
Definition DECLARATION : text :=
  (text_of " xmlns:mml=" ++ [34%Z]
   ++ text_of "http://www.w3.org/1998/Math/MathML" ++ [34%Z])%list.

(** ** Text *)

(** The text of a sequence of trees: the texts of the leaves, joined from
    left to right. *)
Definition text_content (l : list node) : text :=
  List.concat (flat_map leaf_texts l).

(** A tree without table and without annotation. *)
Definition plain (t : node) : bool :=
  negb (has_tag "mtable" t) && negb (has_tag "annotation" t).

(** ** Trees that a pass leaves as they are *)

(** The number of nodes of a tree, of a sequence of trees. *)
Fixpoint size (t : node) : nat :=
  match t with
  | NavigableString _ => 1
  | Tag _ cs => S (list_sum (map size cs))
  end.

Definition sizes (l : list node) : nat := list_sum (map size l).

(** A table of one row that has one cell: [remove_single_table], run on its
    parent, puts the children of the cell in its place. *)
Definition single_table (c : node) : bool :=
  match c with
  | Tag n [Tag m [Tag k _]] =>
      String.eqb n "mtable" && String.eqb m "mtr" && String.eqb k "mtd"
  | _ => false
  end.

(** [remove_empty_columns] finds nothing to detach: there is a row, every
    row is an element, and every column up to the largest row width has a
    cell that is not an empty [mtd]. *)
Definition columns_kept (rows : list node) : bool :=
  negb (List.length rows =? 0)
  && forallb is_tag rows
  && forallb (fun j => negb (forallb (cell_is_empty j) rows))
       (seq 0 (list_max (map width rows))).

(** On an element [name] with the children [cs], the rules that rewrite
    the children or replace the element by them have nothing to do, and
    [validate] passes: no two neighbouring [mi] unless the tag is
    positional, no [mrow] of one child, no empty column in a table, no
    child that is a table of one cell, the required arity. *)
Definition rules_idle (name : string) (cs : list node) : bool :=
  (dict_in (PyStr name) POSITIONAL_TAGS || no_mi_pair cs)
  && negb (String.eqb name "mrow" && (List.length cs =? 1))
  && (negb (String.eqb name "mtable") || columns_kept cs)
  && negb (existsb single_table cs)
  && required_arity_met name cs.

(** [steady t]: below a parent, [dfs] has nothing to do on [t] nor below
    it. *)
Fixpoint steady (t : node) : bool :=
  match t with
  | NavigableString _ => true
  | Tag name cs =>
      negb (String.eqb name "annotation")
      && negb (String.eqb name "semantics" && (List.length cs =? 1))
      && negb (goes name cs)
      && rules_idle name cs
      && forallb steady cs
  end.

(** [steady_root t]: the same for the root, which has no parent to be
    detached from, and whose children are not visited when it is an
    [annotation]. *)
Definition steady_root (t : node) : bool :=
  match t with
  | NavigableString _ => true
  | Tag name cs =>
      negb (String.eqb name "semantics" && (List.length cs =? 1))
      && rules_idle name cs
      && (String.eqb name "annotation" || forallb steady cs)
  end.

(** * Properties *)

(** ** Arity validation *)

(** A [semantics] element that has one child gives way to that child,
    which [dfs] leaves as it finds it. *)
Lemma single_child_semantics_spliced (p : string) (c : node) :
  dfs (Some p) (semantics [c]) = Ok (semantics [], [c]).
Proof. reflexivity. Qed.

(** C2 (the code departs from the claim): a [semantics] element with one
    child is replaced by that child without the child being visited, so an
    [msub] with a single child below it is never validated and the call
    succeeds with a tree that breaks the arity contract. *)
Theorem arity_unchecked_below_single_child_semantics :
  normalize (document [semantics [msub [mi "x"]]])
  = Ok (document [msub [mi "x"]])
  /\ arity_ok (document [msub [mi "x"]]) = false.
Proof. split; reflexivity. Qed.

(** ** Annotations *)

(** C4 (the code departs from the claim): an [annotation] below a
    [semantics] element with one child is never visited and stays in the
    returned tree. *)
Theorem annotation_kept_below_single_child_semantics :
  normalize
    (document [semantics [mrow [semantics [mi "x"; annotation [str "x"]]]]])
  = Ok (document [mrow [semantics [mi "x"; annotation [str "x"]]]])
  /\ has_tag "annotation"
       (document [mrow [semantics [mi "x"; annotation [str "x"]]]]) = true.
Proof. split; reflexivity. Qed.

(** ** Empty elements *)

(** The test [t.parent not in POSITIONAL_TAGS] looks an element up among
    string keys: it holds for every parent. *)
Lemma parent_never_in_POSITIONAL_TAGS (p : string) :
  dict_in (PyTag p) POSITIONAL_TAGS = false.
Proof. reflexivity. Qed.

Lemma remove_empty_tag_any_parent (name p : string) (sl : list node) :
  list_in name EMPTY_TAGS = false ->
  remove_empty_tag name (mkState (Some p) sl []) = mkState None [] [].
Proof.
  intros H. unfold remove_empty_tag.
  cbn [kids parent List.length Nat.eqb andb]. rewrite H. reflexivity.
Qed.

(** C7 (the code departs from the claim): an empty [mrow] whose parent is
    the positional [msub] is detached all the same (nothing stands at its
    position afterwards), and the parent then fails validation. *)
Theorem empty_child_of_positional_parent_detached :
  dfs (Some "msub") (mrow []) = Ok (mrow [], [])
  /\ normalize (document [msub [mi "x"; mrow []]])
     = Raise (RuntimeError "msub has an invalid number of children").
Proof. split; reflexivity. Qed.

(** ** Tables *)

(** C8 (the code departs from the claim): the columns 0 and 1 of the table
    are flagged empty and the column 2 is not, as the claim has it; but the
    cells are extracted while the row is being iterated over, so the cell
    after an extracted one is passed over and the counter no longer matches
    the column.  The cells 0 and 2 of each row are detached and the empty
    cell 1 is kept. *)
Theorem empty_columns_wrong_cells_detached :
  mark_rows (repeat true 3)
    [mtr [mtd []; mtd []; mtd [mi "x"]]; mtr [mtd []; mtd []; mtd [mi "y"]]]
  = Ok [true; true; false]
  /\ extract_row [true; true; false] (mtr [mtd []; mtd []; mtd [mi "x"]])
     = Ok (mtr [mtd []])
  /\ normalize
       (document [mtable [mtr [mtd []; mtd []; mtd [mi "x"]];
                          mtr [mtd []; mtd []; mtd [mi "y"]]]])
     = Ok (document [mtable [mtr [mtd []]; mtr [mtd []]]]).
Proof. split; [reflexivity|]. split; reflexivity. Qed.

(** *** The loops of [remove_empty_columns] *)

Section Columns.

Local Open Scope list_scope.

Lemma list_del_length {A : Type} (l : list A) (i : nat) :
  List.length (list_del l i) <= List.length l.
Proof.
  revert i. induction l as [|a l IH]; intros i; [destruct i; cbn; lia|].
  destruct i as [|i]; cbn [list_del List.length]; [lia|].
  specialize (IH i). lia.
Qed.

(** The iteration over the live child sequence ends before the fuel does:
    any larger fuel gives the same row. *)
Lemma extract_cells_fuel (fuel fuel' : nat) (is_empty : list bool)
  (i j : nat) (contents : list node) :
  List.length contents < fuel + i ->
  List.length contents < fuel' + i ->
  extract_cells fuel is_empty i j contents
  = extract_cells fuel' is_empty i j contents.
Proof.
  revert fuel' i j contents.
  induction fuel as [|fuel IH]; intros fuel' i j contents H H'.
  - assert (E : nth_error contents i = None) by (apply nth_error_None; lia).
    destruct fuel'; cbn [extract_cells]; [|rewrite E]; reflexivity.
  - destruct fuel' as [|fuel'].
    + assert (E : nth_error contents i = None) by (apply nth_error_None; lia).
      cbn [extract_cells]. rewrite E. reflexivity.
    + cbn [extract_cells]. destruct (nth_error contents i); [|reflexivity].
      destruct (nth_error is_empty j) as [b|]; [|reflexivity].
      apply IH; destruct b;
        try (pose proof (list_del_length contents i)); lia.
Qed.

Lemma list_set_length {A : Type} (l : list A) (j : nat) (v : A) :
  List.length (list_set l j v) = List.length l.
Proof.
  revert j. induction l as [|a l IH]; intros j; [reflexivity|].
  destruct j; cbn [list_set List.length]; [|rewrite IH]; reflexivity.
Qed.

Lemma nth_list_set {A : Type} (l : list A) (j k : nat) (v d : A) :
  j < List.length l ->
  nth k (list_set l j v) d = if k =? j then v else nth k l d.
Proof.
  revert j k. induction l as [|a l IH]; intros j k H; [cbn in H; lia|].
  destruct j as [|j], k as [|k]; cbn [list_set nth Nat.eqb]; try reflexivity.
  apply IH. cbn in H. lia.
Qed.

(** The inner loop of the first pair: the flags of the columns of the row
    are and-ed with the emptiness of its cells, the others are kept. *)
Lemma mark_cells_spec (cells : list node) (is_empty : list bool) (j : nat) :
  j + List.length cells <= List.length is_empty ->
  exists e,
    mark_cells is_empty j cells = Ok e
    /\ List.length e = List.length is_empty
    /\ forall k,
         nth k e false
         = nth k is_empty false
           && match (if k <? j then None else nth_error cells (k - j)) with
              | Some cell => is_empty_mtd cell
              | None => true
              end.
Proof.
  revert is_empty j. induction cells as [|cell cells IH]; intros is_empty j H.
  - exists is_empty. split; [reflexivity|]. split; [reflexivity|].
    intros k. destruct (k <? j); [|destruct (k - j)]; cbn;
      rewrite andb_true_r; reflexivity.
  - cbn [List.length] in H. cbn [mark_cells].
    destruct (nth_error is_empty j) as [b|] eqn:Eb;
      [|apply nth_error_None in Eb; lia].
    destruct (IH (list_set is_empty j (b && is_empty_mtd cell)) (S j))
      as (e & He & Hlen & Hnth); [rewrite list_set_length; lia|].
    exists e. split; [exact He|]. rewrite list_set_length in Hlen.
    split; [exact Hlen|]. intros k. rewrite Hnth, nth_list_set by lia.
    apply nth_error_nth with (d := false) in Eb.
    destruct (Nat.eqb_spec k j) as [->|Hkj].
    + rewrite Eb. replace (j <? S j) with true by (symmetry; apply Nat.ltb_lt; lia).
      rewrite Nat.ltb_irrefl, Nat.sub_diag. cbn. rewrite andb_true_r.
      reflexivity.
    + destruct (Nat.ltb_spec k j) as [Hlt|Hge].
      * replace (k <? S j) with true by (symmetry; apply Nat.ltb_lt; lia).
        reflexivity.
      * replace (k <? S j) with false by (symmetry; apply Nat.ltb_ge; lia).
        replace (k - j) with (S (k - S j)) by lia. reflexivity.
Qed.

(** The first pair of loops: a column is flagged empty exactly when the
    cell of every row in this column is an empty table cell, a row that is
    too short counting as if it had one. *)
Lemma mark_rows_spec (rows : list node) (is_empty : list bool) :
  forallb is_tag rows = true ->
  Forall (fun row => width row <= List.length is_empty) rows ->
  exists e,
    mark_rows is_empty rows = Ok e
    /\ List.length e = List.length is_empty
    /\ forall k,
         nth k e false
         = nth k is_empty false && forallb (cell_is_empty k) rows.
Proof.
  revert is_empty. induction rows as [|row rows IH]; intros is_empty Ht Hw.
  - exists is_empty. split; [reflexivity|]. split; [reflexivity|].
    intros k. cbn. rewrite andb_true_r. reflexivity.
  - cbn [forallb] in Ht. apply andb_true_iff in Ht as [Hrow Ht].
    inversion Hw as [|? ? Hwr Hws]; subst.
    destruct row as [s | n cells]; [discriminate|]. cbn [width] in Hwr.
    destruct (mark_cells_spec cells is_empty 0) as (e1 & He1 & Hl1 & Hn1);
      [cbn; lia|].
    destruct (IH e1 Ht) as (e & He & Hl & Hn);
      [rewrite Hl1; exact Hws|].
    exists e. cbn [mark_rows children_of bind]. rewrite He1. cbn [bind].
    split; [exact He|]. split; [congruence|].
    intros k. rewrite Hn, Hn1. cbn [forallb cell_is_empty].
    replace (k <? 0) with false by (symmetry; apply Nat.ltb_ge; lia).
    rewrite Nat.sub_0_r, andb_assoc. reflexivity.
Qed.

End Columns.

(** ** Exceptions end the traversal *)

Lemma dfs_children_raise (visit : node -> result (node * list node))
  (pre : list node) (c : node) (post done : list node) (e : exn) :
  dfs_children visit pre = Ok done ->
  visit c = Raise e ->
  dfs_children visit (pre ++ c :: post)%list = Raise e.
Proof.
  revert done. induction pre as [|a pre IH]; intros done Hpre Hc; simpl.
  - rewrite Hc. reflexivity.
  - simpl in Hpre. destruct (visit a) as [r|e']; simpl in *; [|discriminate].
    destruct (dfs_children visit pre) as [rs|e']; simpl in *; [|discriminate].
    rewrite (IH rs eq_refl Hc). reflexivity.
Qed.

(** An exception raised by a call of [dfs] goes through every enclosing
    call: no tree is returned. *)
Lemma raise_propagates (p0 : option string) (root : node)
  (p : option string) (t : node) (e : exn) :
  calls p0 root p t -> dfs p t = Raise e -> dfs p0 root = Raise e.
Proof.
  induction 1 as [|p name pre c post done q t Hann Hsem Hpre Hc IH]; intros Ht.
  - exact Ht.
  - specialize (IH Ht). cbn [dfs]. unfold enter. rewrite Hann, Hsem.
    rewrite (dfs_children_raise _ pre c post done e Hpre IH). reflexivity.
Qed.




(** C10: when the traversal reaches an [mtable] that has no child left
    once its children are normalized, [normalize] raises the [ValueError] of
    [max] on an empty sequence: neither is the table pruned, nor is the
    error the [RuntimeError] of [validate]. *)
Theorem mtable_without_rows_raises (root : node) (p : option string)
  (rows : list node) :
  calls None root p (mtable rows) ->
  dfs_children (dfs (Some "mtable")) rows = Ok [] ->
  normalize root = Raise (ValueError MaxOfEmpty).
Proof.
  intros Hcalls Hrows. unfold normalize.
  rewrite (raise_propagates None root p (mtable rows)
             (ValueError MaxOfEmpty) Hcalls); [reflexivity|].
  unfold mtable. cbn [dfs]. unfold enter. cbn [String.eqb Ascii.eqb Bool.eqb andb].
  rewrite Hrows. destruct p; reflexivity.
Qed.

(** A table all of whose rows are empty and were detached, and a table
    written without rows. *)
Lemma mtable_without_rows_raises_witness :
  normalize (document [mrow [mi "a"; mtable [mtr [mtd []; mtd []]]]])
  = Raise (ValueError MaxOfEmpty)
  /\ normalize (document [mtable []]) = Raise (ValueError MaxOfEmpty).
Proof.
  split.
  - apply (mtable_without_rows_raises _ (Some "mrow") [mtr [mtd []; mtd []]]).
    + apply (calls_child None "[document]" []
               (mrow [mi "a"; mtable [mtr [mtd []; mtd []]]]) [] []);
        [reflexivity | reflexivity | reflexivity |].
      apply (calls_child (Some "[document]") "mrow" [mi "a"]
               (mtable [mtr [mtd []; mtd []]]) [] [mi "a"]);
        [reflexivity | reflexivity | reflexivity | apply calls_here].
    + reflexivity.
  - apply (mtable_without_rows_raises _ (Some "[document]") []).
    + apply (calls_child None "[document]" [] (mtable []) [] []);
        [reflexivity | reflexivity | reflexivity | apply calls_here].
    + reflexivity.
Defined.


(** ** Text leaves *)

Section Strings.

Local Open Scope Z_scope.
Local Open Scope list_scope.

Lemma replace_thin_space (s : text) :
  Py.replace THIN_SPACE SPACE s = map thin_to_space s.
Proof.
  unfold Py.replace. induction s as [|c s IH]; [reflexivity|].
  cbn [Py.replace_from Py.startswith THIN_SPACE SPACE List.length Nat.pred map].
  unfold thin_to_space at 1. rewrite andb_true_r.
  destruct (c =? 8201); cbn [app]; rewrite IH; reflexivity.
Qed.

Lemma isspace_thin_to_space (c : codepoint) :
  Py.isspace (thin_to_space c) = Py.isspace c.
Proof.
  unfold thin_to_space. destruct (Z.eqb_spec c 8201) as [->|]; reflexivity.
Qed.

Lemma lstrip_map_thin (s : text) :
  Py.lstrip (map thin_to_space s) = map thin_to_space (Py.lstrip s).
Proof.
  induction s as [|c s IH]; [reflexivity|].
  cbn [map Py.lstrip]. rewrite isspace_thin_to_space.
  destruct (Py.isspace c); [exact IH | reflexivity].
Qed.

Lemma strip_map_thin (s : text) :
  Py.strip (map thin_to_space s) = map thin_to_space (Py.strip s).
Proof.
  unfold Py.strip, Py.rstrip.
  rewrite lstrip_map_thin, <- map_rev, lstrip_map_thin, map_rev. reflexivity.
Qed.

(** *** Leading and trailing white space *)

Lemma lstrip_split (s : text) :
  exists w, s = (w ++ Py.lstrip s)%list /\ forallb Py.isspace w = true.
Proof.
  induction s as [|c s [w [E W]]].
  - exists []. split; reflexivity.
  - cbn [Py.lstrip]. destruct (Py.isspace c) eqn:Hc.
    + exists (c :: w). split; [cbn; congruence | cbn; rewrite Hc; exact W].
    + exists []. split; reflexivity.
Qed.

Lemma lstrip_spaces_app (w s : text) :
  forallb Py.isspace w = true -> Py.lstrip (w ++ s) = Py.lstrip s.
Proof.
  induction w as [|c w IH]; [reflexivity|].
  cbn. intros H. apply andb_true_iff in H as [Hc W]. rewrite Hc. auto.
Qed.

Lemma forallb_rev {A : Type} (f : A -> bool) (l : list A) :
  forallb f (rev l) = forallb f l.
Proof.
  induction l as [|a l IH]; [reflexivity|].
  cbn. rewrite forallb_app, IH. cbn. rewrite andb_true_r. apply andb_comm.
Qed.

Lemma rstrip_split (s : text) :
  exists w, s = (Py.rstrip s ++ w)%list /\ forallb Py.isspace w = true.
Proof.
  destruct (lstrip_split (rev s)) as [w [E W]].
  exists (rev w). split.
  - unfold Py.rstrip. rewrite <- rev_app_distr, <- E, rev_involutive. reflexivity.
  - rewrite forallb_rev. exact W.
Qed.

Lemma last_cons {A : Type} (a d : A) (l : list A) : last (a :: l) d = last l a.
Proof.
  revert a d. induction l as [|b l IH]; intros a d; [reflexivity|].
  change (last (a :: b :: l) d) with (last (b :: l) d).
  rewrite (IH b d), (IH b a). reflexivity.
Qed.

Lemma lstrip_head (s : text) : Py.isspace (hd 45 (Py.lstrip s)) = false.
Proof.
  induction s as [|c s IH]; [reflexivity|].
  cbn [Py.lstrip]. destruct (Py.isspace c) eqn:Hc; [exact IH | exact Hc].
Qed.

Lemma last_rev {A : Type} (l : list A) (d : A) : last (rev l) d = hd d l.
Proof.
  destruct l as [|a l]; [reflexivity|]. cbn [rev hd]. apply last_last.
Qed.

Lemma rstrip_rtrimmed (s : text) : rtrimmed (Py.rstrip s).
Proof. unfold rtrimmed, Py.rstrip. rewrite last_rev. apply lstrip_head. Qed.

Lemma rtrimmed_rstrip (s : text) : rtrimmed s -> Py.rstrip s = s.
Proof.
  unfold rtrimmed. intros H. destruct s as [|c s]; [reflexivity|].
  assert (E : c :: s = removelast (c :: s) ++ [last (c :: s) 45])
    by (apply app_removelast_last; discriminate).
  revert H E. generalize (last (c :: s) 45), (removelast (c :: s)).
  intros l y H E. rewrite E. unfold Py.rstrip.
  rewrite rev_app_distr. cbn [rev app Py.lstrip]. rewrite H.
  cbn [rev]. rewrite rev_involutive. reflexivity.
Qed.

Lemma rstrip_app_spaces (s w : text) :
  rtrimmed s -> forallb Py.isspace w = true -> Py.rstrip (s ++ w) = s.
Proof.
  intros Hs W. unfold Py.rstrip. rewrite rev_app_distr, lstrip_spaces_app.
  - apply (rtrimmed_rstrip s Hs).
  - rewrite forallb_rev. exact W.
Qed.

Lemma strip_split (s : text) :
  exists w1 w2,
    s = w1 ++ Py.strip s ++ w2
    /\ forallb Py.isspace w1 = true /\ forallb Py.isspace w2 = true.
Proof.
  destruct (lstrip_split s) as [w1 [E1 W1]].
  destruct (rstrip_split (Py.lstrip s)) as [w2 [E2 W2]].
  exists w1, w2. unfold Py.strip. rewrite <- E2. auto.
Qed.


(** *** Replacement of the minus-sign look-alike *)

Lemma startswith_app_spaces (P u w : text) :
  forallb (fun c => negb (Py.isspace c)) P = true ->
  forallb Py.isspace w = true ->
  Py.startswith (u ++ w) P = Py.startswith u P.
Proof.
  revert u. induction P as [|p P IH]; intros u HP W; [reflexivity|].
  cbn [forallb] in HP. apply andb_true_iff in HP as [Hp HP].
  destruct u as [|a u]; cbn [app Py.startswith].
  - destruct w as [|c w]; [reflexivity|].
    cbn [forallb] in W. apply andb_true_iff in W as [Hc _].
    destruct (Z.eqb_spec c p) as [->|]; [|reflexivity].
    rewrite Hc in Hp. discriminate.
  - rewrite IH; auto.
Qed.

Lemma startswith_length (P s : text) :
  Py.startswith s P = true -> (List.length P <= List.length s)%nat.
Proof.
  revert s. induction P as [|p P IH]; intros s H; cbn [List.length]; [lia|].
  destruct s as [|c s]; [discriminate|].
  cbn [Py.startswith] in H. apply andb_true_iff in H as [_ H].
  specialize (IH s H). cbn [List.length]. lia.
Qed.

Lemma startswith_MINUS_inv (s : text) :
  Py.startswith s MINUS_LOOKALIKE = true -> exists s', s = MINUS_LOOKALIKE ++ s'.
Proof.
  unfold MINUS_LOOKALIKE. destruct s as [|a [|b [|c s]]]; cbn [Py.startswith];
    rewrite ?andb_false_r; try discriminate.
  intros H. apply andb_true_iff in H as [Ha H].
  apply andb_true_iff in H as [Hb H]. apply andb_true_iff in H as [Hc _].
  apply Z.eqb_eq in Ha, Hb, Hc. subst. exists s. reflexivity.
Qed.

Lemma startswith_MINUS_space (c : codepoint) (s : text) :
  Py.isspace c = true -> Py.startswith (c :: s) MINUS_LOOKALIKE = false.
Proof.
  intros Hc. destruct (Py.startswith (c :: s) MINUS_LOOKALIKE) eqn:E; [|reflexivity].
  apply startswith_MINUS_inv in E as [s' E]. injection E as -> _. discriminate.
Qed.

Abbreviation replace_minus := (Py.replace_from MINUS_LOOKALIKE HYPHEN_MINUS).

Lemma replace_minus_match (s : text) :
  replace_minus 0 (MINUS_LOOKALIKE ++ s) = HYPHEN_MINUS ++ replace_minus 0 s.
Proof. reflexivity. Qed.

Lemma replace_minus_other (c : codepoint) (s : text) :
  Py.startswith (c :: s) MINUS_LOOKALIKE = false ->
  replace_minus 0 (c :: s) = c :: replace_minus 0 s.
Proof. intros H. cbn [Py.replace_from]. rewrite H. reflexivity. Qed.

Lemma replace_minus_spaces (w : text) :
  forallb Py.isspace w = true -> replace_minus 0 w = w.
Proof.
  induction w as [|c w IH]; [reflexivity|].
  cbn [forallb]. intros H. apply andb_true_iff in H as [Hc W].
  rewrite replace_minus_other by (apply startswith_MINUS_space; exact Hc).
  rewrite IH; auto.
Qed.

Lemma replace_minus_app_spaces (u w : text) (k : nat) :
  (k <= List.length u)%nat -> forallb Py.isspace w = true ->
  replace_minus k (u ++ w) = replace_minus k u ++ w.
Proof.
  revert k. induction u as [|c u IH]; intros k Hk W.
  - cbn [List.length] in Hk. assert (k = 0%nat) as -> by lia.
    cbn [app Py.replace_from]. apply replace_minus_spaces. exact W.
  - cbn [List.length] in Hk. destruct k as [|k].
    + change ((c :: u) ++ w) with (c :: (u ++ w)). cbn [Py.replace_from].
      change (c :: (u ++ w)) with ((c :: u) ++ w).
      rewrite (startswith_app_spaces MINUS_LOOKALIKE (c :: u) w eq_refl W).
      destruct (Py.startswith (c :: u) MINUS_LOOKALIKE) eqn:E.
      * apply startswith_length in E. cbn [List.length MINUS_LOOKALIKE] in E.
        rewrite IH by (cbn; lia || exact W). rewrite app_assoc. reflexivity.
      * rewrite IH by (lia || exact W). reflexivity.
    + cbn [app Py.replace_from]. apply IH; [lia | exact W].
Qed.

Lemma lstrip_replace_minus (s : text) :
  Py.lstrip (replace_minus 0 s) = replace_minus 0 (Py.lstrip s).
Proof.
  induction s as [|c s IH]; [reflexivity|].
  cbn [Py.lstrip]. destruct (Py.isspace c) eqn:Hc.
  - rewrite replace_minus_other by (apply startswith_MINUS_space; exact Hc).
    cbn [Py.lstrip]. rewrite Hc. exact IH.
  - destruct (Py.startswith (c :: s) MINUS_LOOKALIKE) eqn:E.
    + apply startswith_MINUS_inv in E as [s' E]. rewrite E.
      rewrite replace_minus_match. reflexivity.
    + rewrite replace_minus_other by exact E. cbn [Py.lstrip]. rewrite Hc.
      reflexivity.
Qed.

Lemma rtrimmed_tail (c : codepoint) (s : text) : rtrimmed (c :: s) -> rtrimmed s.
Proof. destruct s; [reflexivity | exact (fun H => H)]. Qed.

Lemma replace_minus_rtrimmed (u : text) (k : nat) :
  rtrimmed u -> rtrimmed (replace_minus k u).
Proof.
  revert k. induction u as [|c u IH]; intros k H.
  - destruct k; exact H.
  - pose proof (rtrimmed_tail c u H) as Hu. destruct k as [|k].
    + destruct (Py.startswith (c :: u) MINUS_LOOKALIKE) eqn:E.
      * cbn [Py.replace_from]. rewrite E. unfold rtrimmed, HYPHEN_MINUS.
        cbn [app]. rewrite last_cons. apply IH. exact Hu.
      * rewrite replace_minus_other by exact E.
        destruct u as [|b u]; [exact H|].
        assert (HX : exists x X, replace_minus 0 (b :: u) = x :: X).
        { cbn [Py.replace_from].
          destruct (Py.startswith (b :: u) MINUS_LOOKALIKE);
            unfold HYPHEN_MINUS; cbn [app]; eauto. }
        destruct HX as (x & X & EX). specialize (IH 0%nat Hu).
        rewrite EX in *. exact IH.
    + cbn [Py.replace_from]. apply IH. exact Hu.
Qed.

Lemma rstrip_replace_minus (s : text) :
  Py.rstrip (replace_minus 0 s) = replace_minus 0 (Py.rstrip s).
Proof.
  destruct (rstrip_split s) as [w [E W]]. rewrite E at 1.
  rewrite replace_minus_app_spaces by (lia || exact W).
  apply rstrip_app_spaces; [|exact W].
  apply replace_minus_rtrimmed, rstrip_rtrimmed.
Qed.

(** Trimming and substituting commute. *)
Lemma strip_normalize_characters (s : text) :
  Py.strip (normalize_characters s) = normalize_characters (Py.strip s).
Proof.
  unfold normalize_characters. rewrite !replace_thin_space, strip_map_thin.
  f_equal. unfold Py.replace, Py.strip.
  rewrite lstrip_replace_minus, rstrip_replace_minus. reflexivity.
Qed.

Lemma normalize_characters_substituted (s : text) :
  substituted s (normalize_characters s).
Proof.
  unfold normalize_characters. rewrite replace_thin_space. unfold Py.replace.
  remember (List.length s) as n eqn:Hn.
  assert (Hle : (List.length s <= n)%nat) by lia. clear Hn.
  revert s Hle. induction n as [|n IH]; intros s Hle.
  - destruct s; [constructor | cbn in Hle; lia].
  - destruct s as [|c s]; [constructor|]. cbn [List.length] in Hle.
    destruct (Py.startswith (c :: s) MINUS_LOOKALIKE) eqn:E.
    + apply startswith_MINUS_inv in E as [s' E]. rewrite E.
      rewrite replace_minus_match. apply (substituted_minus s').
      apply IH. unfold MINUS_LOOKALIKE in E. injection E as _ E. subst s.
      cbn [List.length] in Hle. lia.
    + rewrite replace_minus_other by exact E. cbn [map].
      unfold thin_to_space at 1. destruct (Z.eqb_spec c 8201) as [->|Hc].
      * apply (substituted_thin s). apply IH. lia.
      * apply substituted_other; [exact Hc | exact E | apply IH; lia].
Qed.


Lemma text_eqb_eq (a b : text) : Py.text_eqb a b = true <-> a = b.
Proof.
  unfold Py.text_eqb. destruct (list_eq_dec Z.eq_dec a b); split;
    congruence.
Qed.


(** A text has one substituted form. *)
Lemma substituted_functional (s r r' : text) :
  substituted s r -> substituted s r' -> r = r'.
Proof.
  intros H. revert r'.
  induction H as [|s r _ IH|s r _ IH|c s r Hc Hs _ IH]; intros r' H';
    unfold MINUS_LOOKALIKE, HYPHEN_MINUS, THIN_SPACE, SPACE in *;
    inversion H'; subst; cbn [app] in *; try discriminate; try congruence.
  all: unfold HYPHEN_MINUS, SPACE; cbn [app]; f_equal; apply IH; assumption.
Qed.


End Strings.

(** C9: the substitutions and the trimming do not reach the tree.  The
    leaf branch of [dfs] computes the substituted, trimmed text and assigns
    it to the attribute [string] of the leaf object, which leaves the text
    of the leaf as it was: [normalize] returns the leaf of
    [<mtext> a&#x2009;b </mtext>] with its thin space and its surrounding
    spaces, while the value computed for it is [a b]. *)
Theorem leaf_text_left_unsubstituted :
  normalize (document [Tag "mtext" [NavigableString [32; 97; 8201; 98; 32]%Z]])
  = Ok (document [Tag "mtext" [NavigableString [32; 97; 8201; 98; 32]%Z]])
  /\ dfs_string [32; 97; 8201; 98; 32]%Z = [97; 32; 98]%Z.
Proof. split; reflexivity. Qed.




(** ** Order of the visits *)

Lemma bind_ext {A B : Type} (m : result A) (k k' : A -> result B) :
  (forall a, k a = k' a) -> bind m k = bind m k'.
Proof. intros H. destruct m; cbn; [apply H | reflexivity]. Qed.

Lemma snd_bind_traced {A B : Type} (m : traced A) (k : A -> traced B) :
  snd (bind_traced m k) = bind (snd m) (fun a => snd (k a)).
Proof. destruct m as [l [a|e]]; cbn; [destruct (k a)|]; reflexivity. Qed.

Lemma fst_bind_traced {A B : Type} (m : traced A) (k : A -> traced B) :
  fst (bind_traced m k)
  = (fst m ++ match snd m with Ok a => fst (k a) | Raise _ => [] end)%list.
Proof.
  destruct m as [l [a|e]]; cbn; [destruct (k a); reflexivity|].
  symmetry. apply app_nil_r.
Qed.

Lemma dfs_children_traced_result
  (visit : node -> traced (node * list node)) (cs : list node) :
  snd (dfs_children_traced visit cs) = dfs_children (fun c => snd (visit c)) cs.
Proof.
  induction cs as [|c cs IH]; [reflexivity|].
  cbn [dfs_children_traced dfs_children]. rewrite snd_bind_traced.
  apply bind_ext. intros r. rewrite snd_bind_traced, IH. reflexivity.
Qed.

Lemma dfs_children_ext (f g : node -> result (node * list node))
  (cs : list node) :
  Forall (fun c => f c = g c) cs -> dfs_children f cs = dfs_children g cs.
Proof.
  induction 1 as [|c cs Hc _ IH]; [reflexivity|].
  cbn [dfs_children]. rewrite Hc, IH. reflexivity.
Qed.

(** The recorded traversal returns what [dfs] returns. *)
Lemma dfs_traced_result (t : node) :
  forall p, snd (dfs_traced p t) = dfs p t.
Proof.
  induction t as [s | name children IH] using node_ind; intros p;
    [reflexivity|].
  cbn [dfs_traced dfs]. rewrite snd_bind_traced.
  assert (E : snd (enter_traced (dfs_traced (Some name)) p name children)
              = enter (dfs (Some name)) p name children).
  { unfold enter_traced, enter.
    destruct (String.eqb name "annotation"); [reflexivity|].
    destruct (String.eqb name "semantics" && (List.length children =? 1));
      [reflexivity|].
    rewrite snd_bind_traced, dfs_children_traced_result.
    rewrite (dfs_children_ext _ (dfs (Some name)) children).
    - reflexivity.
    - apply Forall_impl with (2 := IH). intros c Hc. apply Hc. }
  rewrite E. apply bind_ext. intros st.
  cbn [record bind_traced lift]. destruct (rules name st); reflexivity.
Qed.

Lemma dfs_children_ok_inv (f : node -> result (node * list node))
  (c : node) (cs : list node) :
  is_ok (dfs_children f (c :: cs)) = true ->
  is_ok (f c) = true /\ is_ok (dfs_children f cs) = true.
Proof.
  cbn [dfs_children]. destruct (f c); cbn; [|discriminate].
  destruct (dfs_children f cs); cbn; [auto | discriminate].
Qed.

Lemma dfs_children_traced_visits (q : option string) (cs : list node) :
  Forall (fun c => forall p, no_single_child_semantics c = true ->
                    is_ok (dfs p c) = true ->
                    fst (dfs_traced p c) = post_order c) cs ->
  forallb no_single_child_semantics cs = true ->
  is_ok (dfs_children (dfs q) cs) = true ->
  fst (dfs_children_traced (dfs_traced q) cs) = flat_map post_order cs.
Proof.
  induction 1 as [|c cs Hc _ IH]; intros Hsem Hok; [reflexivity|].
  cbn [forallb] in Hsem. apply andb_true_iff in Hsem as [Hsc Hscs].
  apply dfs_children_ok_inv in Hok as [Hokc Hokcs].
  cbn [dfs_children_traced flat_map]. rewrite fst_bind_traced.
  rewrite (Hc q Hsc Hokc), dfs_traced_result.
  destruct (dfs q c) as [r|e]; [|discriminate]. f_equal.
  rewrite fst_bind_traced, (IH Hscs Hokcs). cbn [ret fst].
  destruct (snd (dfs_children_traced (dfs_traced q) cs)); apply app_nil_r.
Qed.

(** C3, as stated, fails.  The children of an [annotation] are not
    visited.  The child of a [semantics] element that has one child is not
    visited either, and stands in the result as it was: here an [mrow] with
    one child, which a visit turns into that child.  A [semantics] element
    that is left with one child once its children are normalized is not
    unwrapped. *)
Lemma semantics_child_not_normalized :
  visits (document [annotation [mi "x"]])
  = [annotation [mi "x"]; document [annotation [mi "x"]]]
  /\ visits (document [semantics [mrow [mi "x"]]])
     = [semantics [mrow [mi "x"]]; document [semantics [mrow [mi "x"]]]]
  /\ normalize (document [semantics [mrow [mi "x"]]])
     = Ok (document [mrow [mi "x"]])
  /\ dfs (Some "[document]") (mrow [mi "x"]) = Ok (mrow [], [mi "x"])
  /\ normalize (document [semantics [mi "x"; annotation [str "x"]]])
     = Ok (document [semantics [mi "x"]]).
Proof. repeat split; reflexivity. Qed.

(** C3, amended: on a tree in which no [semantics] element has exactly one
    child, a call of [normalize] that returns has visited every node that
    is not below an [annotation] exactly once, the children of an element
    from left to right and all of them before the element's own rules
    ran. *)
Theorem visits_in_post_order (soup root : node) :
  no_single_child_semantics soup = true ->
  normalize soup = Ok root ->
  visits soup = post_order soup.
Proof.
  intros Hsem Hok. unfold visits.
  assert (Hdfs : is_ok (dfs None soup) = true).
  { unfold normalize in Hok. destruct (dfs None soup); [reflexivity|discriminate]. }
  clear Hok root. revert Hsem Hdfs. generalize (@None string).
  induction soup as [s | name children IH] using node_ind; intros p Hsem Hok;
    [reflexivity|].
  cbn [dfs_traced post_order]. rewrite fst_bind_traced.
  cbn [no_single_child_semantics] in Hsem.
  assert (Hrec : forall st,
             fst (bind_traced (record (Tag name children)) (fun _ =>
                    bind_traced (lift (rules name st)) (fun st0 =>
                      ret (Tag name (kids st0), in_parent name st0))))
             = [Tag name children]).
  { intros st. cbn [record bind_traced lift]. destruct (rules name st); reflexivity. }
  unfold enter_traced. cbn [dfs] in Hok. unfold enter in Hok.
  destruct (String.eqb name "annotation").
  - cbn [ret fst snd app]. apply Hrec.
  - cbn [orb] in Hsem. apply andb_true_iff in Hsem as [Hone Hsem].
    apply negb_true_iff in Hone. rewrite Hone in *.
    assert (Hcs : is_ok (dfs_children (dfs (Some name)) children) = true).
    { destruct (dfs_children (dfs (Some name)) children); [reflexivity|discriminate]. }
    rewrite fst_bind_traced, snd_bind_traced.
    rewrite (dfs_children_traced_visits (Some name) children IH Hsem Hcs).
    rewrite dfs_children_traced_result.
    rewrite (dfs_children_ext _ (dfs (Some name)) children)
      by (apply Forall_forall; intros c _; apply dfs_traced_result).
    destruct (dfs_children (dfs (Some name)) children) as [cs|e]; [|discriminate].
    cbn [ret fst snd bind]. rewrite app_nil_r, Hrec. reflexivity.
Qed.

Lemma visits_in_post_order_witness :
  visits (document [mrow [mi "x"; mi "y"]; annotation [mi "z"]])
  = [str "x"; mi "x"; str "y"; mi "y"; mrow [mi "x"; mi "y"];
     annotation [mi "z"];
     document [mrow [mi "x"; mi "y"]; annotation [mi "z"]]].
Proof.
  apply (visits_in_post_order
           (document [mrow [mi "x"; mi "y"]; annotation [mi "z"]])
           (document [mi "xy"])); reflexivity.
Defined.

(** ** Texts that the leaf branch leaves alone *)

Section Clean.

Local Open Scope Z_scope.
Local Open Scope list_scope.

Lemma ltrimmed_lstrip (s : text) : ltrimmed s -> Py.lstrip s = s.
Proof.
  unfold ltrimmed. destruct s as [|c s]; [reflexivity|].
  cbn [hd Py.lstrip]. intros ->. reflexivity.
Qed.

Lemma strip_ltrimmed (s : text) : ltrimmed (Py.strip s).
Proof.
  unfold Py.strip, ltrimmed.
  destruct (rstrip_split (Py.lstrip s)) as [w [E _]].
  pose proof (lstrip_head s) as H. rewrite E in H.
  destruct (Py.rstrip (Py.lstrip s)); [reflexivity | exact H].
Qed.

Lemma strip_rtrimmed (s : text) : rtrimmed (Py.strip s).
Proof. apply rstrip_rtrimmed. Qed.

Lemma trimmed_strip (s : text) : ltrimmed s -> rtrimmed s -> Py.strip s = s.
Proof.
  intros L R. unfold Py.strip. rewrite (ltrimmed_lstrip s L).
  apply rtrimmed_rstrip. exact R.
Qed.

Lemma strip_idempotent (s : text) : Py.strip (Py.strip s) = Py.strip s.
Proof. apply trimmed_strip; [apply strip_ltrimmed | apply strip_rtrimmed]. Qed.

Lemma last_app_nonempty {A : Type} (a b : list A) (d : A) :
  b <> [] -> last (a ++ b) d = last b d.
Proof.
  intros Hb. induction a as [|x a IH]; [reflexivity|].
  cbn [app]. destruct (a ++ b) eqn:E.
  - destruct a; [cbn in E; contradiction | discriminate].
  - rewrite <- IH. reflexivity.
Qed.

Lemma trimmed_app (a b : text) :
  Py.strip a = a -> Py.strip b = b -> Py.strip (a ++ b) = a ++ b.
Proof.
  intros Ha Hb.
  destruct a as [|x a]; [exact Hb|].
  destruct b as [|y b]; [rewrite app_nil_r; exact Ha|].
  apply trimmed_strip.
  - pose proof (strip_ltrimmed (x :: a)) as L. rewrite Ha in L. exact L.
  - pose proof (strip_rtrimmed (y :: b)) as R. rewrite Hb in R.
    unfold rtrimmed. rewrite last_app_nonempty by discriminate. exact R.
Qed.

Lemma startswith_MINUS_head (c : codepoint) (s : text) :
  c <> 226 -> Py.startswith (c :: s) MINUS_LOOKALIKE = false.
Proof.
  intros Hc. destruct (Py.startswith (c :: s) MINUS_LOOKALIKE) eqn:E;
    [|reflexivity].
  apply startswith_MINUS_inv in E as [s' E]. injection E as E _. contradiction.
Qed.

Lemma replace_minus_none (s : text) :
  ~ In 226 s -> Py.replace MINUS_LOOKALIKE HYPHEN_MINUS s = s.
Proof.
  unfold Py.replace. induction s as [|c s IH]; [reflexivity|].
  intros H. rewrite replace_minus_other.
  - rewrite IH; [reflexivity|]. intros Hin. apply H. right. exact Hin.
  - apply startswith_MINUS_head. intros ->. apply H. left. reflexivity.
Qed.

Lemma map_thin_none (s : text) : ~ In 8201 s -> map thin_to_space s = s.
Proof.
  induction s as [|c s IH]; [reflexivity|].
  intros H. cbn [map]. rewrite IH by (intros Hin; apply H; right; exact Hin).
  unfold thin_to_space. destruct (Z.eqb_spec c 8201) as [->|]; [|reflexivity].
  exfalso. apply H. left. reflexivity.
Qed.

Lemma normalize_characters_none (s : text) :
  ~ In 226 s -> ~ In 8201 s -> normalize_characters s = s.
Proof.
  intros H1 H2. unfold normalize_characters.
  rewrite replace_thin_space, (replace_minus_none s H1). apply map_thin_none, H2.
Qed.

Lemma normalize_characters_no_thin (s : text) :
  ~ In 8201 (normalize_characters s).
Proof.
  unfold normalize_characters. rewrite replace_thin_space. intros H.
  apply in_map_iff in H as (y & Hy & _). unfold thin_to_space in Hy.
  destruct (Z.eqb_spec y 8201); [discriminate | contradiction].
Qed.

(** What it takes for [dfs] to leave a text as it is. *)
Lemma dfs_string_fixed (s : text) :
  dfs_string s = s
  <-> Py.strip s = s /\ normalize_characters s = s /\ s <> FUNCTION_APPLICATION.
Proof.
  unfold dfs_string. split.
  - destruct (Py.text_eqb (normalize_characters (Py.strip s)) FUNCTION_APPLICATION)
      eqn:E; intros H.
    + subst s. discriminate.
    + assert (Hs : Py.strip s = s).
      { rewrite <- H at 1. rewrite <- strip_normalize_characters, strip_idempotent.
        rewrite strip_normalize_characters. exact H. }
      rewrite Hs in *. split; [reflexivity|]. split; [exact H|].
      intros F. apply (proj2 (text_eqb_eq _ _)) in F. congruence.
  - intros (Hs & Hn & Hf). rewrite Hs, Hn.
    destruct (Py.text_eqb s FUNCTION_APPLICATION) eqn:E; [|reflexivity].
    apply (proj1 (text_eqb_eq _ _)) in E. contradiction.
Qed.

End Clean.

(** ** A second pass *)

Section SecondPass.

Local Open Scope list_scope.

Lemma name_is_set_string (c : node) (a : text) (n : string) :
  name_is (set_string c a) n = name_is c n.
Proof. destruct c; reflexivity. Qed.

Lemma no_mi_pair_cons (a b : node) (cs : list node) :
  no_mi_pair (a :: b :: cs)
  = negb (name_is a "mi" && name_is b "mi") && no_mi_pair (b :: cs).
Proof. reflexivity. Qed.

(** *** [merge_mi] *)

Lemma merge_mi_loop_no_pair (last_c : option node) (cs : list node) :
  no_mi_pair (opt_list last_c ++ cs) = true ->
  merge_mi_loop last_c cs = Ok (opt_list last_c ++ cs).
Proof.
  revert last_c. induction cs as [|c cs IH]; intros last_c H.
  - cbn [merge_mi_loop]. rewrite app_nil_r. reflexivity.
  - destruct last_c as [l|]; cbn [merge_mi_loop opt_list app] in *.
    + rewrite no_mi_pair_cons in H. apply andb_true_iff in H as [Hp H].
      apply negb_true_iff in Hp. rewrite andb_comm in Hp. rewrite Hp.
      rewrite (IH (Some c) H). reflexivity.
    + apply (IH (Some c)). exact H.
Qed.

Lemma merge_mi_loop_head (l : node) (cs out : list node) :
  merge_mi_loop (Some l) cs = Ok out ->
  exists h tl, out = h :: tl /\ name_is h "mi" = name_is l "mi".
Proof.
  revert l out. induction cs as [|c cs IH]; intros l out H.
  - cbn in H. injection H as <-. eauto.
  - cbn [merge_mi_loop] in H.
    destruct (name_is c "mi" && name_is l "mi") eqn:E.
    + destruct (get_string l); [|discriminate].
      destruct (get_string c); [|discriminate].
      apply IH in H as (h & tl & -> & Hh). exists h, tl. split; [reflexivity|].
      rewrite Hh, name_is_set_string. apply andb_true_iff in E as [Ec El].
      congruence.
    + destruct (merge_mi_loop (Some c) cs); cbn in H; [|discriminate].
      injection H as <-. eauto.
Qed.

(** After [merge_mi], no two neighbours are both [mi]. *)
Lemma merge_mi_loop_settles (last_c : option node) (cs out : list node) :
  merge_mi_loop last_c cs = Ok out -> no_mi_pair out = true.
Proof.
  revert last_c out. induction cs as [|c cs IH]; intros last_c out H.
  - destruct last_c; cbn in H; injection H as <-; reflexivity.
  - destruct last_c as [l|]; cbn [merge_mi_loop] in H.
    + destruct (name_is c "mi" && name_is l "mi") eqn:E.
      * destruct (get_string l); [|discriminate].
        destruct (get_string c); [|discriminate].
        apply IH in H. exact H.
      * destruct (merge_mi_loop (Some c) cs) as [rest|] eqn:R; cbn in H;
          [|discriminate].
        injection H as <-. pose proof (IH _ _ R) as Hrest.
        apply merge_mi_loop_head in R as (h & tl & -> & Hh).
        rewrite no_mi_pair_cons, Hh, (andb_comm (name_is l "mi")), E. exact Hrest.
    + apply IH in H. exact H.
Qed.

Lemma merge_mi_loop_forallb (Q : node -> bool) :
  (forall l c a b,
      Q l = true -> Q c = true ->
      get_string l = Some a -> get_string c = Some b ->
      name_is c "mi" = true ->
      Q (set_string c (a ++ b)) = true) ->
  forall last_c cs out,
    merge_mi_loop last_c cs = Ok out ->
    forallb Q (opt_list last_c ++ cs) = true ->
    forallb Q out = true.
Proof.
  intros HQ last_c cs. revert last_c.
  induction cs as [|c cs IH]; intros last_c out H Hall.
  - cbn in H. injection H as <-. rewrite app_nil_r in Hall. exact Hall.
  - destruct last_c as [l|]; cbn [merge_mi_loop opt_list app forallb] in *.
    + apply andb_true_iff in Hall as [Hl Hall].
      apply andb_true_iff in Hall as [Hc Hall].
      destruct (name_is c "mi" && name_is l "mi") eqn:E.
      * destruct (get_string l) as [a|] eqn:Ea; [|discriminate].
        destruct (get_string c) as [b|] eqn:Eb; [|discriminate].
        apply andb_true_iff in E as [Ec _].
        apply (IH _ _ H). cbn [opt_list app forallb].
        rewrite (HQ l c a b Hl Hc Ea Eb Ec). exact Hall.
      * destruct (merge_mi_loop (Some c) cs) as [rest|] eqn:R; cbn in H;
          [|discriminate].
        injection H as <-. cbn [forallb]. rewrite Hl.
        apply (IH _ _ R). cbn [opt_list app forallb]. rewrite Hc. exact Hall.
    + apply (IH _ _ H). exact Hall.
Qed.

Lemma merged_not_mtable (name : string) (cs out : list node) :
  merged name cs = Ok out ->
  forallb not_mtable cs = true -> forallb not_mtable out = true.
Proof.
  unfold merged. destruct (dict_in (PyStr name) POSITIONAL_TAGS).
  - intros H. injection H as <-. exact (fun H => H).
  - intros H. apply (merge_mi_loop_forallb not_mtable) with (2 := H).
    intros l c a b _ Hc _ _ _. unfold not_mtable in *.
    rewrite name_is_set_string. exact Hc.
Qed.

Lemma merged_settles (name : string) (cs out : list node) :
  merged name cs = Ok out -> merged name out = Ok out.
Proof.
  unfold merged. destruct (dict_in (PyStr name) POSITIONAL_TAGS);
    [exact (fun H => eq_refl)|].
  intros H. apply merge_mi_loop_settles in H.
  apply (merge_mi_loop_no_pair None out H).
Qed.

(** *** [remove_single_table] *)

Lemma unwrap_single_table_other (c : node) :
  not_mtable c = true -> unwrap_single_table c = [c].
Proof.
  unfold not_mtable, name_is, unwrap_single_table, check_single_name.
  destruct c as [s | n cs]; [reflexivity|]. cbn [name_of].
  intros H. apply negb_true_iff in H. rewrite H. reflexivity.
Qed.

Lemma remove_single_table_none (cs : list node) :
  forallb not_mtable cs = true -> flat_map unwrap_single_table cs = cs.
Proof.
  induction cs as [|c cs IH]; [reflexivity|].
  cbn [forallb flat_map]. intros H. apply andb_true_iff in H as [Hc H].
  rewrite (unwrap_single_table_other c Hc), (IH H). reflexivity.
Qed.

(** *** The rules on an element that is not a table *)

Lemma restructure_eq (name : string) (p : option string) (sl cs : list node) :
  String.eqb name "mtable" = false ->
  restructure name (mkState p sl cs)
  = (cs1 <- merged name cs ;;
     if String.eqb name "mrow" && (List.length cs1 =? 1) then
       match p with
       | Some _ => Ok (mkState None cs1 [])
       | None => Raise (ValueError NotInTree)
       end
     else
       Ok (if goes name cs1 then
             match p with
             | Some _ => mkState None [] (flat_map unwrap_single_table cs1)
             | None => mkState None sl (flat_map unwrap_single_table cs1)
             end
           else mkState p sl (flat_map unwrap_single_table cs1))).
Proof.
  intros Hm. unfold restructure, merge_mi, merged. cbn [kids].
  assert (Hstep : forall cs1,
    (st <- (if String.eqb name "mrow" && (List.length cs1 =? 1)
            then replace_with_children (mkState p sl cs1)
            else Ok (mkState p sl cs1)) ;;
     st0 <- remove_empty_columns name
              (remove_empty_row name (remove_empty_tag name st)) ;;
     Ok (remove_single_table st0))
    = (if String.eqb name "mrow" && (List.length cs1 =? 1) then
         match p with
         | Some _ => Ok (mkState None cs1 [])
         | None => Raise (ValueError NotInTree)
         end
       else
         Ok (if goes name cs1 then
               match p with
               | Some _ => mkState None [] (flat_map unwrap_single_table cs1)
               | None => mkState None sl (flat_map unwrap_single_table cs1)
               end
             else mkState p sl (flat_map unwrap_single_table cs1)))).
  { intros cs1.
    destruct (String.eqb name "mrow" && (List.length cs1 =? 1)) eqn:C.
    - apply andb_true_iff in C as [C _]. apply String.eqb_eq in C. subst name.
      destruct p; reflexivity.
    - cbn [bind]. unfold remove_empty_columns. rewrite Hm. cbn [bind].
      unfold goes, remove_empty_row, remove_empty_tag, remove_single_table.
      cbn [kids parent].
      destruct ((List.length cs1 =? 0) && negb (list_in name EMPTY_TAGS));
        destruct p as [q|]; cbn [orb extract parent kids negb];
        rewrite ?parent_never_in_POSITIONAL_TAGS; cbn [negb extract parent kids];
        destruct (String.eqb name "mtr" && forallb is_empty_mtd cs1);
        reflexivity. }
  destruct (dict_in (PyStr name) POSITIONAL_TAGS); cbn [negb bind].
  - apply Hstep.
  - destruct (merge_mi_loop None cs) as [cs1|e]; cbn [bind set_kids kids];
      [apply Hstep | reflexivity].
Qed.

(** *** Settled trees are left as they are *)

Lemma forallb_impl {A : Type} (f g : A -> bool) (l : list A) :
  (forall a, f a = true -> g a = true) ->
  forallb f l = true -> forallb g l = true.
Proof.
  intros H. induction l as [|a l IH]; [reflexivity|].
  cbn [forallb]. intros Hl. apply andb_true_iff in Hl as [Ha Hl].
  rewrite (H a Ha), (IH Hl). reflexivity.
Qed.

Lemma settled_tag (name : string) (cs : list node) :
  settled (Tag name cs) = true ->
  String.eqb name "annotation" = false
  /\ String.eqb name "semantics" = false
  /\ String.eqb name "mtable" = false
  /\ String.eqb name "mrow" && (List.length cs =? 1) = false
  /\ goes name cs = false
  /\ required_arity_met name cs = true
  /\ merged name cs = Ok cs
  /\ forallb settled cs = true.
Proof.
  cbn [settled]. intros H.
  apply andb_true_iff in H as [H H8]. apply andb_true_iff in H as [H H7].
  apply andb_true_iff in H as [H H6]. apply andb_true_iff in H as [H H5].
  apply andb_true_iff in H as [H H4]. apply andb_true_iff in H as [H H3].
  apply andb_true_iff in H as [H1 H2].
  rewrite negb_true_iff in H1, H2, H3, H4, H5.
  repeat split; try assumption.
  unfold merged. destruct (dict_in (PyStr name) POSITIONAL_TAGS);
    [reflexivity|].
  apply (merge_mi_loop_no_pair None cs). exact H7.
Qed.

Lemma settled_not_mtable (c : node) : settled c = true -> not_mtable c = true.
Proof.
  destruct c as [s | name cs]; [reflexivity|]. intros H.
  apply settled_tag in H as (_ & _ & Hm & _).
  unfold not_mtable, name_is. cbn [name_of]. rewrite Hm. reflexivity.
Qed.

Lemma dfs_children_fixed (cs : list node) :
  Forall (fun c => forall p, settled c = true -> dfs (Some p) c = Ok (c, [c]))
    cs ->
  forallb settled cs = true ->
  forall name, dfs_children (dfs (Some name)) cs = Ok cs.
Proof.
  induction 1 as [|c cs Hc _ IH]; intros Hs name; [reflexivity|].
  cbn [forallb] in Hs. apply andb_true_iff in Hs as [Hsc Hs].
  cbn [dfs_children]. rewrite (Hc name Hsc). cbn [bind snd].
  rewrite (IH Hs name). reflexivity.
Qed.

(** On a settled tree below a parent, [dfs] changes nothing. *)
Lemma settled_fixed (t : node) :
  forall p, settled t = true -> dfs (Some p) t = Ok (t, [t]).
Proof.
  induction t as [s | name cs IH] using node_ind; intros p H.
  - reflexivity.
  - pose proof (settled_tag name cs H)
      as (Ha & Hse & Hm & Hr & Hg & Hv & Hmg & Hcs).
    cbn [dfs]. unfold enter. rewrite Ha, Hse. cbn [andb].
    rewrite (dfs_children_fixed cs IH Hcs name).
    unfold set_kids. cbn [bind parent slot kids]. unfold rules.
    rewrite (restructure_eq name (Some p) [] cs Hm), Hmg. cbn [bind].
    rewrite Hr, Hg.
    rewrite remove_single_table_none
      by (apply forallb_impl with (2 := Hcs); apply settled_not_mtable).
    cbn [bind]. unfold validate. cbn [kids].
    unfold required_arity_met in Hv.
    destruct (dict_get POSITIONAL_TAGS name); [rewrite Hv|]; reflexivity.
Qed.

(** *** What a first pass returns is settled *)

Lemma merged_settled (name : string) (cs out : list node) :
  merged name cs = Ok out ->
  forallb settled cs = true -> forallb settled out = true.
Proof.
  unfold merged. destruct (dict_in (PyStr name) POSITIONAL_TAGS).
  - intros H. injection H as <-. exact (fun H => H).
  - intros H. apply (merge_mi_loop_forallb settled) with (2 := H).
    intros l c a b Hl Hc Ea Eb Hmi.
    destruct c as [s | n cs0]; [discriminate|].
    unfold name_is in Hmi. cbn [name_of] in Hmi.
    apply String.eqb_eq in Hmi. subst n. reflexivity.
Qed.

Lemma rules_settled (name p : string) (cs : list node) (st : tstate) :
  String.eqb name "annotation" = false ->
  String.eqb name "semantics" = false ->
  String.eqb name "mtable" = false ->
  forallb settled cs = true ->
  rules name (mkState (Some p) [] cs) = Ok st ->
  forallb settled (in_parent name st) = true.
Proof.
  intros Ha Hs Hm Hcs H. unfold rules in H.
  rewrite (restructure_eq _ _ _ _ Hm) in H.
  destruct (merged name cs) as [cs1|] eqn:M; cbn [bind] in H; [|discriminate].
  pose proof (merged_settled _ _ _ M Hcs) as Hcs1.
  assert (Hpair : dict_in (PyStr name) POSITIONAL_TAGS || no_mi_pair cs1 = true).
  { unfold merged in M. destruct (dict_in (PyStr name) POSITIONAL_TAGS);
      [reflexivity|]. apply merge_mi_loop_settles in M. exact M. }
  destruct (String.eqb name "mrow" && (List.length cs1 =? 1)) eqn:C;
    cbn [bind] in H.
  - apply andb_true_iff in C as [C _]. apply String.eqb_eq in C. subst name.
    cbn in H. injection H as <-. exact Hcs1.
  - rewrite remove_single_table_none in H
      by (apply forallb_impl with (2 := Hcs1); apply settled_not_mtable).
    unfold validate in H. destruct (goes name cs1) eqn:G; cbn [kids] in H.
    + destruct (dict_get POSITIONAL_TAGS name) as [k|];
        [destruct (negb (k =? List.length cs1)); [discriminate|]|];
        injection H as <-; reflexivity.
    + destruct (dict_get POSITIONAL_TAGS name) as [k|] eqn:D.
      * destruct (k =? List.length cs1) eqn:K; cbn [negb] in H; [|discriminate].
        injection H as <-. cbn [in_parent parent kids forallb settled].
        unfold required_arity_met. rewrite Ha, Hs, Hm, C, G, D, K, Hpair, Hcs1.
        reflexivity.
      * injection H as <-. cbn [in_parent parent kids forallb settled].
        unfold required_arity_met. rewrite Ha, Hs, Hm, C, G, D, Hpair, Hcs1.
        reflexivity.
Qed.

Lemma dfs_children_settles (cs : list node) :
  Forall (fun c => forall p r, regular c = true -> dfs (Some p) c = Ok r ->
                    forallb settled (snd r) = true) cs ->
  forallb regular cs = true ->
  forall name out, dfs_children (dfs (Some name)) cs = Ok out ->
  forallb settled out = true.
Proof.
  induction 1 as [|c cs Hc _ IH]; intros Hreg name out H.
  - cbn in H. injection H as <-. reflexivity.
  - cbn [forallb] in Hreg. apply andb_true_iff in Hreg as [Hrc Hreg].
    cbn [dfs_children] in H.
    destruct (dfs (Some name) c) as [r|] eqn:D; cbn [bind] in H; [|discriminate].
    destruct (dfs_children (dfs (Some name)) cs) as [rs|] eqn:K; cbn [bind] in H;
      [|discriminate].
    injection H as <-. rewrite forallb_app.
    rewrite (Hc name r Hrc D), (IH Hreg name rs K). reflexivity.
Qed.

Lemma annotation_rules (cs : list node) (st : tstate) :
  rules "annotation" (mkState None [] cs) = Ok st -> slot st = [].
Proof.
  unfold rules. rewrite restructure_eq by reflexivity.
  destruct (merged "annotation" cs) as [cs1|]; cbn [bind]; [|discriminate].
  change (String.eqb "annotation" "mrow") with false. cbn [andb bind].
  unfold validate. change (dict_get POSITIONAL_TAGS "annotation") with (@None nat).
  destruct (goes "annotation" cs1); intros H; injection H as <-; reflexivity.
Qed.

(** Below a parent, what [dfs] leaves in the place of a regular tree is
    settled. *)
Lemma regular_settles (t : node) :
  forall p r, regular t = true -> dfs (Some p) t = Ok r ->
              forallb settled (snd r) = true.
Proof.
  induction t as [s | name cs IH] using node_ind; intros p r Hreg H.
  - cbn [dfs] in H. injection H as <-. reflexivity.
  - cbn [regular] in Hreg. apply andb_true_iff in Hreg as [Hreg Hcs].
    apply andb_true_iff in Hreg as [Hs Hm].
    apply negb_true_iff in Hs, Hm.
    cbn [dfs] in H. unfold enter in H. rewrite Hs in H. cbn [andb] in H.
    destruct (String.eqb name "annotation") eqn:Ha.
    + apply String.eqb_eq in Ha. subst name. cbn [extract parent kids bind] in H.
      destruct (rules "annotation" (mkState None [] cs)) as [st|] eqn:R;
        cbn [bind] in H; [|discriminate].
      injection H as <-. cbn [snd]. unfold in_parent.
      assert (Hp : parent st = None).
      { unfold rules in R. rewrite restructure_eq in R by reflexivity.
        destruct (merged "annotation" cs) as [cs1|]; cbn [bind] in R;
          [|discriminate].
        change (String.eqb "annotation" "mrow") with false in R.
        cbn [andb bind] in R. unfold validate in R.
        change (dict_get POSITIONAL_TAGS "annotation") with (@None nat) in R.
        destruct (goes "annotation" cs1); injection R as <-; reflexivity. }
      rewrite Hp, (annotation_rules cs st R). reflexivity.
    + destruct (dfs_children (dfs (Some name)) cs) as [out|] eqn:K;
        unfold set_kids in H; cbn [bind parent slot kids] in H; [|discriminate].
      destruct (rules name (mkState (Some p) [] out)) as [st|] eqn:R;
        cbn [bind] in H; [|discriminate].
      injection H as <-. cbn [snd].
      apply (rules_settled name p out st Ha Hs Hm); [|exact R].
      apply (dfs_children_settles cs IH Hcs name out K).
Qed.

(** *** The root *)

Lemma rules_root_again (name : string) (cs : list node) (st : tstate) :
  String.eqb name "mtable" = false ->
  forallb not_mtable cs = true ->
  rules name (mkState None [] cs) = Ok st ->
  merged name cs = Ok (kids st)
  /\ rules name (mkState None [] (kids st)) = Ok st.
Proof.
  intros Hm Hn H. unfold rules in *. rewrite restructure_eq in H by exact Hm.
  destruct (merged name cs) as [cs1|] eqn:M; cbn [bind] in H; [|discriminate].
  pose proof (merged_not_mtable _ _ _ M Hn) as Hn1.
  rewrite (remove_single_table_none cs1 Hn1) in H.
  destruct (String.eqb name "mrow" && (List.length cs1 =? 1)) eqn:C;
    [discriminate|].
  assert (E : (if goes name cs1 then mkState None [] cs1 else mkState None [] cs1)
              = mkState None [] cs1) by (destruct (goes name cs1); reflexivity).
  rewrite E in H. cbn [bind] in H.
  assert (Hst : st = mkState None [] cs1).
  { unfold validate in H. destruct (dict_get POSITIONAL_TAGS name) as [k|];
      [destruct (negb (k =? List.length (kids (mkState None [] cs1))));
         [discriminate|]|]; injection H as <-; reflexivity. }
  subst st. cbn [kids]. split; [reflexivity|].
  rewrite restructure_eq by exact Hm. rewrite (merged_settles _ _ _ M).
  cbn [bind]. rewrite C, (remove_single_table_none cs1 Hn1), E. exact H.
Qed.

Lemma regular_not_mtable (c : node) : regular c = true -> not_mtable c = true.
Proof.
  destruct c as [s | name cs]; [reflexivity|]. cbn [regular]. intros H.
  apply andb_true_iff in H as [H _]. apply andb_true_iff in H as [_ H].
  exact H.
Qed.

End SecondPass.

(** C1, as stated, fails: the table of one cell is unwrapped after
    [merge_mi] has run on its parent, so the [mi] it leaves next to another
    [mi] is merged by a second pass only. *)
Lemma second_pass_merges_unwrapped_cell :
  normalize (document [mi "a"; mtable [mtr [mtd [mi "b"]]]])
  = Ok (document [mi "a"; mi "b"])
  /\ normalize (document [mi "a"; mi "b"]) = Ok (document [mi "ab"]).
Proof. split; reflexivity. Qed.

(** A [semantics] element is tested for having one child before its
    children are visited: the one that is left with one child once its
    [annotation] is detached is unwrapped by a second pass only. *)
Lemma second_pass_unwraps_semantics :
  normalize (document [semantics [mi "x"; annotation [str "x"]]])
  = Ok (document [semantics [mi "x"]])
  /\ normalize (document [semantics [mi "x"]]) = Ok (document [mi "x"]).
Proof. split; reflexivity. Qed.

(** On a tree that has no [semantics] and no [mtable] element, a second
    pass over what [normalize] returned returns the same tree. *)
Lemma regular_second_pass (soup root : node) :
  regular soup = true ->
  normalize soup = Ok root ->
  normalize root = Ok root.
Proof.
  unfold normalize. intros Hreg H.
  destruct (dfs None soup) as [[t out]|] eqn:D; cbn [bind fst] in H;
    [|discriminate].
  injection H as <-. destruct soup as [s | name cs].
  - cbn [dfs] in D. injection D as <- _. reflexivity.
  - cbn [regular] in Hreg. apply andb_true_iff in Hreg as [Hreg Hcs].
    apply andb_true_iff in Hreg as [Hs Hm]. apply negb_true_iff in Hs, Hm.
    cbn [dfs] in D. unfold enter in D. rewrite Hs in D. cbn [andb] in D.
    destruct (String.eqb name "annotation") eqn:Ha.
    + cbn [extract parent bind] in D.
      destruct (rules name (mkState None [] cs)) as [st|] eqn:R;
        cbn [bind] in D; [|discriminate].
      injection D as <- _.
      apply rules_root_again in R as [_ R]; [|exact Hm|].
      * cbn [dfs]. unfold enter. rewrite Ha. cbn [extract parent bind].
        rewrite R. reflexivity.
      * apply forallb_impl with (2 := Hcs). apply regular_not_mtable.
    + destruct (dfs_children (dfs (Some name)) cs) as [ks|] eqn:K;
        unfold set_kids in D; cbn [bind parent slot kids] in D; [|discriminate].
      destruct (rules name (mkState None [] ks)) as [st|] eqn:R;
        cbn [bind] in D; [|discriminate].
      injection D as <- _.
      assert (Hks : forallb settled ks = true).
      { apply (dfs_children_settles cs) with (name := name); [|exact Hcs|exact K].
        apply Forall_forall. intros c _ p r. apply regular_settles. }
      apply rules_root_again in R as [M R]; [|exact Hm|].
      * pose proof (merged_settled _ _ _ M Hks) as Hst.
        cbn [dfs]. unfold enter. rewrite Ha, Hs. cbn [andb].
        rewrite (dfs_children_fixed (kids st)); [|
          apply Forall_forall; intros c _ p; apply settled_fixed | exact Hst].
        unfold set_kids. cbn [bind parent slot kids]. rewrite R. reflexivity.
      * apply forallb_impl with (2 := Hks). apply settled_not_mtable.
Qed.

(** * Further properties *)

(** ** Character substitution *)

Section Substitution.

Local Open Scope Z_scope.
Local Open Scope list_scope.

Lemma substituted_head_inv (x : codepoint) (s r : text) :
  substituted s (x :: r) -> x <> 45 -> x <> 32 ->
  exists s', s = x :: s' /\ substituted s' r.
Proof.
  intros H H45 H32. remember (x :: r) as xr eqn:E.
  destruct H as [|s0 r0 H|s0 r0 H|c s0 r0 Hc Hs H].
  - discriminate.
  - unfold HYPHEN_MINUS in E. injection E as E _. congruence.
  - unfold SPACE in E. injection E as E _. congruence.
  - injection E as -> ->. exists s0. split; [reflexivity | exact H].
Qed.

Lemma substituted_no_look_alike (s r : text) :
  substituted s r -> ~ occurs MINUS_LOOKALIKE r.
Proof.
  induction 1 as [|s r _ IH|s r _ IH|c s r Hc Hs S IH];
    intros (pre & post & E).
  - destruct pre; discriminate.
  - unfold HYPHEN_MINUS in E. destruct pre as [|x pre]; [discriminate|].
    injection E as _ E. apply IH. exists pre, post. exact E.
  - unfold SPACE in E. destruct pre as [|x pre]; [discriminate|].
    injection E as _ E. apply IH. exists pre, post. exact E.
  - destruct pre as [|x pre].
    + unfold MINUS_LOOKALIKE in E. cbn [app] in E. injection E as -> E.
      rewrite E in S.
      apply substituted_head_inv in S as (s1 & -> & S);
        [|discriminate|discriminate].
      apply substituted_head_inv in S as (s2 & -> & _);
        [|discriminate|discriminate].
      cbn in Hs. discriminate.
    + injection E as _ E. apply IH. exists pre, post. exact E.
Qed.

Lemma substituted_fixed (s r : text) : substituted s r -> substituted r r.
Proof.
  intros H. pose proof (substituted_no_look_alike s r H) as N.
  induction H as [|s r _ IH|s r H IH|c s r Hc Hs H IH].
  - constructor.
  - unfold HYPHEN_MINUS in *. cbn [app] in *. apply substituted_other.
    + discriminate.
    + reflexivity.
    + apply IH. intros (pre & post & E). apply N. exists (45 :: pre), post.
      rewrite E. reflexivity.
  - unfold SPACE in *. cbn [app] in *. apply substituted_other.
    + discriminate.
    + reflexivity.
    + apply IH. intros (pre & post & E). apply N. exists (32 :: pre), post.
      rewrite E. reflexivity.
  - apply substituted_other.
    + exact Hc.
    + destruct (Py.startswith (c :: r) MINUS_LOOKALIKE) eqn:E; [|reflexivity].
      apply startswith_MINUS_inv in E as [post E]. exfalso. apply N.
      exists [], post. exact E.
    + apply IH. intros (pre & post & E). apply N. exists (c :: pre), post.
      rewrite E. reflexivity.
Qed.

Lemma normalize_characters_fixed (s : text) :
  normalize_characters (normalize_characters s) = normalize_characters s.
Proof.
  apply (substituted_functional (normalize_characters s)).
  - apply normalize_characters_substituted.
  - apply (substituted_fixed s). apply normalize_characters_substituted.
Qed.

Lemma dfs_string_again (s : text) : dfs_string (dfs_string s) = dfs_string s.
Proof.
  apply dfs_string_fixed. unfold dfs_string.
  destruct (Py.text_eqb (normalize_characters (Py.strip s)) FUNCTION_APPLICATION)
    eqn:E.
  - split; [reflexivity|]. split; [reflexivity | discriminate].
  - split; [rewrite <- strip_normalize_characters; apply strip_idempotent|].
    split; [apply normalize_characters_fixed|].
    intros F. apply (proj2 (text_eqb_eq _ _)) in F. congruence.
Qed.

End Substitution.

(** X1: what [normalize_characters] returns holds no thin space and no
    minus-sign look-alike any more. *)
Theorem normalize_characters_leaves_none (s : text) :
  ~ In 8201%Z (normalize_characters s)
  /\ ~ occurs MINUS_LOOKALIKE (normalize_characters s).
Proof.
  split.
  - apply normalize_characters_no_thin.
  - apply (substituted_no_look_alike s), normalize_characters_substituted.
Qed.

(** X2: [normalize_characters] is idempotent. *)
Theorem normalize_characters_idempotent (s : text) :
  normalize_characters (normalize_characters s) = normalize_characters s.
Proof. apply normalize_characters_fixed. Qed.

(** X3: a second call of [dfs] on a text leaf, whatever its parent, leaves
    the leaf as the first call left it: the text of the leaf, which no call
    changes, and the attribute [string], since the value the first call
    computed (trimmed, substituted, not the function-application marker) is
    what the second call reads and computes again. *)
Theorem normalized_leaf_is_fixed (p q : option string) (s : text) :
  exists t,
    dfs p (NavigableString s) = Ok (t, [t])
    /\ dfs q t = Ok (t, [t])
    /\ dfs_string (dfs_string s) = dfs_string s.
Proof.
  exists (NavigableString s). split; [reflexivity|]. split; [reflexivity|].
  apply dfs_string_again.
Qed.

(** X15: the value the leaf branch leaves in the attribute [string] of a
    leaf is tidy: it neither starts nor ends with white space, holds no
    thin space and no minus-sign look-alike, and is not the
    function-application marker alone.  (The text of the leaf is another
    matter: no call changes it.) *)
Theorem leaf_attribute_tidy (s : text) :
  ltrimmed (dfs_string s)
  /\ rtrimmed (dfs_string s)
  /\ ~ In 8201%Z (dfs_string s)
  /\ ~ occurs MINUS_LOOKALIKE (dfs_string s)
  /\ dfs_string s <> FUNCTION_APPLICATION.
Proof.
  destruct (proj1 (dfs_string_fixed (dfs_string s)) (dfs_string_again s))
    as (Hs & Hn & Hf).
  split; [rewrite <- Hs; apply strip_ltrimmed|].
  split; [rewrite <- Hs; apply strip_rtrimmed|].
  split; [rewrite <- Hn; apply normalize_characters_no_thin|].
  split; [|exact Hf].
  rewrite <- Hn.
  apply (substituted_no_look_alike (dfs_string s)),
    normalize_characters_substituted.
Qed.

(** X26: what the leaf branch computes.  The value it leaves in the
    attribute [string] of a leaf that reads [s] is [s] with each minus-sign
    look-alike replaced by a hyphen-minus and each thin space by a space,
    then without the white space at both ends, and empty when what is left
    is the function-application marker.  The source trims first and
    substitutes next; both orders give the same value. *)
Theorem leaf_attribute_substituted_then_trimmed (s : text) :
  exists r w1 w2 r',
    substituted s r
    /\ r = (w1 ++ r' ++ w2)%list
    /\ forallb Py.isspace w1 = true
    /\ forallb Py.isspace w2 = true
    /\ ltrimmed r'
    /\ rtrimmed r'
    /\ dfs_string s = erase_function_application r'.
Proof.
  destruct (strip_split (normalize_characters s)) as (w1 & w2 & E & W1 & W2).
  exists (normalize_characters s), w1, w2, (Py.strip (normalize_characters s)).
  split; [apply normalize_characters_substituted|].
  split; [exact E|]. split; [exact W1|]. split; [exact W2|].
  split; [apply strip_ltrimmed|]. split; [apply strip_rtrimmed|].
  unfold dfs_string, erase_function_application.
  rewrite <- strip_normalize_characters. reflexivity.
Qed.

(** ** [merge_mi] *)

Section MergeMi.

Local Open Scope list_scope.

Lemma merge_mi_loop_texts (a : text) (ss : list text) :
  merge_mi_loop (Some (mi_text a)) (map mi_text ss)
  = Ok [mi_text (a ++ List.concat ss)].
Proof.
  revert a. induction ss as [|b ss IH]; intros a.
  - cbn. rewrite app_nil_r. reflexivity.
  - cbn [map merge_mi_loop List.concat].
    change (name_is (mi_text b) "mi" && name_is (mi_text a) "mi") with true.
    cbn [get_string mi_text set_string]. fold (mi_text (a ++ b)).
    rewrite IH, app_assoc. reflexivity.
Qed.

Lemma merge_mi_loop_others (last_c : option node) (cs out : list node) :
  merge_mi_loop last_c cs = Ok out ->
  filter (fun c => negb (is_mi c)) out
  = filter (fun c => negb (is_mi c)) (opt_list last_c ++ cs).
Proof.
  revert last_c out. induction cs as [|c cs IH]; intros last_c out H.
  - cbn in H. injection H as <-. rewrite app_nil_r. reflexivity.
  - destruct last_c as [l|]; cbn [merge_mi_loop opt_list app] in *.
    + destruct (name_is c "mi" && name_is l "mi") eqn:E.
      * destruct (get_string l); [|discriminate].
        destruct (get_string c); [|discriminate].
        apply IH in H. rewrite H. apply andb_true_iff in E as [Ec El].
        cbn [opt_list app filter]. unfold is_mi.
        rewrite name_is_set_string, Ec, El. reflexivity.
      * destruct (merge_mi_loop (Some c) cs) as [rest|] eqn:R; cbn in H;
          [|discriminate].
        injection H as <-. apply IH in R. cbn [opt_list app] in R.
        cbn [filter]. rewrite R. reflexivity.
    + apply IH in H. exact H.
Qed.

End MergeMi.

(** X4: when [merge_mi] returns on an element that is not positional, no
    two neighbours among its children are both [mi] elements. *)
Theorem merge_mi_leaves_no_pair (name : string) (st st' : tstate) :
  dict_in (PyStr name) POSITIONAL_TAGS = false ->
  merge_mi name st = Ok st' ->
  no_mi_pair (kids st') = true.
Proof.
  intros Hp H. unfold merge_mi in H. rewrite Hp in H. cbn [negb] in H.
  destruct (merge_mi_loop None (kids st)) as [cs|] eqn:M; cbn [bind] in H;
    [|discriminate].
  injection H as <-. cbn [set_kids kids].
  apply (merge_mi_loop_settles None (kids st) cs M).
Qed.

Lemma merge_mi_leaves_no_pair_witness :
  no_mi_pair (kids (mkState None [] [mi "xy"; Tag "mo" [str "+"]; mi "z"]))
  = true.
Proof.
  apply (merge_mi_leaves_no_pair "mrow"
           (mkState None [] [mi "x"; mi "y"; Tag "mo" [str "+"]; mi "z"]));
    reflexivity.
Defined.

(** X5: [merge_mi] is idempotent: run again on what it returned, it
    returns the same. *)
Theorem merge_mi_idempotent (name : string) (st st' : tstate) :
  merge_mi name st = Ok st' -> merge_mi name st' = Ok st'.
Proof.
  unfold merge_mi. destruct (dict_in (PyStr name) POSITIONAL_TAGS); cbn [negb].
  - intros H. injection H as <-. reflexivity.
  - destruct (merge_mi_loop None (kids st)) as [cs|] eqn:M; cbn [bind];
      [|discriminate].
    intros H. injection H as <-. cbn [set_kids kids parent slot].
    apply merge_mi_loop_settles in M.
    rewrite (merge_mi_loop_no_pair None cs M). reflexivity.
Qed.

Lemma merge_mi_idempotent_witness :
  merge_mi "mrow" (mkState None [] [mi "xy"]) = Ok (mkState None [] [mi "xy"]).
Proof.
  apply (merge_mi_idempotent "mrow" (mkState None [] [mi "x"; mi "y"])).
  reflexivity.
Defined.

(** X6: on an element that is not positional and whose children are [mi]
    elements with one text each, [merge_mi] leaves a single [mi] whose text
    is the texts put end to end. *)
Theorem merge_mi_joins_texts (name : string) (p : option string)
  (sl : list node) (a : text) (ss : list text) :
  dict_in (PyStr name) POSITIONAL_TAGS = false ->
  merge_mi name (mkState p sl (map mi_text (a :: ss)))
  = Ok (mkState p sl [mi_text (List.concat (a :: ss))]).
Proof.
  intros Hp. unfold merge_mi. rewrite Hp. cbn [negb kids map merge_mi_loop].
  rewrite merge_mi_loop_texts. reflexivity.
Qed.

Lemma merge_mi_joins_texts_witness :
  merge_mi "mrow" (mkState None [] [mi "s"; mi "i"; mi "n"])
  = Ok (mkState None [] [mi "sin"]).
Proof.
  apply (merge_mi_joins_texts "mrow" None [] (text_of "s")
           [text_of "i"; text_of "n"]).
  reflexivity.
Defined.

(** X7: [merge_mi] drops and moves no child that is not an [mi] element. *)
Theorem merge_mi_keeps_others (name : string) (st st' : tstate) :
  merge_mi name st = Ok st' ->
  filter (fun c => negb (is_mi c)) (kids st')
  = filter (fun c => negb (is_mi c)) (kids st).
Proof.
  unfold merge_mi. destruct (dict_in (PyStr name) POSITIONAL_TAGS); cbn [negb].
  - intros H. injection H as <-. reflexivity.
  - destruct (merge_mi_loop None (kids st)) as [cs|] eqn:M; cbn [bind];
      [|discriminate].
    intros H. injection H as <-. cbn [set_kids kids].
    apply (merge_mi_loop_others None (kids st) cs M).
Qed.

Lemma merge_mi_keeps_others_witness :
  filter (fun c => negb (is_mi c))
    (kids (mkState None [] [mi "xy"; Tag "mo" [str "+"]; mi "z"]))
  = filter (fun c => negb (is_mi c))
      (kids (mkState None [] [mi "x"; mi "y"; Tag "mo" [str "+"]; mi "z"])).
Proof.
  apply (merge_mi_keeps_others "mrow"
           (mkState None [] [mi "x"; mi "y"; Tag "mo" [str "+"]; mi "z"])).
  reflexivity.
Defined.

(** ** [remove_empty_columns] *)

Section Pruning.

Local Open Scope list_scope.

Lemma subseq_refl {A : Type} (l : list A) : subseq l l.
Proof. induction l; constructor; assumption. Qed.

Lemma subseq_trans {A : Type} (a b c : list A) :
  subseq a b -> subseq b c -> subseq a c.
Proof.
  intros H1 H2. revert a H1.
  induction H2 as [|x b c _ IH|x b c _ IH]; intros a H1.
  - exact H1.
  - apply subseq_skip, IH, H1.
  - inversion H1; subst.
    + apply subseq_skip, IH. assumption.
    + apply subseq_keep, IH. assumption.
Qed.

Lemma list_del_subseq {A : Type} (l : list A) (i : nat) :
  subseq (list_del l i) l.
Proof.
  revert i. induction l as [|a l IH]; intros [|i]; cbn [list_del].
  - constructor.
  - constructor.
  - apply subseq_skip, subseq_refl.
  - apply subseq_keep, IH.
Qed.

Lemma list_del_beyond {A : Type} (l : list A) (i : nat) :
  List.length l <= i -> list_del l i = l.
Proof.
  revert i. induction l as [|a l IH]; intros [|i] H; cbn [list_del];
    try reflexivity.
  - cbn in H. lia.
  - rewrite IH; [reflexivity | cbn in H; lia].
Qed.

Lemma list_del_length_lt {A : Type} (l : list A) (i : nat) :
  i < List.length l -> S (List.length (list_del l i)) = List.length l.
Proof.
  revert i. induction l as [|a l IH]; intros [|i] H; cbn in *; try lia.
  rewrite IH; [reflexivity | lia].
Qed.

Lemma extract_cells_subseq (fuel : nat) (is_empty : list bool) (i j : nat)
  (contents out : list node) :
  extract_cells fuel is_empty i j contents = Ok out -> subseq out contents.
Proof.
  revert i j contents. induction fuel as [|fuel IH]; intros i j contents H.
  - cbn in H. injection H as <-. apply subseq_refl.
  - cbn [extract_cells] in H. destruct (nth_error contents i).
    + destruct (nth_error is_empty j) as [b|]; [|discriminate].
      apply IH in H. destruct b; [|exact H].
      apply (subseq_trans _ _ _ H), list_del_subseq.
    + injection H as <-. apply subseq_refl.
Qed.

(** The index into [is_empty] stays within bounds. *)
Lemma extract_cells_returns (fuel : nat) (is_empty : list bool) (i : nat)
  (contents : list node) :
  List.length contents <= List.length is_empty ->
  exists out, extract_cells fuel is_empty i i contents = Ok out.
Proof.
  revert i contents. induction fuel as [|fuel IH]; intros i contents H.
  - eexists. reflexivity.
  - cbn [extract_cells]. destruct (nth_error contents i) eqn:E.
    + assert (Hi : i < List.length contents)
        by (apply nth_error_Some; congruence).
      destruct (nth_error is_empty i) as [b|] eqn:Eb.
      * apply IH. destruct b; [|exact H].
        pose proof (list_del_length contents i). lia.
      * apply nth_error_None in Eb. lia.
    + eexists. reflexivity.
Qed.

Lemma extract_cells_none (fuel : nat) (is_empty : list bool) (i : nat)
  (contents : list node) :
  (forall j, i <= j < List.length contents ->
             nth_error is_empty j = Some false) ->
  extract_cells fuel is_empty i i contents = Ok contents.
Proof.
  revert i. induction fuel as [|fuel IH]; intros i H; [reflexivity|].
  cbn [extract_cells]. destruct (nth_error contents i) eqn:E; [|reflexivity].
  assert (Hi : i < List.length contents) by (apply nth_error_Some; congruence).
  rewrite (H i) by lia. apply IH. intros j Hj. apply H. lia.
Qed.

Lemma extract_cells_one (fuel : nat) (is_empty : list bool) (i j0 : nat)
  (contents : list node) :
  List.length contents < fuel + i ->
  i <= j0 < List.length contents ->
  nth_error is_empty j0 = Some true ->
  (forall j, i <= j < List.length contents -> j <> j0 ->
             nth_error is_empty j = Some false) ->
  extract_cells fuel is_empty i i contents = Ok (list_del contents j0).
Proof.
  revert i. induction fuel as [|fuel IH]; intros i Hf Hi Ht Hn; [lia|].
  cbn [extract_cells]. destruct (nth_error contents i) eqn:E.
  - destruct (Nat.eq_dec i j0) as [->|Hne].
    + rewrite Ht. cbv beta iota. apply extract_cells_none. intros j Hj.
      pose proof (list_del_length_lt contents j0 (proj2 Hi)).
      apply Hn; lia.
    + rewrite (Hn i) by lia. cbv beta iota. apply IH; try lia.
      * exact Ht.
      * intros j Hj. apply Hn. lia.
  - apply nth_error_None in E. lia.
Qed.

Lemma mapM_map {A B : Type} (f : A -> result B) (g : A -> B) (l : list A) :
  (forall a, In a l -> f a = Ok (g a)) -> mapM f l = Ok (map g l).
Proof.
  induction l as [|a l IH]; intros H; [reflexivity|].
  cbn [mapM map]. rewrite (H a) by (left; reflexivity). cbn [bind].
  rewrite IH by (intros b Hb; apply H; right; exact Hb). reflexivity.
Qed.

Lemma mapM_returns {A B : Type} (f : A -> result B) (l : list A) :
  (forall a, In a l -> exists b, f a = Ok b) -> exists bs, mapM f l = Ok bs.
Proof.
  induction l as [|a l IH]; intros H; [eexists; reflexivity|].
  destruct (H a) as [b Hb]; [left; reflexivity|].
  destruct IH as [bs Hbs]; [intros x Hx; apply H; right; exact Hx|].
  exists (b :: bs). cbn [mapM]. rewrite Hb. cbn [bind]. rewrite Hbs.
  reflexivity.
Qed.

Lemma mapM_Forall2 {A B : Type} (f : A -> result B) (l : list A)
  (bs : list B) :
  mapM f l = Ok bs -> Forall2 (fun a b => f a = Ok b) l bs.
Proof.
  revert bs. induction l as [|a l IH]; intros bs H.
  - cbn in H. injection H as <-. constructor.
  - cbn [mapM] in H. destruct (f a) as [b|] eqn:E; cbn [bind] in H;
      [|discriminate].
    destruct (mapM f l) as [bs'|]; cbn [bind] in H; [|discriminate].
    injection H as <-. constructor; [exact E | apply IH; reflexivity].
Qed.

Lemma row_widths_tags (rows : list node) :
  forallb is_tag rows = true -> mapM row_width rows = Ok (map width rows).
Proof.
  intros H. apply mapM_map. intros row Hin.
  rewrite forallb_forall in H. specialize (H row Hin).
  destruct row; [discriminate | reflexivity].
Qed.

Lemma row_widths_leaf (rows : list node) :
  forallb is_tag rows = false -> mapM row_width rows = Raise AttributeError.
Proof.
  induction rows as [|row rows IH]; [discriminate|].
  cbn [forallb mapM]. destruct row as [s | n cs]; [reflexivity|].
  cbn [is_tag andb row_width children_of bind]. intros H.
  rewrite (IH H). reflexivity.
Qed.

Lemma fold_left_max_le (l : list nat) (x : nat) :
  x <= fold_left Nat.max l x
  /\ Forall (fun w => w <= fold_left Nat.max l x) l.
Proof.
  revert x. induction l as [|a l IH]; intros x; cbn [fold_left].
  - split; [lia | constructor].
  - destruct (IH (Nat.max x a)) as [H1 H2]. split; [lia|].
    constructor; [lia | exact H2].
Qed.

Lemma fold_left_max_in (l : list nat) (x : nat) :
  In (fold_left Nat.max l x) (x :: l).
Proof.
  revert x. induction l as [|a l IH]; intros x; cbn [fold_left].
  - left. reflexivity.
  - destruct (IH (Nat.max x a)) as [H|H].
    + destruct (Nat.max_spec x a) as [[_ E]|[_ E]]; rewrite E in *.
      * right. left. exact H.
      * left. exact H.
    + right. right. exact H.
Qed.

Lemma nth_repeat_true (n k : nat) : nth k (repeat true n) false = (k <? n).
Proof.
  revert k. induction n as [|n IH]; intros [|k]; cbn [repeat nth];
    try reflexivity.
  apply IH.
Qed.

(** The column count and the flags of a table whose rows are elements. *)
Lemma prune_columns_flags (rows : list node) :
  rows <> [] ->
  forallb is_tag rows = true ->
  exists n e,
    py_max (map width rows) = Ok n
    /\ In n (map width rows)
    /\ Forall (fun row => width row <= n) rows
    /\ mark_rows (repeat true n) rows = Ok e
    /\ List.length e = n
    /\ (forall k, nth k e false = (k <? n) && forallb (cell_is_empty k) rows)
    /\ prune_columns rows = mapM (extract_row e) rows.
Proof.
  intros Hne Ht. destruct rows as [|row rows]; [contradiction|].
  set (rs := row :: rows) in *.
  exists (fold_left Nat.max (map width rows) (width row)).
  set (n := fold_left Nat.max (map width rows) (width row)).
  assert (Hw : Forall (fun r => width r <= n) rs).
  { destruct (fold_left_max_le (map width rows) (width row)) as [H1 H2].
    constructor; [exact H1|]. apply Forall_map in H2. exact H2. }
  destruct (mark_rows_spec rs (repeat true n) Ht) as (e & He & Hl & Hn).
  { rewrite repeat_length. exact Hw. }
  rewrite repeat_length in Hl. exists e.
  split; [reflexivity|].
  split; [apply (fold_left_max_in (map width rows) (width row))|].
  split; [exact Hw|]. split; [exact He|]. split; [exact Hl|].
  split.
  - intros k. rewrite Hn, nth_repeat_true. reflexivity.
  - unfold prune_columns. rewrite (row_widths_tags rs Ht). cbn [bind].
    change (py_max (map width rs)) with (@Ok nat n). cbn [bind].
    rewrite He. reflexivity.
Qed.

Lemma flag_false (e : list bool) (k : nat) :
  k < List.length e -> nth k e false = false -> nth_error e k = Some false.
Proof.
  intros Hk H. rewrite <- H. apply nth_error_nth'. exact Hk.
Qed.

Lemma flag_true (e : list bool) (k : nat) :
  nth k e false = true -> nth_error e k = Some true.
Proof.
  intros H. destruct (Nat.lt_ge_cases k (List.length e)) as [Hk|Hk].
  - rewrite <- H. apply nth_error_nth'. exact Hk.
  - rewrite nth_overflow in H by exact Hk. discriminate.
Qed.

End Pruning.

Section Returns.

Local Open Scope list_scope.

Lemma prune_columns_returns (rows : list node) :
  rows <> [] ->
  forallb is_tag rows = true ->
  exists rows', prune_columns rows = Ok rows'.
Proof.
  intros Hne Ht.
  destruct (prune_columns_flags rows Hne Ht)
    as (n & e & _ & _ & Hw & _ & Hl & _ & Hp).
  rewrite Hp. apply mapM_returns. intros r Hin.
  rewrite Forall_forall in Hw. specialize (Hw r Hin).
  rewrite forallb_forall in Ht. specialize (Ht r Hin).
  destruct r as [s | nm cs]; [discriminate|].
  unfold extract_row. cbn [children_of bind width] in *.
  destruct (extract_cells_returns (S (List.length cs)) e 0 cs) as [out Hout];
    [lia|].
  rewrite Hout. cbn [bind]. eexists. reflexivity.
Qed.

(** The exceptions of [prune_columns]. *)
Lemma prune_columns_raises (rows : list node) (e : exn) :
  prune_columns rows = Raise e ->
  (rows = [] /\ e = ValueError MaxOfEmpty)
  \/ (rows <> [] /\ forallb is_tag rows = false /\ e = AttributeError).
Proof.
  intros H. destruct rows as [|row rows].
  - cbn in H. injection H as <-. left. split; reflexivity.
  - right. split; [discriminate|].
    destruct (forallb is_tag (row :: rows)) eqn:Ht.
    + destruct (prune_columns_returns (row :: rows)) as [rows' E];
        [discriminate | exact Ht | congruence].
    + split; [reflexivity|]. unfold prune_columns in H.
      rewrite (row_widths_leaf _ Ht) in H. cbn [bind] in H. congruence.
Qed.

End Returns.

(** X8: on a table whose rows are elements, the column count is the
    largest row width, and a column is flagged empty exactly when the cell
    of every row in this column is an empty [mtd], a row that is too short
    counting as if it had one. *)
Theorem column_flags (rows : list node) :
  rows <> [] ->
  forallb is_tag rows = true ->
  exists n_columns is_empty,
    (widths <- mapM row_width rows ;; py_max widths) = Ok n_columns
    /\ In n_columns (map width rows)
    /\ Forall (fun row => width row <= n_columns) rows
    /\ mark_rows (repeat true n_columns) rows = Ok is_empty
    /\ List.length is_empty = n_columns
    /\ forall k, k < n_columns ->
                 nth k is_empty false = forallb (cell_is_empty k) rows.
Proof.
  intros Hne Ht.
  destruct (prune_columns_flags rows Hne Ht)
    as (n & e & Hmax & Hin & Hw & He & Hl & Hn & _).
  exists n, e. rewrite (row_widths_tags rows Ht). cbn [bind].
  repeat (split; [assumption|]).
  intros k Hk. rewrite Hn. apply Nat.ltb_lt in Hk. rewrite Hk. reflexivity.
Qed.

Lemma column_flags_witness :
  exists n_columns is_empty,
    (widths <- mapM row_width [mtr [mtd []; mtd [mi "a"]]; mtr [mtd []]] ;;
     py_max widths) = Ok n_columns
    /\ In n_columns (map width [mtr [mtd []; mtd [mi "a"]]; mtr [mtd []]])
    /\ Forall (fun row => width row <= n_columns)
         [mtr [mtd []; mtd [mi "a"]]; mtr [mtd []]]
    /\ mark_rows (repeat true n_columns)
         [mtr [mtd []; mtd [mi "a"]]; mtr [mtd []]] = Ok is_empty
    /\ List.length is_empty = n_columns
    /\ forall k, k < n_columns ->
                 nth k is_empty false
                 = forallb (cell_is_empty k)
                     [mtr [mtd []; mtd [mi "a"]]; mtr [mtd []]].
Proof.
  apply (column_flags [mtr [mtd []; mtd [mi "a"]]; mtr [mtd []]]);
    [discriminate | reflexivity].
Defined.

(** X9: what [remove_empty_columns] does on an [mtable]: it returns, with
    as many rows as before, exactly when the table has a row and all its
    rows are elements; it raises the [ValueError] of [max] on a table
    without rows and [AttributeError] on a table one of whose children is a
    text leaf.  It never raises [IndexError]. *)
Theorem remove_empty_columns_outcome (p : option string)
  (sl rows : list node) :
  match remove_empty_columns "mtable" (mkState p sl rows) with
  | Ok st =>
      rows <> [] /\ forallb is_tag rows = true
      /\ parent st = p /\ slot st = sl
      /\ List.length (kids st) = List.length rows
  | Raise e =>
      (rows = [] /\ e = ValueError MaxOfEmpty)
      \/ (rows <> [] /\ forallb is_tag rows = false /\ e = AttributeError)
  end.
Proof.
  unfold remove_empty_columns. change (String.eqb "mtable" "mtable") with true.
  cbn [kids]. destruct (prune_columns rows) as [rows'|e] eqn:E; cbn [bind].
  - cbn [set_kids kids parent slot].
    assert (Hne : rows <> []) by (intros ->; discriminate).
    split; [exact Hne|].
    destruct (forallb is_tag rows) eqn:Ht.
    + split; [reflexivity|]. split; [reflexivity|]. split; [reflexivity|].
      destruct (prune_columns_flags rows Hne Ht) as (n & fl & H).
      destruct H as (_ & _ & _ & _ & _ & _ & Hp). rewrite Hp in E.
      apply mapM_Forall2, Forall2_length in E. symmetry. exact E.
    + unfold prune_columns in E. rewrite (row_widths_leaf rows Ht) in E.
      discriminate.
  - apply prune_columns_raises, E.
Qed.

(** X10: [remove_empty_columns] leaves a table as it is when each of its
    columns has a cell that is not an empty [mtd]. *)
Theorem remove_empty_columns_nothing_empty (p : option string)
  (sl rows : list node) :
  rows <> [] ->
  forallb is_tag rows = true ->
  (forall j row, In row rows -> j < width row ->
                 forallb (cell_is_empty j) rows = false) ->
  remove_empty_columns "mtable" (mkState p sl rows) = Ok (mkState p sl rows).
Proof.
  intros Hne Ht Hcol.
  destruct (prune_columns_flags rows Hne Ht)
    as (n & e & _ & _ & Hw & _ & Hl & Hn & Hp).
  unfold remove_empty_columns. change (String.eqb "mtable" "mtable") with true.
  cbn [kids]. rewrite Hp.
  rewrite (mapM_map (extract_row e) (fun row => row)), map_id; [reflexivity|].
  intros row Hin. rewrite Forall_forall in Hw. pose proof (Hw row Hin) as Hwr.
  rewrite forallb_forall in Ht. specialize (Ht row Hin).
  destruct row as [s | nm cs]; [discriminate|].
  unfold extract_row. cbn [children_of bind width] in *.
  rewrite extract_cells_none; [reflexivity|].
  intros j Hj. apply flag_false; [lia|].
  rewrite Hn, (Hcol j (Tag nm cs) Hin) by (cbn; lia). apply andb_false_r.
Qed.

Lemma remove_empty_columns_nothing_empty_witness :
  remove_empty_columns "mtable"
    (mkState None [] [mtr [mtd [mi "a"]; mtd []]; mtr [mtd []; mtd [mi "b"]]])
  = Ok (mkState None []
          [mtr [mtd [mi "a"]; mtd []]; mtr [mtd []; mtd [mi "b"]]]).
Proof.
  apply remove_empty_columns_nothing_empty; [discriminate | reflexivity|].
  intros j row Hin Hj.
  destruct Hin as [<-|[<-|[]]]; destruct j as [|[|j]]; cbn in Hj;
    try lia; reflexivity.
Defined.

(** X11: when one column only is empty, [remove_empty_columns] detaches
    the cell of this column from every row that has one, and nothing else. *)
Theorem remove_empty_columns_one_empty (p : option string)
  (sl rows : list node) (j0 : nat) :
  rows <> [] ->
  forallb is_tag rows = true ->
  forallb (cell_is_empty j0) rows = true ->
  (forall j row, In row rows -> j < width row -> j <> j0 ->
                 forallb (cell_is_empty j) rows = false) ->
  remove_empty_columns "mtable" (mkState p sl rows)
  = Ok (mkState p sl (map (without_cell j0) rows)).
Proof.
  intros Hne Ht Hj0 Hcol.
  destruct (prune_columns_flags rows Hne Ht)
    as (n & e & _ & _ & Hw & _ & Hl & Hn & Hp).
  unfold remove_empty_columns. change (String.eqb "mtable" "mtable") with true.
  cbn [kids]. rewrite Hp.
  rewrite (mapM_map (extract_row e) (without_cell j0)); [reflexivity|].
  intros row Hin. rewrite Forall_forall in Hw. pose proof (Hw row Hin) as Hwr.
  rewrite forallb_forall in Ht. specialize (Ht row Hin).
  destruct row as [s | nm cs]; [discriminate|].
  unfold extract_row, without_cell.
  cbn [children_of bind width cells with_children] in *.
  assert (Hfalse : forall j, j < List.length cs -> j <> j0 ->
                             nth_error e j = Some false).
  { intros j Hj Hne0. apply flag_false; [lia|].
    rewrite Hn, (Hcol j (Tag nm cs) Hin) by (cbn; lia || exact Hne0).
    apply andb_false_r. }
  destruct (Nat.lt_ge_cases j0 (List.length cs)) as [Hlt|Hge].
  - rewrite (extract_cells_one _ e 0 j0 cs); [reflexivity | lia | lia | |].
    + apply flag_true. rewrite Hn, Hj0.
      replace (j0 <? n) with true by (symmetry; apply Nat.ltb_lt; lia).
      reflexivity.
    + intros j Hj Hne0. apply Hfalse; [lia | exact Hne0].
  - rewrite extract_cells_none, (list_del_beyond cs j0 Hge); [reflexivity|].
    intros j Hj. apply Hfalse; lia.
Qed.

Lemma remove_empty_columns_one_empty_witness :
  remove_empty_columns "mtable"
    (mkState None [] [mtr [mtd [mi "a"]; mtd []]; mtr [mtd [mi "a"]; mtd []]])
  = Ok (mkState None []
          (map (without_cell 1)
             [mtr [mtd [mi "a"]; mtd []]; mtr [mtd [mi "a"]; mtd []]])).
Proof.
  apply remove_empty_columns_one_empty;
    [discriminate | reflexivity | reflexivity|].
  intros j row Hin Hj Hne.
  destruct Hin as [<-|[<-|[]]]; destruct j as [|[|j]]; cbn in Hj;
    try lia; try contradiction; reflexivity.
Defined.

Section Rows.

Local Open Scope list_scope.

(** Each row after [remove_empty_columns] is the row before with some of
    its cells left out. *)
Lemma remove_empty_columns_rows (name : string) (st st' : tstate) :
  remove_empty_columns name st = Ok st' ->
  parent st' = parent st /\ slot st' = slot st
  /\ Forall2 (fun row row' =>
                row' = with_children row (cells row')
                /\ subseq (cells row') (cells row))
       (kids st) (kids st').
Proof.
  unfold remove_empty_columns. destruct (String.eqb name "mtable").
  - destruct (prune_columns (kids st)) as [rows'|] eqn:P; cbn [bind];
      [|discriminate].
    intros H. injection H as <-. cbn [set_kids parent slot kids].
    split; [reflexivity|]. split; [reflexivity|].
    unfold prune_columns in P.
    destruct (mapM row_width (kids st)) as [ws|]; cbn [bind] in P;
      [|discriminate].
    destruct (py_max ws) as [n|]; cbn [bind] in P; [|discriminate].
    destruct (mark_rows (repeat true n) (kids st)) as [e|]; cbn [bind] in P;
      [|discriminate].
    apply mapM_Forall2 in P. apply Forall2_impl with (2 := P).
    intros row row' H. unfold extract_row in H.
    destruct row as [s | nm cs]; [discriminate|]. cbn [children_of bind] in H.
    destruct (extract_cells (S (List.length cs)) e 0 0 cs) as [out|] eqn:X;
      cbn [bind] in H; [|discriminate].
    injection H as <-. cbn [with_children cells].
    split; [reflexivity|]. apply (extract_cells_subseq _ _ _ _ _ _ X).
  - intros H. injection H as <-. split; [reflexivity|]. split; [reflexivity|].
    induction (kids st) as [|c cs IH]; constructor; [|exact IH].
    split; [destruct c; reflexivity | apply subseq_refl].
Qed.

End Rows.

(** X12: [remove_empty_columns] keeps the rows, their order and their
    tags, and leaves in each row some of its cells, in their order; the
    element itself stays where it is. *)
Theorem remove_empty_columns_keeps_rows (name : string) (st st' : tstate) :
  remove_empty_columns name st = Ok st' ->
  parent st' = parent st /\ slot st' = slot st
  /\ Forall2 (fun row row' =>
                name_of row' = name_of row
                /\ subseq (cells row') (cells row))
       (kids st) (kids st').
Proof.
  intros H. apply remove_empty_columns_rows in H as (Hp & Hs & Hr).
  split; [exact Hp|]. split; [exact Hs|].
  apply Forall2_impl with (2 := Hr). intros row row' [E S].
  split; [|exact S]. rewrite E. destruct row; reflexivity.
Qed.

Lemma remove_empty_columns_keeps_rows_witness :
  parent (mkState None [] [mtr [mtd [mi "a"]]; mtr [mtd [mi "a"]]]) = None
  /\ slot (mkState None [] [mtr [mtd [mi "a"]]; mtr [mtd [mi "a"]]]) = []
  /\ Forall2 (fun row row' =>
                name_of row' = name_of row
                /\ subseq (cells row') (cells row))
       [mtr [mtd [mi "a"]; mtd []]; mtr [mtd [mi "a"]; mtd []]]
       (kids (mkState None [] [mtr [mtd [mi "a"]]; mtr [mtd [mi "a"]]])).
Proof.
  apply (remove_empty_columns_keeps_rows "mtable"
           (mkState None []
              [mtr [mtd [mi "a"]; mtd []]; mtr [mtd [mi "a"]; mtd []]])).
  reflexivity.
Defined.

(** ** Properties of nodes that the traversal keeps *)

Section Invariant.

Local Open Scope list_scope.

(** [P] is assumed of the tree [dfs] is called on, [Q] is shown of what
    stands in its place afterwards. *)
Variables P Q : node -> bool.

Hypothesis P_children : forall n cs,
  P (Tag n cs) = true -> String.eqb n "annotation" = false ->
  forallb P cs = true.
Hypothesis P_semantics : forall c, P (Tag "semantics" [c]) = true -> Q c = true.
Hypothesis Q_leaf : forall s,
  P (NavigableString s) = true -> Q (NavigableString s) = true.
Hypothesis Q_merge : forall l c a b,
  Q l = true -> Q c = true ->
  get_string l = Some a -> get_string c = Some b ->
  name_is c "mi" = true ->
  Q (set_string c (a ++ b)) = true.
Hypothesis Q_children : forall n cs, Q (Tag n cs) = true -> forallb Q cs = true.
Hypothesis Q_tag : forall n cs0 cs,
  P (Tag n cs0) = true -> String.eqb n "annotation" = false ->
  required_arity_met n cs = true -> forallb Q cs = true ->
  Q (Tag n cs) = true.
Hypothesis Q_rows : forall cs0 m cs cs',
  P (Tag "mtable" cs0) = true ->
  Q (Tag m cs) = true -> subseq cs' cs -> Q (Tag m cs') = true.

Let kept (st : tstate) : Prop :=
  forallb Q (kids st) = true /\ forallb Q (slot st) = true.

Lemma merge_mi_kept (name : string) (st st' : tstate) :
  merge_mi name st = Ok st' -> kept st -> kept st'.
Proof.
  unfold merge_mi, kept. destruct (negb (dict_in (PyStr name) POSITIONAL_TAGS)).
  - destruct (merge_mi_loop None (kids st)) as [cs|] eqn:M; cbn [bind];
      [|discriminate].
    intros H [Hk Hs]. injection H as <-. cbn [set_kids kids slot].
    split; [|exact Hs].
    apply (merge_mi_loop_forallb Q Q_merge None (kids st) cs M). exact Hk.
  - intros H. injection H as <-. exact (fun H => H).
Qed.

Lemma extract_kept (st : tstate) : kept st -> kept (extract st).
Proof.
  unfold extract, kept. destruct (parent st); [|exact (fun H => H)].
  cbn [kids slot forallb]. intros [Hk _]. split; [exact Hk | reflexivity].
Qed.

Lemma replace_with_children_kept (st st' : tstate) :
  replace_with_children st = Ok st' -> kept st -> kept st'.
Proof.
  unfold replace_with_children, kept. destruct (parent st); [|discriminate].
  intros H [Hk _]. injection H as <-. cbn [kids slot forallb].
  split; [reflexivity | exact Hk].
Qed.

Lemma unwrap_single_table_kept (c : node) :
  Q c = true -> forallb Q (unwrap_single_table c) = true.
Proof.
  intros Hc. assert (Hsame : forallb Q [c] = true)
    by (cbn [forallb]; rewrite Hc; reflexivity).
  unfold unwrap_single_table.
  destruct (check_single_name c "mtable"); [|exact Hsame].
  destruct c as [s | n [|gc tl]]; try exact Hsame.
  destruct (check_single_name gc "mtr"); [|exact Hsame].
  destruct gc as [s | n1 [|[s | n2 ggcs] tl1]]; try exact Hsame.
  destruct (String.eqb n2 "mtd"); [|exact Hsame].
  apply Q_children in Hc. cbn [forallb] in Hc.
  apply andb_true_iff in Hc as [Hgc _].
  apply Q_children in Hgc. cbn [forallb] in Hgc.
  apply andb_true_iff in Hgc as [Hggc _].
  apply (Q_children n2 ggcs Hggc).
Qed.

Lemma remove_single_table_kept (st : tstate) :
  kept st -> kept (remove_single_table st).
Proof.
  unfold remove_single_table, kept. cbn [set_kids kids slot].
  intros [Hk Hs]. split; [|exact Hs].
  induction (kids st) as [|c cs IH]; [reflexivity|].
  cbn [forallb flat_map] in *. apply andb_true_iff in Hk as [Hc Hk].
  rewrite forallb_app, (unwrap_single_table_kept c Hc), (IH Hk). reflexivity.
Qed.

Lemma remove_empty_columns_kept (name : string) (cs0 : list node)
  (st st' : tstate) :
  (String.eqb name "mtable" = true -> P (Tag "mtable" cs0) = true) ->
  remove_empty_columns name st = Ok st' -> kept st -> kept st'.
Proof.
  intros Hp H [Hk Hs]. unfold kept.
  pose proof (remove_empty_columns_rows name st st' H) as (_ & Hsl & Hr).
  rewrite Hsl. split; [|exact Hs].
  unfold remove_empty_columns in H.
  destruct (String.eqb name "mtable"); [|injection H as <-; exact Hk].
  specialize (Hp eq_refl). clear H.
  induction Hr as [|row row' rows rows' [E S] _ IH]; [reflexivity|].
  cbn [forallb] in *. apply andb_true_iff in Hk as [Hrow Hk].
  rewrite (IH Hk), andb_true_r. rewrite E.
  destruct row as [s | m cs]; [exact Hrow|]. cbn [with_children].
  apply (Q_rows cs0 m cs (cells row') Hp Hrow S).
Qed.

Lemma validate_met (name : string) (st st' : tstate) :
  validate name st = Ok st' ->
  st' = st /\ required_arity_met name (kids st) = true.
Proof.
  unfold validate, required_arity_met.
  destruct (dict_get POSITIONAL_TAGS name) as [k|].
  - destruct (k =? List.length (kids st)); cbn [negb]; [|discriminate].
    intros H. injection H as <-. split; reflexivity.
  - intros H. injection H as <-. split; reflexivity.
Qed.

Lemma rules_kept (name : string) (cs0 : list node) (st0 st : tstate) :
  (String.eqb name "mtable" = true -> P (Tag "mtable" cs0) = true) ->
  rules name st0 = Ok st ->
  kept st0 ->
  kept st /\ required_arity_met name (kids st) = true.
Proof.
  intros Hp H K0. unfold rules, restructure in H.
  destruct (merge_mi name st0) as [st1|] eqn:M; cbn [bind] in H;
    [|discriminate].
  pose proof (merge_mi_kept name st0 st1 M K0) as K1.
  destruct (if String.eqb name "mrow" && (List.length (kids st1) =? 1)
            then replace_with_children st1 else Ok st1) as [st2|] eqn:C;
    cbn [bind] in H; [|discriminate].
  assert (K2 : kept st2).
  { destruct (String.eqb name "mrow" && (List.length (kids st1) =? 1)).
    - apply (replace_with_children_kept st1 st2 C K1).
    - injection C as <-. exact K1. }
  assert (K3 : kept (remove_empty_tag name st2)).
  { unfold remove_empty_tag.
    destruct ((List.length (kids st2) =? 0) && negb (list_in name EMPTY_TAGS));
      [|exact K2].
    destruct (parent st2) as [q|]; [|exact K2].
    destruct (negb (dict_in (PyTag q) POSITIONAL_TAGS)); [|exact K2].
    apply extract_kept, K2. }
  assert (K4 : kept (remove_empty_row name (remove_empty_tag name st2))).
  { unfold remove_empty_row at 1.
    destruct (String.eqb name "mtr"
              && forallb is_empty_mtd (kids (remove_empty_tag name st2)));
      [apply extract_kept|]; exact K3. }
  destruct (remove_empty_columns name
              (remove_empty_row name (remove_empty_tag name st2)))
    as [st5|] eqn:F; cbn [bind] in H; [|discriminate].
  pose proof (remove_empty_columns_kept name cs0 _ st5 Hp F K4) as K5.
  apply validate_met in H as [-> Hv].
  split; [apply remove_single_table_kept, K5 | exact Hv].
Qed.

Lemma annotation_detached (p : string) (cs : list node)
  (r : node * list node) :
  dfs (Some p) (Tag "annotation" cs) = Ok r -> snd r = [].
Proof.
  cbn [dfs]. unfold enter. change (String.eqb "annotation" "annotation") with true.
  cbn [extract parent kids bind]. unfold rules.
  rewrite restructure_eq by reflexivity.
  destruct (merged "annotation" cs) as [cs1|]; cbn [bind]; [|discriminate].
  change (String.eqb "annotation" "mrow") with false. cbn [andb bind].
  unfold validate.
  change (dict_get POSITIONAL_TAGS "annotation") with (@None nat).
  destruct (goes "annotation" cs1); cbn [bind]; intros H; injection H as <-;
    reflexivity.
Qed.

Lemma dfs_children_kept (name : string) (cs ks : list node) :
  Forall (fun c => forall p r, P c = true -> dfs (Some p) c = Ok r ->
                    forallb Q (snd r) = true) cs ->
  forallb P cs = true ->
  dfs_children (dfs (Some name)) cs = Ok ks ->
  forallb Q ks = true.
Proof.
  intros IH. revert ks. induction IH as [|c cs Hc _ IH]; intros ks HP H.
  - cbn in H. injection H as <-. reflexivity.
  - cbn [forallb] in HP. apply andb_true_iff in HP as [HPc HP].
    cbn [dfs_children] in H.
    destruct (dfs (Some name) c) as [r|] eqn:D; cbn [bind] in H; [|discriminate].
    destruct (dfs_children (dfs (Some name)) cs) as [rs|]; cbn [bind] in H;
      [|discriminate].
    injection H as <-. rewrite forallb_app.
    rewrite (Hc name r HPc D), (IH rs HP eq_refl). reflexivity.
Qed.

(** Below a parent, [Q] holds of every node that stands in the place of a
    tree that has [P]. *)
Lemma dfs_kept (t : node) :
  forall p r, P t = true -> dfs (Some p) t = Ok r ->
              forallb Q (snd r) = true.
Proof.
  induction t as [s | name cs IH] using node_ind; intros p r HP H.
  - cbn [dfs] in H. injection H as <-. cbn [snd forallb].
    rewrite (Q_leaf s HP). reflexivity.
  - destruct (String.eqb name "annotation") eqn:Ha.
    + apply String.eqb_eq in Ha. subst name.
      rewrite (annotation_detached p cs r H). reflexivity.
    + cbn [dfs] in H. unfold enter in H. rewrite Ha in H.
      destruct (String.eqb name "semantics" && (List.length cs =? 1)) eqn:Hs.
      * apply andb_true_iff in Hs as [Hn Hl]. apply String.eqb_eq in Hn.
        subst name. destruct cs as [|c [|d cs]]; try discriminate.
        cbn in H. injection H as <-. cbn [snd forallb].
        rewrite (P_semantics c HP). reflexivity.
      * destruct (dfs_children (dfs (Some name)) cs) as [ks|] eqn:K;
          cbn [bind] in H; [|discriminate].
        unfold set_kids in H. cbn [parent slot] in H.
        destruct (rules name (mkState (Some p) [] ks)) as [st|] eqn:R;
          cbn [bind] in H; [|discriminate].
        injection H as <-. cbn [snd].
        assert (Hks : forallb Q ks = true)
          by (apply (dfs_children_kept name cs ks IH (P_children name cs HP Ha) K)).
        destruct (rules_kept name cs (mkState (Some p) [] ks) st) as [[Hk Hsl] Hv].
        { intros E. apply String.eqb_eq in E. subst name. exact HP. }
        { exact R. }
        { split; [exact Hks | reflexivity]. }
        unfold in_parent. destruct (parent st); [|exact Hsl].
        cbn [forallb]. rewrite (Q_tag name cs (kids st) HP Ha Hv Hk).
        reflexivity.
Qed.

(** [Q] holds of the tree [normalize] returns, when the root is not an
    [annotation]. *)
Lemma normalize_kept (soup root : node) :
  P soup = true ->
  name_is soup "annotation" = false ->
  normalize soup = Ok root ->
  Q root = true.
Proof.
  intros HP Hroot H. unfold normalize in H.
  destruct (dfs None soup) as [[t out]|] eqn:D; cbn [bind fst] in H;
    [|discriminate].
  injection H as <-. destruct soup as [s | name cs].
  - cbn [dfs] in D. injection D as <- _. apply (Q_leaf s HP).
  - unfold name_is in Hroot. cbn [name_of] in Hroot.
    cbn [dfs] in D. unfold enter in D. rewrite Hroot in D.
    destruct (String.eqb name "semantics" && (List.length cs =? 1));
      [discriminate|].
    destruct (dfs_children (dfs (Some name)) cs) as [ks|] eqn:K;
      cbn [bind] in D; [|discriminate].
    unfold set_kids in D. cbn [parent slot] in D.
    destruct (rules name (mkState None [] ks)) as [st|] eqn:R;
      cbn [bind] in D; [|discriminate].
    injection D as <- _.
    assert (Hks : forallb Q ks = true).
    { apply (dfs_children_kept name cs ks); [|exact (P_children name cs HP Hroot)|exact K].
      apply Forall_forall. intros c _. apply dfs_kept. }
    destruct (rules_kept name cs (mkState None [] ks) st) as [[Hk _] Hv].
    { intros E. apply String.eqb_eq in E. subst name. exact HP. }
    { exact R. }
    { split; [exact Hks | reflexivity]. }
    apply (Q_tag name cs (kids st) HP Hroot Hv Hk).
Qed.

End Invariant.

Section Instances.

Local Open Scope list_scope.

Lemma forallb_subseq {A : Type} (f : A -> bool) (l' l : list A) :
  subseq l' l -> forallb f l = true -> forallb f l' = true.
Proof.
  induction 1 as [|a l' l _ IH|a l' l _ IH]; cbn [forallb]; intros H.
  - reflexivity.
  - apply andb_true_iff in H as [_ H]. apply IH, H.
  - apply andb_true_iff in H as [Ha H]. rewrite Ha, (IH H). reflexivity.
Qed.

Lemma forallb_flat_map {A B : Type} (f : B -> bool) (g : A -> list B)
  (l : list A) :
  forallb f (flat_map g l) = forallb (fun a => forallb f (g a)) l.
Proof.
  induction l as [|a l IH]; [reflexivity|].
  cbn [flat_map forallb]. rewrite forallb_app, IH. reflexivity.
Qed.

Lemma has_tag_children (m n : string) (cs : list node) :
  has_tag m (Tag n cs) = false ->
  String.eqb n m = false
  /\ forallb (fun c => negb (has_tag m c)) cs = true.
Proof.
  cbn [has_tag]. intros H. apply orb_false_iff in H as [Hn H].
  split; [exact Hn|]. induction cs as [|c cs IH]; [reflexivity|].
  cbn [existsb forallb] in *. apply orb_false_iff in H as [Hc H].
  rewrite Hc, (IH H). reflexivity.
Qed.

Lemma has_tag_tag (m n : string) (cs : list node) :
  String.eqb n m = false ->
  forallb (fun c => negb (has_tag m c)) cs = true ->
  has_tag m (Tag n cs) = false.
Proof.
  cbn [has_tag]. intros Hn H. rewrite Hn. cbn [orb].
  induction cs as [|c cs IH]; [reflexivity|].
  cbn [existsb forallb] in *. apply andb_true_iff in H as [Hc H].
  apply negb_true_iff in Hc. rewrite Hc, (IH H). reflexivity.
Qed.

(** The hypotheses of the section above for [Q t]: the tag [m] does not
    occur in [t]. *)
Lemma tag_free_merge (m : string) (l c : node) (a b : text) :
  negb (has_tag m l) = true -> negb (has_tag m c) = true ->
  get_string l = Some a -> get_string c = Some b ->
  name_is c "mi" = true ->
  negb (has_tag m (set_string c (a ++ b))) = true.
Proof.
  intros _ Hc _ _ Hmi. destruct c as [s | n cs]; [discriminate|].
  apply negb_true_iff in Hc. apply has_tag_children in Hc as [Hn _].
  cbn [set_string has_tag existsb]. rewrite Hn. reflexivity.
Qed.

Lemma tag_free_children (m n : string) (cs : list node) :
  negb (has_tag m (Tag n cs)) = true ->
  forallb (fun c => negb (has_tag m c)) cs = true.
Proof.
  intros H. apply negb_true_iff in H. apply (has_tag_children m n cs H).
Qed.

Lemma tag_free_rows (m : string) (n : string) (cs cs' : list node) :
  negb (has_tag m (Tag n cs)) = true -> subseq cs' cs ->
  negb (has_tag m (Tag n cs')) = true.
Proof.
  intros H S. apply negb_true_iff in H.
  apply has_tag_children in H as [Hn H]. apply negb_true_iff.
  apply has_tag_tag; [exact Hn|]. apply (forallb_subseq _ cs' cs S H).
Qed.

Lemma single_child_semantics_excluded (c : node) :
  no_single_child_semantics (Tag "semantics" [c]) = false.
Proof. reflexivity. Qed.

Lemma no_single_child_semantics_children (n : string) (cs : list node) :
  no_single_child_semantics (Tag n cs) = true ->
  String.eqb n "annotation" = false ->
  forallb no_single_child_semantics cs = true.
Proof.
  cbn [no_single_child_semantics]. intros H Ha. rewrite Ha in H.
  cbn [orb] in H. apply andb_true_iff in H as [_ H]. exact H.
Qed.

(** Texts. *)
End Instances.

(** X13: when no [semantics] element of the tree has exactly one child and
    the root is not an [annotation], the tree that [normalize] returns has
    no [annotation] element. *)
Theorem no_annotation_left (soup root : node) :
  no_single_child_semantics soup = true ->
  name_is soup "annotation" = false ->
  normalize soup = Ok root ->
  has_tag "annotation" root = false.
Proof.
  intros HP Hroot H. apply negb_true_iff.
  apply (normalize_kept no_single_child_semantics
           (fun t => negb (has_tag "annotation" t))) with (soup := soup);
    try assumption.
  - exact no_single_child_semantics_children.
  - intros c E. rewrite single_child_semantics_excluded in E. discriminate.
  - reflexivity.
  - apply tag_free_merge.
  - apply tag_free_children.
  - intros n cs0 cs _ Ha _ Hcs. apply negb_true_iff.
    apply has_tag_tag; assumption.
  - intros cs0 m cs cs' _. apply tag_free_rows.
Qed.

Lemma no_annotation_left_witness :
  has_tag "annotation" (document [semantics [mi "x"]]) = false.
Proof.
  apply (no_annotation_left
           (document [semantics [mrow [mi "x"]; annotation [str "x"]]]));
    reflexivity.
Defined.

(** X14: when the tree has no [mtable] element and no [semantics] element
    with exactly one child, and the root is not an [annotation], every
    element of the tree that [normalize] returns has the number of children
    its tag requires. *)
Theorem arity_met_everywhere (soup root : node) :
  no_single_child_semantics soup = true ->
  has_tag "mtable" soup = false ->
  name_is soup "annotation" = false ->
  normalize soup = Ok root ->
  arity_ok root = true.
Proof.
  intros Hs Ht Hroot H.
  apply (normalize_kept
           (fun t => no_single_child_semantics t && negb (has_tag "mtable" t))
           arity_ok) with (soup := soup); try assumption.
  - intros n cs HP Ha. apply andb_true_iff in HP as [H1 H2].
    apply no_single_child_semantics_children in H1; [|exact Ha].
    apply tag_free_children in H2.
    rewrite forallb_forall in H1, H2. apply forallb_forall. intros c Hc.
    rewrite (H1 c Hc), (H2 c Hc). reflexivity.
  - intros c E. rewrite single_child_semantics_excluded in E. discriminate.
  - reflexivity.
  - intros l c a b _ _ _ _ Hmi. destruct c as [s | n cs]; [discriminate|].
    unfold name_is in Hmi. cbn [name_of] in Hmi. apply String.eqb_eq in Hmi.
    subst n. reflexivity.
  - intros n cs E. cbn [arity_ok] in E. apply andb_true_iff in E as [_ E].
    exact E.
  - intros n cs0 cs _ _ Hv Hcs. cbn [arity_ok]. rewrite Hcs, andb_true_r.
    unfold required_arity_met in Hv.
    destruct (dict_get POSITIONAL_TAGS n); [|reflexivity].
    rewrite Nat.eqb_sym. exact Hv.
  - intros cs0 m cs cs' E. apply andb_true_iff in E as [_ E].
    cbn in E. discriminate.
  - rewrite Hs, Ht. reflexivity.
Qed.

Lemma arity_met_everywhere_witness :
  arity_ok (document [msub [mi "x"; mi "y"]]) = true.
Proof.
  apply (arity_met_everywhere
           (document [mrow [msub [mrow [mi "x"]; mi "y"; annotation []]]]));
    reflexivity.
Defined.

(** X16: [normalize] makes up no tag: a tag that no element of the tree
    has is the tag of no element of the tree it returns (the root not being
    an [annotation]). *)
Theorem no_new_tag (m : string) (soup root : node) :
  has_tag m soup = false ->
  name_is soup "annotation" = false ->
  normalize soup = Ok root ->
  has_tag m root = false.
Proof.
  intros HP Hroot H. apply negb_true_iff.
  apply (normalize_kept (fun t => negb (has_tag m t))
           (fun t => negb (has_tag m t))) with (soup := soup);
    try assumption.
  - intros n cs E _. apply (tag_free_children m n cs E).
  - intros c E. apply tag_free_children in E. cbn [forallb] in E.
    apply andb_true_iff in E as [E _]. exact E.
  - reflexivity.
  - apply tag_free_merge.
  - apply tag_free_children.
  - intros n cs0 cs E _ _ Hcs. apply negb_true_iff.
    apply negb_true_iff, has_tag_children in E as [Hn _].
    apply has_tag_tag; assumption.
  - intros cs0 n cs cs' _. apply tag_free_rows.
  - apply negb_true_iff. exact HP.
Qed.

Lemma no_new_tag_witness :
  has_tag "mrow" (document [Tag "mstyle" [mi "xy"]]) = false.
Proof.
  apply (no_new_tag "mrow" (document [Tag "mstyle" [mi "x"; mi "y"]]));
    reflexivity.
Defined.

(** ** Documents *)

Section Documents.

Local Open Scope list_scope.

(** [normalize] on a document, from what the traversal leaves of its
    children. *)
Lemma normalize_document (cs ks out : list node) :
  dfs_children (dfs (Some "[document]")) cs = Ok ks ->
  merge_mi_loop None ks = Ok out ->
  normalize (document cs)
  = Ok (document (flat_map unwrap_single_table out)).
Proof.
  intros K M. unfold normalize, document. cbn [dfs]. unfold enter.
  change (String.eqb "[document]" "annotation") with false.
  change (String.eqb "[document]" "semantics") with false.
  cbn [andb]. rewrite K. unfold set_kids. cbn [bind parent slot kids].
  unfold rules. rewrite restructure_eq by reflexivity.
  unfold merged. change (dict_in (PyStr "[document]") POSITIONAL_TAGS) with false.
  cbn iota. rewrite M. cbn [bind].
  change (String.eqb "[document]" "mrow") with false. cbn [andb].
  destruct (goes "[document]" out); reflexivity.
Qed.

Lemma mi_text_visited (p : string) (s : text) :
  dfs (Some p) (mi_text s) = Ok (mi_text s, [mi_text s]).
Proof. reflexivity. Qed.

Lemma mi_texts_visited (p : string) (ss : list text) :
  dfs_children (dfs (Some p)) (map mi_text ss) = Ok (map mi_text ss).
Proof.
  induction ss as [|s ss IH]; [reflexivity|].
  cbn [map dfs_children]. rewrite mi_text_visited, IH. reflexivity.
Qed.

Lemma mrow_of_mi_texts_visited (p : string) (a : text) (ss : list text) :
  dfs (Some p) (mrow (map mi_text (a :: ss)))
  = Ok (mrow [], [mi_text (List.concat (a :: ss))]).
Proof.
  unfold mrow. cbn [dfs]. unfold enter.
  change (String.eqb "mrow" "annotation") with false.
  change (String.eqb "mrow" "semantics") with false.
  cbn [andb]. rewrite mi_texts_visited. unfold set_kids.
  cbn [bind parent slot kids]. unfold rules.
  rewrite restructure_eq by reflexivity.
  unfold merged. change (dict_in (PyStr "mrow") POSITIONAL_TAGS) with false.
  cbn iota. cbn [map merge_mi_loop]. rewrite merge_mi_loop_texts.
  reflexivity.
Qed.

Lemma settled_cell (cs : list node) :
  forallb settled cs = true -> no_mi_pair cs = true ->
  settled (mtd cs) = true.
Proof.
  intros Hs Hp. unfold mtd. cbn [settled]. rewrite Hs, Hp.
  destruct cs; reflexivity.
Qed.

Lemma settled_row (c : node) (cs : list node) :
  forallb settled (c :: cs) = true -> no_mi_pair (c :: cs) = true ->
  settled (mtr [mtd (c :: cs)]) = true.
Proof.
  intros Hs Hp. unfold mtr. cbn [settled forallb].
  rewrite (settled_cell (c :: cs) Hs Hp). reflexivity.
Qed.

Lemma single_table_visited (p : string) (c : node) (cs : list node) :
  forallb settled (c :: cs) = true -> no_mi_pair (c :: cs) = true ->
  dfs (Some p) (mtable [mtr [mtd (c :: cs)]])
  = Ok (mtable [mtr [mtd (c :: cs)]], [mtable [mtr [mtd (c :: cs)]]]).
Proof.
  intros Hs Hp. unfold mtable. cbn [dfs]. unfold enter.
  change (String.eqb "mtable" "annotation") with false.
  change (String.eqb "mtable" "semantics") with false.
  cbn [andb dfs_children].
  rewrite (settled_fixed (mtr [mtd (c :: cs)]) "mtable" (settled_row c cs Hs Hp)).
  reflexivity.
Qed.

End Documents.

(** X18: a sufficient condition for a normal form.  A document whose
    children are settled (no rule of [dfs] applies at any element below the
    root) and hold no two neighbouring [mi] elements is returned
    unchanged. *)
Theorem settled_document_unchanged (cs : list node) :
  forallb settled cs = true -> no_mi_pair cs = true ->
  normalize (document cs) = Ok (document cs).
Proof.
  intros Hs Hp.
  rewrite (normalize_document cs cs cs).
  - rewrite remove_single_table_none; [reflexivity|].
    apply forallb_impl with (2 := Hs). apply settled_not_mtable.
  - apply dfs_children_fixed; [|exact Hs].
    apply Forall_forall. intros c _ p. apply settled_fixed.
  - apply (merge_mi_loop_no_pair None cs). exact Hp.
Qed.

Lemma settled_document_unchanged_witness :
  normalize (document [mi "x"; Tag "mo" [str "+"]; msub [mi "y"; mi "z"]])
  = Ok (document [mi "x"; Tag "mo" [str "+"]; msub [mi "y"; mi "z"]]).
Proof.
  apply (settled_document_unchanged
           [mi "x"; Tag "mo" [str "+"]; msub [mi "y"; mi "z"]]); reflexivity.
Defined.

(** X19: the identifier merge through the whole pass.  A document holding
    one [mrow] of [mi] elements with one text each is returned as a document
    holding a single [mi], whose text is the concatenation of the texts as
    they stand in the leaves (neither trimmed nor substituted); the [mrow]
    is gone. *)
Theorem identifiers_merged_and_unwrapped (a : text) (ss : list text) :
  normalize (document [mrow (map mi_text (a :: ss))])
  = Ok (document [mi_text (List.concat (a :: ss))]).
Proof.
  rewrite (normalize_document _
             [mi_text (List.concat (a :: ss))]
             [mi_text (List.concat (a :: ss))]).
  - reflexivity.
  - cbn [dfs_children]. rewrite mrow_of_mi_texts_visited. reflexivity.
  - reflexivity.
Qed.

(** X20: the table of one row and one cell through the whole pass.  When
    the cell is not empty and its content is settled and holds no two
    neighbouring [mi] elements, the document is returned with the cell's
    content in the place of the table. *)
Theorem single_cell_table_unwrapped (cs : list node) :
  cs <> [] -> forallb settled cs = true -> no_mi_pair cs = true ->
  normalize (document [mtable [mtr [mtd cs]]]) = Ok (document cs).
Proof.
  intros Hne Hs Hp. destruct cs as [|c cs]; [contradiction|].
  rewrite (normalize_document _ [mtable [mtr [mtd (c :: cs)]]]
             [mtable [mtr [mtd (c :: cs)]]]).
  - cbn [flat_map]. rewrite app_nil_r. reflexivity.
  - cbn [dfs_children]. rewrite (single_table_visited _ c cs Hs Hp).
    reflexivity.
  - reflexivity.
Qed.

Lemma single_cell_table_unwrapped_witness :
  normalize (document [mtable [mtr [mtd [mi "x"; Tag "mo" [str "+"]]]]])
  = Ok (document [mi "x"; Tag "mo" [str "+"]]).
Proof.
  apply (single_cell_table_unwrapped [mi "x"; Tag "mo" [str "+"]]);
    [discriminate | reflexivity | reflexivity].
Defined.

(** ** The namespace declaration *)

Section Namespace.

Local Open Scope Z_scope.
Local Open Scope list_scope.

Lemma replace_from_skip (old new : text) (k : nat) (s : text) :
  Py.replace_from old new k s = Py.replace old new (skipn k s).
Proof.
  unfold Py.replace. revert k. induction s as [|c s IH]; intros k.
  - destruct k; reflexivity.
  - destruct k as [|k]; [reflexivity|]. cbn [Py.replace_from skipn]. apply IH.
Qed.

Lemma replace_other (old new : text) (c : codepoint) (s : text) :
  Py.startswith (c :: s) old = false ->
  Py.replace old new (c :: s) = c :: Py.replace old new s.
Proof.
  intros H. unfold Py.replace. cbn [Py.replace_from]. rewrite H. reflexivity.
Qed.

Lemma replace_absent (old new s : text) :
  str_contains old s = false -> Py.replace old new s = s.
Proof.
  induction s as [|c s IH]; [reflexivity|].
  cbn [str_contains]. intros H. apply orb_false_iff in H as [Hc Hs].
  rewrite (replace_other old new c s Hc), (IH Hs). reflexivity.
Qed.

Lemma startswith_length_le (s p : text) :
  Py.startswith s p = true -> (List.length p <= List.length s)%nat.
Proof.
  revert s. induction p as [|x p IH]; intros s H; [cbn; lia|].
  destruct s as [|c s]; [discriminate|]. cbn [Py.startswith] in H.
  apply andb_true_iff in H as [_ H]. apply IH in H. cbn [List.length]. lia.
Qed.

(** A replacement by a longer text never shortens, and lengthens when
    there is an occurrence. *)
Lemma replace_length (old new : text) (n : nat) :
  (0 < List.length old <= List.length new)%nat ->
  forall s, (List.length s <= n)%nat ->
    (List.length s <= List.length (Py.replace old new s))%nat.
Proof.
  intros Hl. induction n as [|n IH]; intros s Hn.
  - destruct s; [cbn; lia | cbn in Hn; lia].
  - destruct s as [|c s]; [cbn; lia|].
    unfold Py.replace. cbn [Py.replace_from].
    destruct (Py.startswith (c :: s) old) eqn:E.
    + rewrite replace_from_skip, length_app.
      apply startswith_length_le in E. cbn [List.length] in E, Hn.
      assert (Hk : (List.length (skipn (Nat.pred (List.length old)) s) <= n)%nat)
        by (rewrite length_skipn; lia).
      specialize (IH _ Hk). rewrite length_skipn in IH.
      cbn [List.length]. lia.
    + cbn [List.length] in *. fold (Py.replace old new s).
      specialize (IH s ltac:(lia)). lia.
Qed.

Lemma replace_length_occurs (old new : text) (n : nat) :
  (0 < List.length old < List.length new)%nat ->
  forall s, (List.length s <= n)%nat -> str_contains old s = true ->
    (List.length s < List.length (Py.replace old new s))%nat.
Proof.
  intros Hl. induction n as [|n IH]; intros s Hn Hc.
  - destruct s; [|cbn in Hn; lia]. cbn in Hc. rewrite orb_false_r in Hc.
    apply startswith_length_le in Hc. cbn in Hc. lia.
  - destruct s as [|c s].
    + cbn in Hc. rewrite orb_false_r in Hc.
      apply startswith_length_le in Hc. cbn in Hc. lia.
    + unfold Py.replace. cbn [Py.replace_from]. cbn [str_contains] in Hc.
      destruct (Py.startswith (c :: s) old) eqn:E.
      * rewrite replace_from_skip, length_app.
        apply startswith_length_le in E. cbn [List.length] in E, Hn.
        pose proof (replace_length old new n ltac:(lia)
                      (skipn (Nat.pred (List.length old)) s)
                      ltac:(rewrite length_skipn; lia)) as Hs.
        rewrite length_skipn in Hs. cbn [List.length]. lia.
      * cbn [orb] in Hc. cbn [List.length] in *. fold (Py.replace old new s).
        specialize (IH s ltac:(lia) Hc). lia.
Qed.

(** The first replacement does not change whether the text goes on with
    a given text without the character 60. *)
Lemma startswith_replace_mml (p s : text) :
  ~ In 60 p ->
  Py.startswith (Py.replace MML_MATH_OPEN MML_MATH_DECLARED s) p
  = Py.startswith s p.
Proof.
  revert s. induction p as [|x p IH]; intros s Hp; [reflexivity|].
  destruct s as [|c s]; [reflexivity|].
  assert (Hx : x <> 60) by (intros ->; apply Hp; left; reflexivity).
  assert (Hp' : ~ In 60 p) by (intros H; apply Hp; right; exact H).
  unfold Py.replace. cbn [Py.replace_from].
  destruct (Py.startswith (c :: s) MML_MATH_OPEN) eqn:E.
  - assert (Hc : c = 60).
    { cbn in E. apply andb_true_iff in E as [E _]. apply Z.eqb_eq in E.
      exact E. }
    subst c. cbn [MML_MATH_DECLARED text_of app Py.startswith].
    change (Z.of_nat (nat_of_ascii "<")) with 60.
    apply Z.eqb_neq in Hx. rewrite Z.eqb_sym in Hx.
    cbn [Py.startswith]. rewrite Hx. reflexivity.
  - cbn [Py.startswith]. fold (Py.replace MML_MATH_OPEN MML_MATH_DECLARED s).
    rewrite (IH s Hp'). reflexivity.
Qed.

Lemma add_namespace_open (s : text) :
  add_namespace (MATH_OPEN ++ s) = MATH_DECLARED ++ add_namespace s.
Proof. reflexivity. Qed.

Lemma add_namespace_mml_open (s : text) :
  add_namespace (MML_MATH_OPEN ++ s) = MML_MATH_DECLARED ++ add_namespace s.
Proof. reflexivity. Qed.

Lemma add_namespace_cons (c : codepoint) (s : text) :
  Py.startswith (c :: s) MATH_OPEN = false ->
  Py.startswith (c :: s) MML_MATH_OPEN = false ->
  add_namespace (c :: s) = c :: add_namespace s.
Proof.
  intros Hm Hmml. unfold add_namespace.
  rewrite (replace_other _ _ c s Hmml). apply replace_other.
  change MATH_OPEN with (60 :: text_of "math") in *.
  cbn [Py.startswith] in *.
  rewrite (startswith_replace_mml (text_of "math") s); [exact Hm|].
  cbn. intros [H|[H|[H|[H|[]]]]]; discriminate.
Qed.

Lemma add_namespace_absent (s : text) :
  str_contains MATH_OPEN s = false ->
  str_contains MML_MATH_OPEN s = false ->
  add_namespace s = s.
Proof.
  intros Hm Hmml. unfold add_namespace.
  rewrite (replace_absent _ _ s Hmml). apply replace_absent. exact Hm.
Qed.

Lemma startswith_split (s p : text) :
  Py.startswith s p = true -> s = p ++ skipn (List.length p) s.
Proof.
  revert s. induction p as [|x p IH]; intros s H; [reflexivity|].
  destruct s as [|c s]; [discriminate|]. cbn [Py.startswith] in H.
  apply andb_true_iff in H as [Hc H]. apply Z.eqb_eq in Hc. subst c.
  cbn [List.length skipn app]. rewrite <- (IH s H). reflexivity.
Qed.

(** Whether a text goes on with [p] is decided before the next
    character 60, when [p] has none. *)
Lemma startswith_before_tag (p a b : text) :
  ~ In 60 p ->
  Py.startswith (a ++ 60 :: b) p = Py.startswith a p.
Proof.
  revert a. induction p as [|x p IH]; intros a Hp; [reflexivity|].
  assert (Hx : x <> 60) by (intros ->; apply Hp; left; reflexivity).
  assert (Hp' : ~ In 60 p) by (intros H; apply Hp; right; exact H).
  destruct a as [|c a]; cbn [app Py.startswith].
  - apply Z.eqb_neq in Hx. rewrite Z.eqb_sym in Hx. rewrite Hx. reflexivity.
  - rewrite (IH a Hp'). reflexivity.
Qed.

Lemma startswith_tag_before_tag (p : text) (c : codepoint) (a b : text) :
  ~ In 60 p ->
  Py.startswith (c :: a ++ 60 :: b) (60 :: p) = Py.startswith (c :: a) (60 :: p).
Proof.
  intros Hp. cbn [Py.startswith]. rewrite (startswith_before_tag p a b Hp).
  reflexivity.
Qed.

Lemma add_namespace_boundary (n : nat) :
  forall a b : text, (List.length a <= n)%nat ->
    add_namespace (a ++ 60 :: b) = add_namespace a ++ add_namespace (60 :: b).
Proof.
  induction n as [|n IH]; intros a b Hn.
  - destruct a; [reflexivity | cbn in Hn; lia].
  - destruct a as [|c a]; [reflexivity|].
    destruct (Py.startswith (c :: a) MML_MATH_OPEN) eqn:E1.
    + pose proof (startswith_length_le _ _ E1) as Hl.
      apply startswith_split in E1. rewrite E1, <- app_assoc.
      rewrite !add_namespace_mml_open, <- app_assoc. f_equal.
      apply IH. rewrite length_skipn.
      change (List.length MML_MATH_OPEN) with 10%nat in *.
      cbn [List.length] in *. unfold text, codepoint in *. lia.
    + destruct (Py.startswith (c :: a) MATH_OPEN) eqn:E2.
      * pose proof (startswith_length_le _ _ E2) as Hl.
        apply startswith_split in E2. rewrite E2, <- app_assoc.
        rewrite !add_namespace_open, <- app_assoc. f_equal.
        apply IH. rewrite length_skipn.
        change (List.length MATH_OPEN) with 5%nat in *.
        cbn [List.length] in *. unfold text, codepoint in *. lia.
      * cbn [app]. rewrite (add_namespace_cons c a E2 E1).
        rewrite add_namespace_cons.
        -- cbn [app]. f_equal. apply IH. cbn [List.length] in Hn. lia.
        -- change MATH_OPEN with (60 :: text_of "math").
           rewrite startswith_tag_before_tag; [exact E2|].
           cbn. intros [H|[H|[H|[H|[]]]]]; discriminate.
        -- change MML_MATH_OPEN with (60 :: text_of "mml:math>").
           rewrite startswith_tag_before_tag; [exact E1|].
           cbn. intros H. repeat (destruct H as [H|H]; [discriminate|]).
           exact H.
Qed.

End Namespace.

(** X21: [add_namespace] as one pass from left to right.  Where the text
    goes on with [<mml:math>] the declared form is written and the pass goes
    on behind the literal; else where it goes on with [<math] (whatever
    follows these five characters) the declared form is written; else the
    character is copied.  What the first replacement writes is not rewritten
    by the second. *)
Theorem add_namespace_one_pass (c : codepoint) (s : text) :
  add_namespace (c :: s)
  = if Py.startswith (c :: s) MML_MATH_OPEN then
      (MML_MATH_DECLARED
       ++ add_namespace (skipn (List.length MML_MATH_OPEN) (c :: s)))%list
    else if Py.startswith (c :: s) MATH_OPEN then
      (MATH_DECLARED
       ++ add_namespace (skipn (List.length MATH_OPEN) (c :: s)))%list
    else c :: add_namespace s.
Proof.
  destruct (Py.startswith (c :: s) MML_MATH_OPEN) eqn:E1.
  - rewrite (startswith_split _ _ E1) at 1. apply add_namespace_mml_open.
  - destruct (Py.startswith (c :: s) MATH_OPEN) eqn:E2.
    + rewrite (startswith_split _ _ E2) at 1. apply add_namespace_open.
    + apply add_namespace_cons; assumption.
Qed.

(** X22: [add_namespace] returns its argument unchanged exactly when
    neither [<math] nor [<mml:math>] occurs in it; in particular an
    [mml:math] start tag that carries an attribute gets no declaration. *)
Theorem add_namespace_unchanged_iff (s : text) :
  add_namespace s = s
  <-> str_contains MATH_OPEN s = false
      /\ str_contains MML_MATH_OPEN s = false.
Proof.
  split.
  - intros H. apply (f_equal (@List.length codepoint)) in H.
    unfold add_namespace in H.
    pose proof (replace_length MML_MATH_OPEN MML_MATH_DECLARED (List.length s)
                  ltac:(cbn; lia) s (le_n _)) as H1.
    pose proof (replace_length MATH_OPEN MATH_DECLARED _ ltac:(cbn; lia)
                  (Py.replace MML_MATH_OPEN MML_MATH_DECLARED s) (le_n _))
      as H2.
    destruct (str_contains MML_MATH_OPEN s) eqn:E1.
    + pose proof (replace_length_occurs MML_MATH_OPEN MML_MATH_DECLARED
                    (List.length s) ltac:(cbn; lia) s (le_n _) E1).
      lia.
    + rewrite (replace_absent _ _ s E1) in H.
      destruct (str_contains MATH_OPEN s) eqn:E2; [|split; reflexivity].
      pose proof (replace_length_occurs MATH_OPEN MATH_DECLARED
                    (List.length s) ltac:(cbn; lia) s (le_n _) E2).
      lia.
  - intros [Hm Hmml]. apply add_namespace_absent; assumption.
Qed.

Lemma add_namespace_unchanged_iff_witness :
  add_namespace (text_of "<mml:math display='block'><mml:mi>x</mml:mi></mml:math>")
  = text_of "<mml:math display='block'><mml:mi>x</mml:mi></mml:math>".
Proof.
  apply (proj2 (add_namespace_unchanged_iff
                  (text_of "<mml:math display='block'><mml:mi>x</mml:mi></mml:math>"))).
  split; reflexivity.
Defined.

(** X23: [add_namespace] works tag by tag: the text before a character
    [<] and the text from it on are rewritten independently of each
    other. *)
Theorem add_namespace_tag_by_tag (a b : text) :
  add_namespace (a ++ 60%Z :: b)%list
  = (add_namespace a ++ add_namespace (60%Z :: b))%list.
Proof. apply (add_namespace_boundary (List.length a)). apply le_n. Qed.

(** X24: [add_namespace] is not idempotent.  A second call writes the
    declaration again behind every [<math] the first call declared, while
    what the first call wrote for [<mml:math>] is left as it is. *)
Theorem add_namespace_twice (s : text) :
  add_namespace (add_namespace (MATH_OPEN ++ s)%list)
  = (MATH_DECLARED ++ DECLARATION ++ add_namespace (add_namespace s))%list
  /\ add_namespace (add_namespace (MML_MATH_OPEN ++ s)%list)
     = (MML_MATH_DECLARED ++ add_namespace (add_namespace s))%list.
Proof. split; reflexivity. Qed.

(** ** Text *)

Section Text.

Local Open Scope list_scope.

Lemma text_content_app (a b : list node) :
  text_content (a ++ b) = text_content a ++ text_content b.
Proof. unfold text_content. rewrite flat_map_app, concat_app. reflexivity. Qed.

Lemma text_content_cons (c : node) (l : list node) :
  text_content (c :: l) = text_content [c] ++ text_content l.
Proof. apply (text_content_app [c] l). Qed.

Lemma text_content_tag (n : string) (cs : list node) :
  text_content [Tag n cs] = text_content cs.
Proof.
  unfold text_content. cbn [flat_map leaf_texts]. rewrite app_nil_r.
  reflexivity.
Qed.

Lemma get_string_texts (t : node) :
  forall a, get_string t = Some a -> leaf_texts t = [a].
Proof.
  induction t as [s | name cs IH] using node_ind; intros a E.
  - cbn in E. injection E as <-. reflexivity.
  - destruct cs as [|c [|d cs]]; try discriminate.
    cbn [get_string] in E. cbn [leaf_texts flat_map]. rewrite app_nil_r.
    apply Forall_inv in IH. apply (IH a E).
Qed.

Lemma set_string_texts (c : node) (s : text) :
  name_is c "mi" = true -> leaf_texts (set_string c s) = [s].
Proof. destruct c; [discriminate | reflexivity]. Qed.

Lemma merge_mi_loop_content (last_c : option node) (cs out : list node) :
  merge_mi_loop last_c cs = Ok out ->
  text_content out = text_content (opt_list last_c ++ cs).
Proof.
  revert last_c out. induction cs as [|c cs IH]; intros last_c out H.
  - cbn in H. injection H as <-. rewrite app_nil_r. reflexivity.
  - destruct last_c as [l|]; cbn [merge_mi_loop] in H.
    + destruct (name_is c "mi" && name_is l "mi") eqn:E.
      * destruct (get_string l) as [a|] eqn:Ea; [|discriminate].
        destruct (get_string c) as [b|] eqn:Eb; [|discriminate].
        apply andb_true_iff in E as [Ec _].
        rewrite (IH _ _ H). cbn [opt_list app]. unfold text_content.
        cbn [flat_map].
        rewrite (set_string_texts c (a ++ b) Ec), (get_string_texts l a Ea),
          (get_string_texts c b Eb).
        cbn [app List.concat]. rewrite app_assoc. reflexivity.
      * destruct (merge_mi_loop (Some c) cs) as [rest|] eqn:R; cbn [bind] in H;
          [|discriminate].
        injection H as <-. cbn [opt_list app].
        rewrite (text_content_cons l rest), (text_content_cons l (c :: cs)).
        rewrite (IH _ _ R). reflexivity.
    + apply (IH (Some c) out H).
Qed.

Lemma merged_content (name : string) (cs out : list node) :
  merged name cs = Ok out -> text_content out = text_content cs.
Proof.
  unfold merged. destruct (dict_in (PyStr name) POSITIONAL_TAGS).
  - intros H. injection H as <-. reflexivity.
  - apply (merge_mi_loop_content None).
Qed.

Lemma unwrap_single_table_content (c : node) :
  text_content (unwrap_single_table c) = text_content [c].
Proof.
  unfold unwrap_single_table.
  destruct (check_single_name c "mtable") eqn:E; [|reflexivity].
  destruct c as [s | n [|gc cs]]; try reflexivity.
  cbn [check_single_name] in E. apply andb_true_iff in E as [_ E].
  destruct cs; [|discriminate].
  destruct (check_single_name gc "mtr") eqn:G; [|reflexivity].
  destruct gc as [s | m [|[s | k ggcs] ds]]; try reflexivity.
  cbn [check_single_name] in G. apply andb_true_iff in G as [_ G].
  destruct ds; [|discriminate].
  destruct (String.eqb k "mtd"); [|reflexivity].
  rewrite !text_content_tag. reflexivity.
Qed.

Lemma remove_single_table_content (cs : list node) :
  text_content (flat_map unwrap_single_table cs) = text_content cs.
Proof.
  induction cs as [|c cs IH]; [reflexivity|].
  cbn [flat_map]. rewrite text_content_app, (text_content_cons c cs), IH,
    unwrap_single_table_content. reflexivity.
Qed.

Lemma empty_cells_content (cs : list node) :
  forallb is_empty_mtd cs = true -> text_content cs = [].
Proof.
  induction cs as [|c cs IH]; [reflexivity|].
  cbn [forallb]. intros H. apply andb_true_iff in H as [Hc H].
  rewrite text_content_cons, (IH H), app_nil_r.
  destruct c as [s | n [|d ds]]; try discriminate; [reflexivity|].
  cbn in Hc. rewrite andb_false_r in Hc. discriminate.
Qed.

(** What [remove_empty_tag] and [remove_empty_row] detach holds no text. *)
Lemma goes_content (name : string) (cs : list node) :
  goes name cs = true -> text_content cs = [].
Proof.
  unfold goes. intros H. apply orb_true_iff in H as [H|H];
    apply andb_true_iff in H as [H1 H2].
  - destruct cs; [reflexivity | discriminate].
  - apply empty_cells_content, H2.
Qed.

Lemma validate_returns (name : string) (st st' : tstate) :
  validate name st = Ok st' -> st' = st.
Proof.
  unfold validate. destruct (dict_get POSITIONAL_TAGS name) as [k|].
  - destruct (negb (k =? List.length (kids st))); [discriminate|].
    intros H. injection H as <-. reflexivity.
  - intros H. injection H as <-. reflexivity.
Qed.

(** The rules on an element that is not a table keep the text: below a
    parent, of what stands at the element's position; at the root, of its
    children. *)
Lemma rules_content (name : string) (p : option string) (cs : list node)
  (st : tstate) :
  String.eqb name "mtable" = false ->
  rules name (mkState p [] cs) = Ok st ->
  text_content match p with
               | Some _ => in_parent name st
               | None => kids st
               end
  = text_content cs.
Proof.
  intros Hm H. unfold rules in H. rewrite (restructure_eq _ _ _ _ Hm) in H.
  destruct (merged name cs) as [cs1|] eqn:M; cbn [bind] in H; [|discriminate].
  rewrite <- (merged_content _ _ _ M).
  destruct (String.eqb name "mrow" && (List.length cs1 =? 1)).
  - destruct p; cbn [bind] in H; [|discriminate].
    apply validate_returns in H. subst st. reflexivity.
  - cbn [bind] in H. apply validate_returns in H. subst st.
    destruct (goes name cs1) eqn:G.
    + destruct p; cbn [in_parent parent slot kids].
      * rewrite (goes_content _ _ G). reflexivity.
      * apply remove_single_table_content.
    + destruct p; cbn [in_parent parent slot kids].
      * rewrite text_content_tag. apply remove_single_table_content.
      * apply remove_single_table_content.
Qed.

Lemma plain_tag (n : string) (cs : list node) :
  plain (Tag n cs) = true ->
  String.eqb n "mtable" = false
  /\ String.eqb n "annotation" = false
  /\ forallb plain cs = true.
Proof.
  unfold plain. intros H.
  apply andb_true_iff in H as [Ht Ha]. apply negb_true_iff in Ht, Ha.
  apply has_tag_children in Ht as [Ht Hts], Ha as [Ha Has].
  repeat split; try assumption.
  induction cs as [|c cs IH]; [reflexivity|].
  cbn [forallb] in *.
  apply andb_true_iff in Hts as [Hc1 Hts], Has as [Hc2 Has].
  rewrite Hc1, Hc2, (IH Hts Has). reflexivity.
Qed.

Lemma dfs_children_content (name : string) (cs : list node) :
  Forall (fun c => forall q r, plain c = true -> dfs (Some q) c = Ok r ->
            text_content (snd r) = text_content [c]) cs ->
  forallb plain cs = true ->
  forall ks, dfs_children (dfs (Some name)) cs = Ok ks ->
  text_content ks = text_content cs.
Proof.
  induction 1 as [|c cs Hc _ IH]; intros Hp ks H.
  - cbn in H. injection H as <-. reflexivity.
  - cbn [forallb] in Hp. apply andb_true_iff in Hp as [Hpc Hp].
    cbn [dfs_children] in H.
    destruct (dfs (Some name) c) as [r|] eqn:D; cbn [bind] in H;
      [|discriminate].
    destruct (dfs_children (dfs (Some name)) cs) as [rs|] eqn:K;
      cbn [bind] in H; [|discriminate].
    injection H as <-.
    rewrite text_content_app, (text_content_cons c cs).
    rewrite (Hc name r Hpc D), (IH Hp rs eq_refl). reflexivity.
Qed.

Lemma dfs_content (t : node) :
  forall p r, plain t = true -> dfs p t = Ok r ->
    text_content match p with
                 | Some _ => snd r
                 | None => [fst r]
                 end
    = text_content [t].
Proof.
  induction t as [s | name cs IH] using node_ind; intros p r Hp H.
  - cbn [dfs] in H. injection H as <-. destruct p; reflexivity.
  - apply plain_tag in Hp as (Hm & Ha & Hcs).
    cbn [dfs] in H. unfold enter in H. rewrite Ha in H.
    destruct (String.eqb name "semantics" && (List.length cs =? 1)) eqn:Hs.
    + apply andb_true_iff in Hs as [Hn Hl]. apply String.eqb_eq in Hn.
      subst name. destruct cs as [|c [|d cs]]; try discriminate.
      destruct p; cbn in H; [|discriminate].
      injection H as <-. cbn [snd]. rewrite text_content_tag. reflexivity.
    + destruct (dfs_children (dfs (Some name)) cs) as [ks|] eqn:K;
        cbn [bind] in H; [|discriminate].
      unfold set_kids in H. cbn [parent slot] in H.
      destruct (rules name (mkState p [] ks)) as [st|] eqn:R; cbn [bind] in H;
        [|discriminate].
      injection H as <-. cbn [fst snd]. rewrite (text_content_tag name cs).
      rewrite <- (dfs_children_content name cs) with (ks := ks).
      * rewrite <- (rules_content name p ks st Hm R).
        destruct p; [reflexivity | apply text_content_tag].
      * apply Forall_forall. intros c Hin q r. rewrite Forall_forall in IH.
        apply (IH c Hin (Some q) r).
      * exact Hcs.
      * exact K.
Qed.

End Text.

(** X25: the pass keeps the text.  On a tree without table and without
    annotation, the texts of the leaves of the tree [normalize] returns,
    joined from left to right, are the texts of the leaves of the input,
    joined from left to right: no character is lost, none is added, none is
    changed and the order is kept, whatever is merged, unwrapped or
    detached. *)
Theorem text_kept (soup root : node) :
  plain soup = true ->
  normalize soup = Ok root ->
  text_content [root] = text_content [soup].
Proof.
  unfold normalize. intros Hp H.
  destruct (dfs None soup) as [r|] eqn:D; cbn [bind] in H; [|discriminate].
  injection H as <-. apply (dfs_content soup None r Hp D).
Qed.

Lemma text_kept_witness :
  text_content
    [document [mi "a b"; Tag "mo" [str " + "]; mi "c"; semantics [mi "d"]]]
  = text_of "a b + cd".
Proof.
  apply (text_kept
           (document [mrow [mi "a"; mi " b"]; mrow [Tag "mo" [str " + "]; mrow []];
                      semantics [mi "c"];
                      semantics [mrow [mi "d"]; Tag "mtext" []]])
           (document [mi "a b"; Tag "mo" [str " + "]; mi "c";
                      semantics [mi "d"]]));
    reflexivity.
Defined.

(** ** Fixed points of the pass *)

Section Steady.

Local Open Scope list_scope.

(** *** The rules on a table *)

Lemma restructure_mtable (p : option string) (sl cs : list node) :
  restructure "mtable" (mkState p sl cs)
  = (cs1 <- merge_mi_loop None cs ;;
     rows <- prune_columns cs1 ;;
     Ok (mkState p sl (flat_map unwrap_single_table rows))).
Proof.
  unfold restructure, merge_mi.
  change (negb (dict_in (PyStr "mtable") POSITIONAL_TAGS)) with true.
  cbn iota. cbn [kids].
  destruct (merge_mi_loop None cs) as [cs1|e]; cbn [bind]; [|reflexivity].
  change (String.eqb "mtable" "mrow") with false. cbn [andb bind].
  unfold remove_empty_row. change (String.eqb "mtable" "mtr") with false.
  cbn [andb]. unfold remove_empty_columns.
  change (String.eqb "mtable" "mtable") with true. cbn iota.
  destruct cs1 as [|c cs1].
  - unfold remove_empty_tag. cbn [set_kids kids parent slot List.length].
    destruct p; reflexivity.
  - unfold remove_empty_tag, set_kids, remove_single_table.
    cbn [kids parent slot List.length Nat.eqb andb].
    destruct (prune_columns (c :: cs1)); reflexivity.
Qed.

(** *** Steady trees are left as they are *)

Lemma unwrap_not_single (c : node) :
  single_table c = false -> unwrap_single_table c = [c].
Proof.
  unfold unwrap_single_table. intros H.
  destruct (check_single_name c "mtable") eqn:E; [|reflexivity].
  destruct c as [s | n [|gc cs]]; try reflexivity.
  cbn [check_single_name] in E. apply andb_true_iff in E as [En E].
  destruct cs; [|discriminate].
  destruct (check_single_name gc "mtr") eqn:G; [|reflexivity].
  destruct gc as [s | m [|[s | k ggcs] ds]]; try reflexivity.
  cbn [check_single_name] in G. apply andb_true_iff in G as [Gm G].
  destruct ds; [|discriminate].
  destruct (String.eqb k "mtd") eqn:K; [|reflexivity].
  cbn [single_table] in H. rewrite En, Gm, K in H. discriminate.
Qed.

Lemma remove_single_table_idle (cs : list node) :
  existsb single_table cs = false -> flat_map unwrap_single_table cs = cs.
Proof.
  induction cs as [|c cs IH]; [reflexivity|].
  cbn [existsb flat_map]. intros H. apply orb_false_iff in H as [Hc H].
  rewrite (unwrap_not_single c Hc), (IH H). reflexivity.
Qed.

Lemma list_max_attained (l : list nat) (n : nat) :
  In n l -> Forall (fun w => w <= n) l -> list_max l = n.
Proof.
  intros Hin Hle. apply Nat.le_antisymm.
  - apply list_max_le. exact Hle.
  - pose proof (proj1 (list_max_le l (list_max l)) (le_n _)) as H.
    rewrite Forall_forall in H. apply H. exact Hin.
Qed.

Lemma columns_kept_inv (rows : list node) :
  columns_kept rows = true ->
  rows <> [] /\ forallb is_tag rows = true
  /\ forall k, k < list_max (map width rows) ->
               forallb (cell_is_empty k) rows = false.
Proof.
  unfold columns_kept. intros H. apply andb_true_iff in H as [H H3].
  apply andb_true_iff in H as [H1 H2]. split; [|split; [exact H2|]].
  - intros ->. discriminate.
  - intros k Hk. rewrite forallb_forall in H3.
    specialize (H3 k). rewrite in_seq in H3.
    apply negb_true_iff, H3. lia.
Qed.

Lemma columns_kept_pruned (rows : list node) :
  columns_kept rows = true -> prune_columns rows = Ok rows.
Proof.
  intros H. apply columns_kept_inv in H as (Hne & Ht & Hcol).
  destruct (prune_columns_flags rows Hne Ht)
    as (n & e & _ & Hin & Hw & _ & Hl & Hn & Hp).
  rewrite (list_max_attained _ n) in Hcol.
  2: exact Hin.
  2: { apply Forall_map. exact Hw. }
  rewrite Hp.
  rewrite (mapM_map (extract_row e) (fun row => row)), map_id; [reflexivity|].
  intros row Hr. rewrite Forall_forall in Hw. pose proof (Hw row Hr) as Hwr.
  rewrite forallb_forall in Ht. specialize (Ht row Hr).
  destruct row as [s | nm cs]; [discriminate|].
  unfold extract_row. cbn [children_of bind width with_children] in *.
  rewrite extract_cells_none; [reflexivity|].
  intros j Hj. apply flag_false; [lia|].
  rewrite Hn, (Hcol j) by lia. apply andb_false_r.
Qed.

Lemma validate_met_returns (name : string) (st : tstate) :
  required_arity_met name (kids st) = true -> validate name st = Ok st.
Proof.
  unfold required_arity_met, validate.
  destruct (dict_get POSITIONAL_TAGS name); [|reflexivity].
  intros ->. reflexivity.
Qed.

Lemma rules_idle_inv (name : string) (cs : list node) :
  rules_idle name cs = true ->
  merged name cs = Ok cs
  /\ String.eqb name "mrow" && (List.length cs =? 1) = false
  /\ (String.eqb name "mtable" = true -> columns_kept cs = true)
  /\ existsb single_table cs = false
  /\ required_arity_met name cs = true.
Proof.
  unfold rules_idle. intros H.
  apply andb_true_iff in H as [H H5]. apply andb_true_iff in H as [H H4].
  apply andb_true_iff in H as [H H3]. apply andb_true_iff in H as [H1 H2].
  apply negb_true_iff in H2, H4. repeat split; try assumption.
  - unfold merged. destruct (dict_in (PyStr name) POSITIONAL_TAGS);
      [reflexivity|]. apply (merge_mi_loop_no_pair None cs). exact H1.
  - intros E. rewrite E in H3. exact H3.
Qed.

(** The rules leave an element on which they are idle as it is, when it is
    the root or is not one that goes. *)
Lemma rules_idle_fixed (name : string) (p : option string) (cs : list node) :
  rules_idle name cs = true ->
  p = None \/ goes name cs = false ->
  rules name (mkState p [] cs) = Ok (mkState p [] cs).
Proof.
  intros H Hg. apply rules_idle_inv in H as (Hm & Hr & Ht & Hs & Hv).
  unfold rules. destruct (String.eqb name "mtable") eqn:E.
  - apply String.eqb_eq in E. subst name. rewrite restructure_mtable.
    change (merged "mtable" cs) with (merge_mi_loop None cs) in Hm.
    rewrite Hm. cbn [bind]. rewrite (columns_kept_pruned cs (Ht eq_refl)).
    cbn [bind]. rewrite (remove_single_table_idle cs Hs). reflexivity.
  - rewrite (restructure_eq name p [] cs E), Hm. cbn [bind]. rewrite Hr.
    rewrite (remove_single_table_idle cs Hs). cbn [bind].
    destruct Hg as [-> | Hg].
    + destruct (goes name cs); apply validate_met_returns; exact Hv.
    + rewrite Hg. apply validate_met_returns. exact Hv.
Qed.

Lemma dfs_children_steady (cs : list node) :
  Forall (fun c => forall p, steady c = true -> dfs (Some p) c = Ok (c, [c]))
    cs ->
  forallb steady cs = true ->
  forall name, dfs_children (dfs (Some name)) cs = Ok cs.
Proof.
  induction 1 as [|c cs Hc _ IH]; intros Hs name; [reflexivity|].
  cbn [forallb] in Hs. apply andb_true_iff in Hs as [Hsc Hs].
  cbn [dfs_children]. rewrite (Hc name Hsc). cbn [bind snd].
  rewrite (IH Hs name). reflexivity.
Qed.

(** Below a parent, [dfs] changes nothing on a steady tree. *)
Lemma steady_fixed (t : node) :
  forall p, steady t = true -> dfs (Some p) t = Ok (t, [t]).
Proof.
  induction t as [s | name cs IH] using node_ind; intros p H;
    [reflexivity|].
  cbn [steady] in H.
  apply andb_true_iff in H as [H Hcs]. apply andb_true_iff in H as [H Hi].
  apply andb_true_iff in H as [H Hg]. apply andb_true_iff in H as [Ha Hs].
  apply negb_true_iff in Ha, Hs, Hg.
  cbn [dfs]. unfold enter. rewrite Ha, Hs.
  rewrite (dfs_children_steady cs IH Hcs name).
  unfold set_kids. cbn [bind parent slot kids].
  rewrite (rules_idle_fixed name (Some p) cs Hi (or_intror Hg)).
  reflexivity.
Qed.

(** At the root, [normalize] changes nothing on a steady tree. *)
Lemma steady_root_fixed (t : node) :
  steady_root t = true -> normalize t = Ok t.
Proof.
  destruct t as [s | name cs]; [reflexivity|]. cbn [steady_root]. intros H.
  apply andb_true_iff in H as [H Hcs]. apply andb_true_iff in H as [Hs Hi].
  apply negb_true_iff in Hs.
  unfold normalize. cbn [dfs]. unfold enter.
  destruct (String.eqb name "annotation") eqn:Ha.
  - cbn [extract parent bind].
    rewrite (rules_idle_fixed name None cs Hi (or_introl eq_refl)).
    reflexivity.
  - rewrite Hs. cbn [orb] in Hcs.
    rewrite (dfs_children_steady cs) by
      (try exact Hcs; apply Forall_forall; intros c _ q; apply steady_fixed).
    unfold set_kids. cbn [bind parent slot kids].
    rewrite (rules_idle_fixed name None cs Hi (or_introl eq_refl)).
    reflexivity.
Qed.

(** *** What the pass leaves as it is is steady

    Every rule that does something removes a node, so that a pass that
    returns as many nodes as it was given has done nothing. *)

Lemma sizes_app (a b : list node) : sizes (a ++ b) = sizes a + sizes b.
Proof. unfold sizes. rewrite map_app, list_sum_app. reflexivity. Qed.

Lemma sizes_cons (c : node) (l : list node) : sizes (c :: l) = size c + sizes l.
Proof. reflexivity. Qed.

Lemma size_tag (n : string) (cs : list node) : size (Tag n cs) = S (sizes cs).
Proof. reflexivity. Qed.

Lemma size_pos (t : node) : 1 <= size t.
Proof. destruct t; cbn [size]; lia. Qed.

Lemma size_string (t : node) (a : text) :
  name_is t "mi" = true -> get_string t = Some a -> 2 <= size t.
Proof.
  destruct t as [s | n [|c [|d cs]]]; try discriminate. intros _ _.
  rewrite size_tag, sizes_cons. pose proof (size_pos c). lia.
Qed.

Lemma size_set_string (c : node) (s : text) :
  name_is c "mi" = true -> size (set_string c s) = 2.
Proof. destruct c; [discriminate | reflexivity]. Qed.

Lemma merge_mi_loop_sizes (last_c : option node) (cs out : list node) :
  merge_mi_loop last_c cs = Ok out ->
  sizes out <= sizes (opt_list last_c ++ cs)
  /\ (sizes (opt_list last_c ++ cs) <= sizes out ->
      no_mi_pair (opt_list last_c ++ cs) = true).
Proof.
  revert last_c out. induction cs as [|c cs IH]; intros last_c out H.
  - cbn in H. injection H as <-. rewrite app_nil_r. split; [lia|].
    intros _. destruct last_c; reflexivity.
  - destruct last_c as [l|]; cbn [merge_mi_loop opt_list app] in *.
    + destruct (name_is c "mi" && name_is l "mi") eqn:E.
      * destruct (get_string l) as [a|] eqn:Ea; [|discriminate].
        destruct (get_string c) as [b|] eqn:Eb; [|discriminate].
        apply andb_true_iff in E as [Ec El].
        apply IH in H as [H _]. cbn [opt_list app] in H.
        rewrite sizes_cons, (size_set_string c _ Ec) in H.
        pose proof (size_string l a El Ea). pose proof (size_string c b Ec Eb).
        rewrite !sizes_cons. split; lia.
      * destruct (merge_mi_loop (Some c) cs) as [rest|] eqn:R; cbn [bind] in H;
          [|discriminate].
        injection H as <-. apply IH in R as [R1 R2]. cbn [opt_list app] in *.
        rewrite !sizes_cons in *. split; [lia|]. intros Hle.
        rewrite no_mi_pair_cons, (andb_comm (name_is l "mi")), E.
        apply R2. lia.
    + apply (IH (Some c) out H).
Qed.

Lemma merged_sizes (name : string) (cs cs1 : list node) :
  merged name cs = Ok cs1 ->
  sizes cs1 <= sizes cs
  /\ (sizes cs <= sizes cs1 ->
      dict_in (PyStr name) POSITIONAL_TAGS || no_mi_pair cs = true
      /\ cs1 = cs).
Proof.
  unfold merged. destruct (dict_in (PyStr name) POSITIONAL_TAGS).
  - intros H. injection H as <-. split; [lia|]. intros _. split; reflexivity.
  - intros H. destruct (merge_mi_loop_sizes None cs cs1 H) as [H1 H2].
    cbn [opt_list app] in *. split; [exact H1|]. intros Hle.
    pose proof (H2 Hle) as Hp. split; [exact Hp|].
    rewrite (merge_mi_loop_no_pair None cs Hp) in H. injection H as <-.
    reflexivity.
Qed.

Lemma unwrap_single_table_sizes (c : node) :
  sizes (unwrap_single_table c) <= size c
  /\ (size c <= sizes (unwrap_single_table c) -> single_table c = false).
Proof.
  destruct (single_table c) eqn:E.
  - destruct c as [s | n [|[s | m [|[s | k g] [|d ds]]] [|e es]]];
      try discriminate.
    cbn [single_table] in E. apply andb_true_iff in E as [E Ek].
    apply andb_true_iff in E as [En Em].
    unfold unwrap_single_table. cbn [check_single_name List.length Nat.eqb].
    rewrite En, Em, Ek. cbn [andb]. unfold sizes.
    cbn [map list_sum fold_right size]. split; [lia|].
    intros Hle. exfalso. lia.
  - rewrite (unwrap_not_single c E). rewrite sizes_cons.
    change (sizes []) with 0. split; [lia | reflexivity].
Qed.

Lemma remove_single_table_sizes (cs : list node) :
  sizes (flat_map unwrap_single_table cs) <= sizes cs
  /\ (sizes cs <= sizes (flat_map unwrap_single_table cs) ->
      existsb single_table cs = false).
Proof.
  induction cs as [|c cs [IH1 IH2]]; [cbn; split; [lia | reflexivity]|].
  cbn [flat_map existsb]. rewrite sizes_app, sizes_cons.
  destruct (unwrap_single_table_sizes c) as [H1 H2]. split; [lia|].
  intros Hle. rewrite H2, IH2 by lia. reflexivity.
Qed.

Lemma subseq_sizes (l' l : list node) :
  subseq l' l -> sizes l' <= sizes l /\ (sizes l <= sizes l' -> l' = l).
Proof.
  induction 1 as [|a l' l _ [IH1 IH2]|a l' l _ [IH1 IH2]].
  - split; [lia | reflexivity].
  - rewrite sizes_cons. pose proof (size_pos a). split; lia.
  - rewrite !sizes_cons. split; [lia|]. intros Hle. rewrite IH2 by lia.
    reflexivity.
Qed.

Lemma subseq_length {A : Type} (l' l : list A) :
  subseq l' l -> List.length l' <= List.length l.
Proof. induction 1; cbn [List.length]; lia. Qed.

(** A flagged column within the row makes the row shorter. *)
Lemma extract_cells_shorter (fuel : nat) (is_empty : list bool) (i k : nat)
  (contents out : list node) :
  extract_cells fuel is_empty i i contents = Ok out ->
  k < fuel + i -> i <= k < List.length contents ->
  nth_error is_empty k = Some true ->
  List.length out < List.length contents.
Proof.
  revert i contents. induction fuel as [|fuel IH]; intros i contents H Hf Hk Ht;
    [lia|].
  cbn [extract_cells] in H. destruct (nth_error contents i) eqn:E.
  - destruct (nth_error is_empty i) as [[|]|] eqn:Ei; [| |discriminate].
    + apply extract_cells_subseq, subseq_length in H.
      pose proof (list_del_length_lt contents i ltac:(lia)). lia.
    + apply (IH (S i) contents H); [lia| |exact Ht].
      destruct (Nat.eq_dec i k) as [->|]; [congruence | lia].
  - apply nth_error_None in E. lia.
Qed.

Lemma Forall2_diag {A : Type} (R : A -> A -> Prop) (l : list A) :
  Forall2 R l l -> Forall (fun a => R a a) l.
Proof.
  induction l as [|a l IH]; intros H; [constructor|].
  inversion H; subst. constructor; [assumption | apply IH; assumption].
Qed.

Lemma prune_columns_sizes (rows rows' : list node) :
  prune_columns rows = Ok rows' ->
  sizes rows' <= sizes rows
  /\ (sizes rows <= sizes rows' -> columns_kept rows = true /\ rows' = rows).
Proof.
  intros H.
  assert (Hne : rows <> []) by (intros ->; discriminate).
  assert (Ht : forallb is_tag rows = true).
  { destruct (forallb is_tag rows) eqn:Ht; [reflexivity|].
    unfold prune_columns in H. rewrite (row_widths_leaf _ Ht) in H.
    discriminate. }
  assert (HF : Forall2 (fun row row' =>
                          row' = with_children row (cells row')
                          /\ subseq (cells row') (cells row)) rows rows').
  { apply (remove_empty_columns_rows "mtable" (mkState None [] rows)
             (mkState None [] rows')).
    unfold remove_empty_columns. change (String.eqb "mtable" "mtable") with true.
    cbn [kids]. rewrite H. reflexivity. }
  assert (Hs : sizes rows' <= sizes rows
               /\ (sizes rows <= sizes rows' -> rows' = rows)).
  { clear H Hne. induction HF as [|row row' rows rows' [Hr Hsub] _ IH].
    - split; [lia | reflexivity].
    - cbn [forallb] in Ht. apply andb_true_iff in Ht as [Htr Ht].
      destruct (IH Ht) as [IH1 IH2]. destruct row as [s | n cs]; [discriminate|].
      destruct row' as [s' | n' cs']; [discriminate Hr|].
      cbn [with_children cells] in *. injection Hr as ->.
      rewrite !sizes_cons, !size_tag.
      destruct (subseq_sizes _ _ Hsub) as [S1 S2]. split; [lia|].
      intros Hle. rewrite (IH2 ltac:(lia)), (S2 ltac:(lia)). reflexivity. }
  destruct Hs as [Hs1 Hs2]. split; [exact Hs1|]. intros Hle.
  specialize (Hs2 Hle). subst rows'. split; [|reflexivity].
  destruct (prune_columns_flags rows Hne Ht)
    as (n & e & _ & Hin & Hw & _ & Hl & Hn & Hp).
  unfold columns_kept. rewrite Ht.
  destruct rows as [|r0 rs] eqn:Er; [contradiction|]. rewrite <- Er in *.
  replace (negb (List.length rows =? 0)) with true
    by (rewrite Er; reflexivity).
  cbn [andb]. rewrite (list_max_attained _ n Hin)
    by (apply Forall_map; exact Hw).
  apply forallb_forall. intros k Hk. apply in_seq in Hk.
  apply negb_true_iff. destruct (forallb (cell_is_empty k) rows) eqn:Ek;
    [exfalso | reflexivity].
  apply in_map_iff in Hin as (row & Hwr & Hrow).
  rewrite Hp in H. apply mapM_Forall2 in H.
  assert (Hx : extract_row e row = Ok row).
  { apply Forall2_diag in H. rewrite Forall_forall in H. apply H, Hrow. }
  rewrite forallb_forall in Ht. specialize (Ht row Hrow).
  destruct row as [s | nm cs]; [discriminate|].
  unfold extract_row in Hx. cbn [children_of bind width with_children] in *.
  destruct (extract_cells (S (List.length cs)) e 0 0 cs) as [out|] eqn:X;
    cbn [bind] in Hx; [|discriminate].
  injection Hx as ->.
  pose proof (extract_cells_shorter _ e 0 k cs cs X ltac:(lia) ltac:(lia)) as Hsh.
  assert (Hflag : nth_error e k = Some true).
  { apply flag_true. rewrite Hn, Ek. apply andb_true_iff. split; [|reflexivity].
    apply Nat.ltb_lt. lia. }
  specialize (Hsh Hflag). lia.
Qed.

Lemma validate_inv (name : string) (st st' : tstate) :
  validate name st = Ok st' ->
  st' = st /\ required_arity_met name (kids st) = true.
Proof.
  unfold validate, required_arity_met.
  destruct (dict_get POSITIONAL_TAGS name) as [k|].
  - destruct (k =? List.length (kids st)); cbn [negb]; [|discriminate].
    intros H. injection H as <-. split; reflexivity.
  - intros H. injection H as <-. split; reflexivity.
Qed.

Lemma sizes_one (t : node) : sizes [t] = size t.
Proof. unfold sizes. cbn [map list_sum fold_right]. lia. Qed.

(** The rules of an element return at most as many nodes as they are
    given, and as many only when they are idle. *)
Lemma rules_sizes (name : string) (p : option string) (cs : list node)
  (st : tstate) :
  rules name (mkState p [] cs) = Ok st ->
  sizes match p with
        | Some _ => in_parent name st
        | None => [Tag name (kids st)]
        end <= S (sizes cs)
  /\ (S (sizes cs) <= sizes match p with
                            | Some _ => in_parent name st
                            | None => [Tag name (kids st)]
                            end ->
      rules_idle name cs = true /\ (p <> None -> goes name cs = false)).
Proof.
  unfold rules. intros H.
  destruct (restructure name (mkState p [] cs)) as [st0|] eqn:R;
    cbn [bind] in H; [|discriminate].
  apply validate_inv in H as [-> Hv].
  destruct (String.eqb name "mtable") eqn:E.
  - apply String.eqb_eq in E. subst name. rewrite restructure_mtable in R.
    change (merge_mi_loop None cs) with (merged "mtable" cs) in R.
    destruct (merged "mtable" cs) as [cs1|] eqn:M; cbn [bind] in R;
      [|discriminate].
    destruct (prune_columns cs1) as [rows|] eqn:Pr; cbn [bind] in R;
      [|discriminate].
    injection R as <-.
    destruct (merged_sizes _ _ _ M) as [M1 M2].
    destruct (prune_columns_sizes _ _ Pr) as [P1 P2].
    destruct (remove_single_table_sizes rows) as [U1 U2].
    assert (Hshown : match p with
                     | Some _ =>
                         in_parent "mtable"
                           (mkState p [] (flat_map unwrap_single_table rows))
                     | None =>
                         [Tag "mtable"
                            (kids (mkState p []
                                     (flat_map unwrap_single_table rows)))]
                     end
                     = [Tag "mtable" (flat_map unwrap_single_table rows)])
      by (destruct p; reflexivity).
    rewrite Hshown, sizes_one, size_tag. split; [lia|]. intros Hle.
    destruct (M2 ltac:(lia)) as [Hp ->].
    destruct (P2 ltac:(lia)) as [Hk ->].
    specialize (U2 ltac:(lia)).
    unfold rules_idle. rewrite Hp, Hk, U2. split; [reflexivity|].
    intros _. apply columns_kept_inv in Hk as (Hne & _).
    destruct cs; [contradiction | reflexivity].
  - rewrite (restructure_eq name p [] cs E) in R.
    destruct (merged name cs) as [cs1|] eqn:M; cbn [bind] in R;
      [|discriminate].
    destruct (merged_sizes _ _ _ M) as [M1 M2].
    destruct (remove_single_table_sizes cs1) as [U1 U2].
    destruct (String.eqb name "mrow" && (List.length cs1 =? 1)) eqn:C.
    + destruct p; [|discriminate]. injection R as <-.
      cbn [in_parent parent slot]. split; [lia|]. intros Hle. exfalso. lia.
    + injection R as <-. destruct p as [q|].
      * destruct (goes name cs1) eqn:G; cbn [in_parent parent slot kids].
        -- change (sizes []) with 0. split; [lia|]. intros Hle. exfalso. lia.
        -- rewrite sizes_one, size_tag. split; [lia|]. intros Hle.
           destruct (M2 ltac:(lia)) as [Hp ->]. specialize (U2 ltac:(lia)).
           assert (Hs : kids (mkState (Some q) []
                                (flat_map unwrap_single_table cs)) = cs)
             by (cbn [kids]; apply remove_single_table_idle, U2).
           split; [|intros _; exact G].
           unfold rules_idle. rewrite Hp, C, E, U2. rewrite Hs in Hv.
           rewrite Hv. reflexivity.
      * assert (Hk : kids (if goes name cs1
                           then mkState None []
                                  (flat_map unwrap_single_table cs1)
                           else mkState None []
                                  (flat_map unwrap_single_table cs1))
                     = flat_map unwrap_single_table cs1)
          by (destruct (goes name cs1); reflexivity).
        rewrite Hk in *. rewrite sizes_one, size_tag. split; [lia|].
        intros Hle. destruct (M2 ltac:(lia)) as [Hp ->].
        specialize (U2 ltac:(lia)).
        rewrite (remove_single_table_idle cs U2) in Hv.
        split; [|intros F; contradiction].
        unfold rules_idle. rewrite Hp, C, E, U2, Hv. reflexivity.
Qed.

Lemma dfs_children_sizes (name : string) (cs : list node) :
  Forall (fun c => forall p r, dfs (Some p) c = Ok r ->
            sizes (snd r) <= size c
            /\ (size c <= sizes (snd r) -> steady c = true)) cs ->
  forall ks, dfs_children (dfs (Some name)) cs = Ok ks ->
  sizes ks <= sizes cs
  /\ (sizes cs <= sizes ks -> forallb steady cs = true).
Proof.
  induction 1 as [|c cs Hc _ IH]; intros ks H.
  - cbn in H. injection H as <-. split; [lia | reflexivity].
  - cbn [dfs_children] in H.
    destruct (dfs (Some name) c) as [r|] eqn:D; cbn [bind] in H;
      [|discriminate].
    destruct (dfs_children (dfs (Some name)) cs) as [rs|] eqn:K;
      cbn [bind] in H; [|discriminate].
    injection H as <-. destruct (Hc name r D) as [C1 C2].
    destruct (IH rs eq_refl) as [I1 I2].
    rewrite sizes_app, sizes_cons. split; [lia|]. intros Hle.
    cbn [forallb]. rewrite C2, I2 by lia. reflexivity.
Qed.

Lemma dfs_children_steady_inv (name : string) (cs ks : list node) :
  forallb steady cs = true ->
  dfs_children (dfs (Some name)) cs = Ok ks -> ks = cs.
Proof.
  intros Hs K. rewrite (dfs_children_steady cs) in K.
  - injection K as <-. reflexivity.
  - apply Forall_forall. intros c _ q. apply steady_fixed.
  - exact Hs.
Qed.

(** Below a parent, [dfs] leaves at most as many nodes in the place of a
    tree as the tree has, and as many only when the tree is steady. *)
Lemma dfs_sizes (t : node) :
  forall p r, dfs (Some p) t = Ok r ->
    sizes (snd r) <= size t /\ (size t <= sizes (snd r) -> steady t = true).
Proof.
  induction t as [s | name cs IH] using node_ind; intros p r H.
  - cbn [dfs] in H. injection H as <-. cbn [snd]. rewrite sizes_one.
    split; [lia | reflexivity].
  - destruct (String.eqb name "annotation") eqn:Ha.
    { apply String.eqb_eq in Ha. subst name.
      rewrite (annotation_detached p cs r H). rewrite size_tag.
      change (sizes []) with 0. split; [lia|]. intros Hle. exfalso. lia. }
    cbn [dfs] in H. unfold enter in H. rewrite Ha in H.
    destruct (String.eqb name "semantics" && (List.length cs =? 1)) eqn:Hs.
    { apply andb_true_iff in Hs as [Hn Hl]. apply String.eqb_eq in Hn.
      subst name. destruct cs as [|c [|d cs]]; try discriminate.
      cbn in H. injection H as <-. cbn [snd].
      rewrite size_tag, sizes_one. split; [lia|].
      intros Hle. exfalso. lia. }
    destruct (dfs_children (dfs (Some name)) cs) as [ks|] eqn:K;
      cbn [bind] in H; [|discriminate].
    unfold set_kids in H. cbn [parent slot] in H.
    destruct (rules name (mkState (Some p) [] ks)) as [st|] eqn:R;
      cbn [bind] in H; [|discriminate].
    injection H as <-. cbn [snd].
    destruct (dfs_children_sizes name cs IH ks K) as [K1 K2].
    destruct (rules_sizes name (Some p) ks st R) as [R1 R2].
    rewrite size_tag. split; [lia|]. intros Hle.
    pose proof (K2 ltac:(lia)) as Hcs.
    rewrite (dfs_children_steady_inv name cs ks Hcs K) in *.
    destruct (R2 ltac:(lia)) as [Hi Hg].
    cbn [steady]. rewrite Ha, Hs, Hi, Hcs, (Hg ltac:(discriminate)).
    reflexivity.
Qed.

(** [normalize] returns at most as many nodes as it is given, and as many
    only on a tree that is steady. *)
Lemma normalize_sizes (t root : node) :
  normalize t = Ok root ->
  size root <= size t /\ (size t <= size root -> steady_root t = true).
Proof.
  unfold normalize. intros H.
  destruct (dfs None t) as [r|] eqn:D; cbn [bind] in H; [|discriminate].
  injection H as <-. destruct t as [s | name cs].
  - cbn [dfs] in D. injection D as <-. split; [cbn; lia | reflexivity].
  - cbn [dfs] in D. unfold enter in D.
    destruct (String.eqb name "annotation") eqn:Ha.
    + cbn [extract parent bind] in D.
      destruct (rules name (mkState None [] cs)) as [st|] eqn:R;
        cbn [bind] in D; [|discriminate].
      injection D as <-. cbn [fst].
      destruct (rules_sizes name None cs st R) as [R1 R2].
      rewrite sizes_one in R1, R2. rewrite (size_tag name cs).
      split; [exact R1|]. intros Hle. destruct (R2 Hle) as [Hi _].
      cbn [steady_root]. rewrite Hi. apply String.eqb_eq in Ha. subst name.
      reflexivity.
    + destruct (String.eqb name "semantics" && (List.length cs =? 1)) eqn:Hs;
        [discriminate|].
      destruct (dfs_children (dfs (Some name)) cs) as [ks|] eqn:K;
        cbn [bind] in D; [|discriminate].
      unfold set_kids in D. cbn [parent slot] in D.
      destruct (rules name (mkState None [] ks)) as [st|] eqn:R;
        cbn [bind] in D; [|discriminate].
      injection D as <-. cbn [fst].
      assert (IH : Forall (fun c => forall p r, dfs (Some p) c = Ok r ->
                             sizes (snd r) <= size c
                             /\ (size c <= sizes (snd r) -> steady c = true))
                     cs)
        by (apply Forall_forall; intros c _; apply dfs_sizes).
      destruct (dfs_children_sizes name cs IH ks K) as [K1 K2].
      destruct (rules_sizes name None ks st R) as [R1 R2].
      rewrite sizes_one in R1, R2. rewrite (size_tag name cs).
      split; [lia|]. intros Hle. pose proof (K2 ltac:(lia)) as Hcs.
      rewrite (dfs_children_steady_inv name cs ks Hcs K) in *.
      destruct (R2 ltac:(lia)) as [Hi _].
      cbn [steady_root]. rewrite Hs, Hi, Hcs, orb_true_r. reflexivity.
Qed.

(** The trees [normalize] returns unchanged are the steady ones. *)
Lemma normalize_fixed_iff (root : node) :
  normalize root = Ok root <-> steady_root root = true.
Proof.
  split.
  - intros H. apply (normalize_sizes root root H). apply le_n.
  - apply steady_root_fixed.
Qed.

End Steady.

(** C1, amended: a second pass over the tree [normalize] returned changes
    nothing exactly when that tree is steady ([steady_root]): no
    [semantics] element of one child; below the root no [annotation] and no
    element that [remove_empty_tag] or [remove_empty_row] detaches; and on
    every element no two neighbouring [mi] (unless the tag is positional),
    no [mrow] of one child, no empty column in a table, no child that is a
    table of one cell, and the required arity (below a root that is an
    [annotation], which [dfs] does not enter, nothing is asked).  The first
    pass can return a tree that is not steady; it returns a steady one
    whenever its input has no [semantics] and no [mtable] element. *)
Theorem second_pass_changes_nothing (soup root : node) :
  normalize soup = Ok root ->
  (normalize root = Ok root <-> steady_root root = true)
  /\ (regular soup = true -> normalize root = Ok root).
Proof.
  intros H. split.
  - apply normalize_fixed_iff.
  - intros Hreg. apply (regular_second_pass soup root Hreg H).
Qed.

Lemma second_pass_changes_nothing_witness :
  normalize
    (document
       [mi "ab";
        mtable [mtr [mtd [mi "c"]; mtd []];
                mtr [mtd [mi "d"]; mtd [Tag "mn" [str "1"]]]];
        semantics [Tag "mo" [str "+"]; Tag "mn" [str "2"]]])
  = Ok
      (document
         [mi "ab";
          mtable [mtr [mtd [mi "c"]; mtd []];
                  mtr [mtd [mi "d"]; mtd [Tag "mn" [str "1"]]]];
          semantics [Tag "mo" [str "+"]; Tag "mn" [str "2"]]]).
Proof.
  destruct (second_pass_changes_nothing
              (document
                 [mrow [mi "a"; mrow [mi "b"]]; annotation [str "ab"];
                  mtable [mtr [mtd [mi "c"]; mtd []];
                          mtr [mtd [mi "d"]; mtd [Tag "mn" [str "1"]]]];
                  semantics [Tag "mo" [str "+"]; Tag "mn" [str "2"];
                             annotation [str "z"]]])
              (document
                 [mi "ab";
                  mtable [mtr [mtd [mi "c"]; mtd []];
                          mtr [mtd [mi "d"]; mtd [Tag "mn" [str "1"]]]];
                  semantics [Tag "mo" [str "+"]; Tag "mn" [str "2"]]]))
    as [[_ H] _]; [reflexivity | apply H; reflexivity].
Defined.
